(** * Adaptive JPEG compression engine ([src/main.py]): model and properties

    The development embeds [compress_image], [upload_image] and
    [get_compressed_image] of [src/main.py].  Python integers are [Z];
    Python floats are IEEE 754 binary64 values, computed with the Standard
    Library's executable specification [SpecFloat]; exceptions are an error
    monad; the calls of [img.save] are recorded in a trace; the blob
    directory and the MongoDB collection form an explicit store threaded
    through [upload_image] and read by [get_compressed_image]. *)

From Stdlib Require Import ZArith List Bool Lia.
From Stdlib Require Import Floats.SpecFloat.
From Stdlib Require Import Strings.String Strings.Ascii Strings.Byte.
From Stdlib Require Import Numbers.DecimalString.
From Stdlib Require Numbers.DecimalZ Numbers.DecimalPos.
From stdpp Require Import gmap strings.
From Equations.Prop Require Import Equations Logic.

Import ListNotations.
Local Open Scope Z_scope.

(** ** Exceptions and the error monad *)

(** The Python exceptions that the modelled code can raise. *)
Inductive exn : Type :=
  | DecodeError        (* Image.open / Image.load cannot read the bytes *)
  | EncodeError        (* img.save fails *)
  | ZeroDivisionError
  | OverflowError
  | ValueError.

Inductive outcome (A : Type) : Type :=
  | Ok (a : A)
  | Raise (e : exn).
Arguments Ok {A} a.
Arguments Raise {A} e.

Definition bind {A B} (m : outcome A) (k : A -> outcome B) : outcome B :=
  match m with
  | Ok a => k a
  | Raise e => Raise e
  end.

Declare Scope py_scope.
Delimit Scope py_scope with py.
Notation "'let*' x ':=' m 'in' k" := (bind m (fun x => k))
  (at level 10, x pattern, m at level 100, k at level 200) : py_scope.
Local Open Scope py_scope.

Definition of_option {A} (e : exn) (o : option A) : outcome A :=
  match o with
  | Some a => Ok a
  | None => Raise e
  end.

(** ** Python floats *)

Module PyFloat.

Definition prec : Z := 53.
Definition emax : Z := 1024.

Definition float : Type := spec_float.

Definition is_finite (f : float) : bool :=
  match f with
  | S754_zero _ | S754_finite _ _ _ => true
  | _ => false
  end.

Definition is_zero (f : float) : bool :=
  match f with
  | S754_zero _ => true
  | _ => false
  end.

Definition zero : float := S754_zero false.

(** [float(n)] for a Python int: rounded to nearest even,
    [OverflowError] when out of range. *)
Definition of_int (n : Z) : outcome float :=
  let f := binary_normalize prec emax n 0 false in
  if is_finite f then Ok f else Raise OverflowError.

(** An integer as an unrounded mantissa with exponent 0. *)
Definition exact (n : Z) : float :=
  match n with
  | Z0 => S754_zero false
  | Zpos p => S754_finite false p 0
  | Zneg p => S754_finite true p 0
  end.

(** [a / b] on two Python ints: the correctly rounded quotient. *)
Definition int_truediv (a b : Z) : outcome float :=
  if b =? 0 then Raise ZeroDivisionError
  else
    let q := SFdiv prec emax (exact a) (exact b) in
    if is_finite q then Ok q else Raise OverflowError.

(** [x * y] on floats never raises. *)
Definition mul (x y : float) : float := SFmul prec emax x y.

Definition sub (x y : float) : float := SFsub prec emax x y.

Definition abs (x : float) : float := SFabs x.

(** [x / y] on floats raises on a zero divisor. *)
Definition div (x y : float) : outcome float :=
  if is_zero y then Raise ZeroDivisionError else Ok (SFdiv prec emax x y).

(** [x >= y] and [x < y]. *)
Definition geb (x y : float) : bool := SFleb y x.
Definition ltb (x y : float) : bool := SFltb x y.

(** [math.floor], [math.ceil] and [int] on a float. *)
Definition floor (x : float) : outcome Z :=
  match x with
  | S754_zero _ => Ok 0
  | S754_finite s m e =>
      let n := if s then Zneg m else Zpos m in
      Ok (if 0 <=? e then n * 2 ^ e else n / 2 ^ (- e))
  | S754_infinity _ => Raise OverflowError
  | S754_nan => Raise ValueError
  end.

Definition ceil (x : float) : outcome Z :=
  let* n := floor (SFopp x) in Ok (- n).

Definition to_int (x : float) : outcome Z :=
  match x with
  | S754_zero _ => Ok 0
  | S754_finite s m e =>
      let n := if s then Zneg m else Zpos m in
      Ok (if 0 <=? e then n * 2 ^ e else Z.quot n (2 ^ (- e)))
  | S754_infinity _ => Raise OverflowError
  | S754_nan => Raise ValueError
  end.

(** The literal [0.9]: the double nearest to nine tenths. *)
Definition nine_tenths : float := S754_finite false 8106479329266893 (-53).



End PyFloat.

(** ** Images and the codec interface *)

Definition bytes : Type := list Byte.byte.

(** [len(content)], [output.tell()] after a save into an emptied buffer. *)
Definition len (b : bytes) : Z := Z.of_nat (List.length b).

(** A PIL image: its mode, its [size] as [(width, height)] and its pixel
    data, which the engine never inspects. *)
Record Image (Pix : Type) : Type := mkImage {
  mode : string;
  size : Z * Z;
  pixels : Pix
}.
Arguments mkImage {Pix} mode size pixels.
Arguments mode {Pix} i.
Arguments size {Pix} i.
Arguments pixels {Pix} i.

(** The operations of the imaging library that the engine calls.  Each may
    fail; what they compute on pixels is left to the instance. *)
Class Codec (Pix : Type) : Type := {
  (* Image.open(io.BytesIO(content)) *)
  image_open : bytes -> option (Image Pix);
  (* the pixel data of img.convert('RGB') *)
  convert_rgb : Image Pix -> option Pix;
  (* the pixel data of img.resize(size, LANCZOS) *)
  resize_lanczos : Image Pix -> Z * Z -> option Pix;
  (* the bytes written by img.save(output, format='JPEG', quality=q, optimize=True) *)
  save_jpeg : Image Pix -> Z -> option bytes
}.

(** ** [Image.thumbnail] *)

Section Thumbnail.
Import PyFloat.

(** [round_aspect(number, key)]:
    [max(min(math.floor(number), math.ceil(number), key=key), 1)];
    [min] keeps its first argument unless the second has a strictly
    smaller key. *)
Definition round_aspect (number : float) (key : Z -> outcome float) : outcome Z :=
  let* lo := floor number in
  let* hi := ceil number in
  let* klo := key lo in
  let* khi := key hi in
  Ok (Z.max (if ltb khi klo then hi else lo) 1).

(** [preserve_aspect_ratio()], the local function of Pillow's
    [Image.thumbnail] (Pillow 9.1 and later, which [Image.Resampling]
    requires), for an image of size [(width, height)] and a requested
    size [(x, y)]; [None] is the early [return] taken when the image
    already fits. *)
Definition preserve_aspect_ratio (width height : Z) (provided_size : Z * Z)
  : outcome (option (Z * Z)) :=
  let '(x, y) := provided_size in
  if (x >=? width) && (y >=? height) then Ok None
  else
    let* aspect := int_truediv width height in
    let* r := int_truediv x y in
    if geb r aspect then
      let* fy := of_int y in
      let* x' := round_aspect (mul fy aspect)
                   (fun n => let* q := int_truediv n y in Ok (abs (sub aspect q))) in
      Ok (Some (x', y))
    else
      let* fx := of_int x in
      let* number := div fx aspect in
      let* y' := round_aspect number
                   (fun n => if n =? 0 then Ok zero
                             else let* q := int_truediv x n in Ok (abs (sub aspect q))) in
      Ok (Some (x, y')).

Context {Pix : Type} `{Codec Pix}.

(** [img.thumbnail(size, Image.Resampling.LANCZOS)]: the image is
    resized only when the preserved size differs from its own. *)
Definition thumbnail (img : Image Pix) (provided_size : Z * Z) : outcome (Image Pix) :=
  let* preserved := preserve_aspect_ratio (fst (size img)) (snd (size img)) provided_size in
  match preserved with
  | None => Ok img
  | Some final_size =>
      if decide (size img = final_size) then Ok img
      else
        let* px := of_option ValueError (resize_lanczos img final_size) in
        Ok (mkImage (mode img) final_size px)
  end.

End Thumbnail.

(** ** The engine monad: exceptions and a trace of [img.save] calls *)

(** The four places where [compress_image] calls [img.save]. *)
Inductive save_site : Type :=
  | SaveInitial   (* before the loop, at max_quality *)
  | SaveReduce    (* in the body of the while loop *)
  | SaveShrink    (* after the second thumbnail, at min_quality *)
  | SaveBoost.    (* in the final quality raise *)

Global Instance save_site_eq_dec : EqDecision save_site.
Proof. solve_decision. Defined.

(** One call of [img.save]: where, at which quality, on an image of
    which size. *)
Record Encode : Type := mkEncode {
  site : save_site;
  at_quality : Z;
  at_size : Z * Z
}.

Definition Eng (A : Type) : Type := list Encode -> list Encode * outcome A.

Definition ret {A} (a : A) : Eng A := fun t => (t, Ok a).

Definition lift {A} (m : outcome A) : Eng A := fun t => (t, m).

Definition bind_eng {A B} (m : Eng A) (k : A -> Eng B) : Eng B :=
  fun t =>
    match m t with
    | (t', Ok a) => k a t'
    | (t', Raise e) => (t', Raise e)
    end.

Notation "'let+' x ':=' m 'in' k" := (bind_eng m (fun x => k))
  (at level 10, x pattern, m at level 100, k at level 200) : py_scope.

(** ** [compress_image] *)

Record Config : Type := mkConfig {
  max_dimension : Z;
  target_size_kb : Z;
  min_quality : Z;
  max_quality : Z
}.

(** The values of the locals [img], [output] and [quality] when the
    [return] statement is reached. *)
Record Locals (Pix : Type) : Type := mkLocals {
  img : Image Pix;
  output : bytes;
  quality : Z
}.
Arguments mkLocals {Pix} img output quality.
Arguments img {Pix} l.
Arguments output {Pix} l.
Arguments quality {Pix} l.

(** The returned tuple [(output, img.size, original_size, compressed_size)]. *)
Record Compressed : Type := mkCompressed {
  compressed_image : bytes;
  new_dimensions : Z * Z;
  original_size : Z;
  compressed_size : Z
}.

Section Engine.
Context {Pix : Type} `{Codec Pix}.

(** [output.seek(0); output.truncate(0); img.save(output, format='JPEG',
    quality=q, optimize=True)]: the buffer then holds the new bytes only
    and [output.tell()] is their length. *)
Definition save (s : save_site) (im : Image Pix) (q : Z) : Eng bytes :=
  fun t => (t ++ [mkEncode s q (size im)], of_option EncodeError (save_jpeg im q)).

(** [if img.mode != 'RGB': img = img.convert('RGB')] *)
Definition to_rgb (im : Image Pix) : outcome (Image Pix) :=
  if String.eqb (mode im) "RGB" then Ok im
  else
    let* px := of_option DecodeError (convert_rgb im) in
    Ok (mkImage "RGB" (size im) px).

(** The requested bounding box [max_dimensions = (new_width, new_height)]. *)
Definition requested_box (max_dimension width height : Z) : outcome (Z * Z) :=
  if width >=? height then
    let* r := PyFloat.int_truediv max_dimension width in
    let* fh := PyFloat.of_int height in
    let* new_height := PyFloat.to_int (PyFloat.mul r fh) in
    Ok (max_dimension, new_height)
  else
    let* r := PyFloat.int_truediv max_dimension height in
    let* fw := PyFloat.of_int width in
    let* new_width := PyFloat.to_int (PyFloat.mul r fw) in
    Ok (new_width, max_dimension).

(** [tuple(int(dim * 0.9) for dim in max_dimensions)] *)
Definition shrink_box (max_dimensions : Z * Z) : outcome (Z * Z) :=
  let* f0 := PyFloat.of_int (fst max_dimensions) in
  let* d0 := PyFloat.to_int (PyFloat.mul f0 PyFloat.nine_tenths) in
  let* f1 := PyFloat.of_int (snd max_dimensions) in
  let* d1 := PyFloat.to_int (PyFloat.mul f1 PyFloat.nine_tenths) in
  Ok (d0, d1).

(** [while output.tell() > 150 * 1024 and quality > min_quality:
       quality -= 5; ...; img.save(...)]
    The distance from [quality] to [min_quality] decreases at each turn. *)
Equations? reduce_quality (im : Image Pix) (min_q : Z) (q : Z) (out : bytes)
    (t : list Encode) : list Encode * outcome (Z * bytes)
    by wf (Z.to_nat (q - min_q)) lt :=
  reduce_quality im min_q q out t
    with inspect ((len out >? 150 * 1024) && (q >? min_q)) := {
    | exist _ false _ => (t, Ok (q, out))
    | exist _ true Hguard
        with save SaveReduce im (q - 5) t := {
        | (t', Raise e) => (t', Raise e)
        | (t', Ok out') => reduce_quality im min_q (q - 5) out' t' } }.
Proof. apply andb_prop in Hguard. lia. Qed.

Definition compress_image_locals (content : bytes) (cfg : Config) : Eng (Locals Pix) :=
  let+ im := lift (of_option DecodeError (image_open content)) in
  let+ im := lift (to_rgb im) in
  let '(width, height) := size im in
  let+ max_dimensions := lift (requested_box (max_dimension cfg) width height) in
  let+ im := lift (thumbnail im max_dimensions) in
  let q := max_quality cfg in
  let+ out := save SaveInitial im q in
  let+ (q, out) := reduce_quality im (min_quality cfg) q out in
  let+ (im, out) :=
    if len out >? 150 * 1024 then
      let+ new_dims := lift (shrink_box max_dimensions) in
      let+ im := lift (thumbnail im new_dims) in
      let+ out := save SaveShrink im (min_quality cfg) in
      ret (im, out)
    else ret (im, out) in
  let+ (q, out) :=
    if (len out <? target_size_kb cfg * 1024) && (q <? max_quality cfg) then
      let q := Z.min (q + 10) (max_quality cfg) in
      let+ out := save SaveBoost im q in
      ret (q, out)
    else ret (q, out) in
  ret (mkLocals im out q).

(** [compress_image]: the trace of saves and the returned tuple. *)
Definition compress_image (content : bytes) (cfg : Config) : Eng Compressed :=
  let original := len content in
  let+ l := compress_image_locals content cfg in
  ret (mkCompressed (output l) (size (img l)) original (len (output l))).

End Engine.

(** ** [upload_image] and its collaborators *)

(** The document built as [image_info] and inserted in the collection. *)
Record ImageInfo : Type := mkImageInfo {
  info_image_id : string;
  info_filename : string;
  info_original_size_kb : PyFloat.float;
  info_compressed_size_kb : PyFloat.float;
  info_new_dimensions : string;
  info_temp_file_path : string;
  info_timestamp : string
}.

(** What the request can change: the files under [TEMP_DIR] and the
    documents of [collection], in insertion order. *)
Record Store : Type := mkStore {
  files : gmap string bytes;
  collection : list ImageInfo
}.

(** The multipart form of the request. *)
Record Upload : Type := mkUpload {
  filename : string;
  content : bytes;
  form_max_dimension : Z;
  form_target_size_kb : Z
}.

(** The JSON body of a successful answer. *)
Record Body : Type := mkBody {
  body_image_id : string;
  body_filename : string;
  body_original_size_kb : PyFloat.float;
  body_compressed_size_kb : PyFloat.float;
  body_new_dimensions : string;
  body_message : string
}.

Inductive Response : Type :=
  | Success (b : Body)
  | HTTPException (status_code : Z) (detail : string)
  | Uncaught (e : exn).   (* an exception that leaves the handler *)

Definition TEMP_DIR : string := "temp_images".

(** [s.lower()] on ASCII letters. *)
Definition lower_ascii (c : ascii) : ascii :=
  let n := nat_of_ascii c in
  if (Nat.leb 65 n && Nat.leb n 90)%bool then ascii_of_nat (n + 32) else c.

Fixpoint lower (s : string) : string :=
  match s with
  | EmptyString => EmptyString
  | String c s' => String (lower_ascii c) (lower s')
  end.

(** [s.endswith(suffix)] *)
Definition endswith (s suffix : string) : bool :=
  let n := String.length s in
  let k := String.length suffix in
  (Nat.leb k n && String.eqb (String.substring (n - k) k s) suffix)%bool.

(** [file.filename.lower().endswith(('.png', '.jpg', '.jpeg'))] *)
Definition supported_format (name : string) : bool :=
  let l := lower name in
  (endswith l ".png" || endswith l ".jpg" || endswith l ".jpeg")%bool.

(** [str(n)] for an int. *)
Definition str (n : Z) : string := NilZero.string_of_int (Z.to_int n).

Section Upload.
Context {Pix : Type} `{Codec Pix}.

(** Python's [round(x, 2)] on a float. *)
Variable round2 : PyFloat.float -> PyFloat.float.

(** [round(n / 1024, 2)] *)
Definition size_kb (n : Z) : outcome PyFloat.float :=
  let* f := PyFloat.int_truediv n 1024 in Ok (round2 f).

(** The configuration that [upload_image] passes to the engine. *)
Definition boundary_config (file : Upload) : Config :=
  mkConfig (form_max_dimension file) (form_target_size_kb file) 75 90.

(** [upload_image], given the values drawn by [uuid.uuid4()] and
    [datetime.utcnow()] during the call.  The result is the trace of the
    engine's saves, the answer, and the store after the call. *)
Definition upload_image (file : Upload) (uuid4 utcnow : string) (st : Store)
  : list Encode * (Response * Store) :=
  if negb (supported_format (filename file)) then
    ([], (HTTPException 400 "Unsupported file format", st))
  else if (form_max_dimension file <=? 0) || (form_target_size_kb file <=? 0) then
    ([], (HTTPException 400 "Invalid parameters", st))
  else
    match compress_image (content file) (boundary_config file) [] with
    | (t, Raise e) => (t, (Uncaught e, st))
    | (t, Ok r) =>
        let image_id := uuid4 in
        let temp_file_path := (TEMP_DIR ++ "/" ++ image_id ++ ".jpg")%string in
        let st1 := mkStore (<[temp_file_path := compressed_image r]> (files st))
                           (collection st) in
        match size_kb (original_size r), size_kb (compressed_size r) with
        | Ok okb, Ok ckb =>
            let dims := (str (fst (new_dimensions r)) ++ "x"
                         ++ str (snd (new_dimensions r)))%string in
            let image_info :=
              mkImageInfo image_id (filename file) okb ckb dims temp_file_path utcnow in
            let st2 := mkStore (files st1) (collection st1 ++ [image_info]) in
            (t, (Success (mkBody image_id (filename file) okb ckb dims
                            "Image compressed and stored successfully"), st2))
        | Raise e, _ => (t, (Uncaught e, st1))
        | Ok _, Raise e => (t, (Uncaught e, st1))
        end
    end.

End Upload.

(** ** A small codec for concrete runs

    Its container format is a four-byte header, width then height, each on
    two bytes (big endian).  Encoding clamps the quality to [1..100], as
    libjpeg does, and writes a number of bytes proportional to the pixel
    count and to the clamped quality.  Resizing rejects empty sizes. *)

Module Toy.

Definition be16 (hi lo : Byte.byte) : Z :=
  Z.of_N (Byte.to_N hi) * 256 + Z.of_N (Byte.to_N lo).

Definition toy_open (b : bytes) : option (Image unit) :=
  match b with
  | w1 :: w0 :: h1 :: h0 :: _ => Some (mkImage "RGB" (be16 w1 w0, be16 h1 h0) tt)
  | _ => None
  end.

Definition toy_length (sz : Z * Z) (q : Z) : nat :=
  Z.to_nat (fst sz * snd sz * Z.max 1 (Z.min q 100) / 4000).

Definition toy_resize (im : Image unit) (sz : Z * Z) : option unit :=
  if (0 <? fst sz) && (0 <? snd sz) then Some tt else None.

Definition toy_save (im : Image unit) (q : Z) : option bytes :=
  Some (repeat x00 (toy_length (size im) q)).

#[global] Instance toy_codec : Codec unit := {|
  image_open := toy_open;
  convert_rgb := fun _ => Some tt;
  resize_lanczos := toy_resize;
  save_jpeg := toy_save
|}.

(** The file of a [w] by [h] picture in the container format. *)
Definition picture (w h : Z) : bytes :=
  match Byte.of_N (Z.to_N (w / 256)), Byte.of_N (Z.to_N (w mod 256)),
        Byte.of_N (Z.to_N (h / 256)), Byte.of_N (Z.to_N (h mod 256)) with
  | Some a, Some b, Some c, Some d => [a; b; c; d]
  | _, _, _, _ => []
  end.

(** The default values of the parameters of [compress_image]. *)
Definition default_config : Config := mkConfig 500 100 75 90.

(** A stand-in for [round(x, 2)]: it leaves its argument as it is. *)
Definition toy_round2 (x : PyFloat.float) : PyFloat.float := x.

End Toy.

(** ** Notions used in the statements *)

(** The qualities tried by [n] turns of the loop entered at quality [q]. *)
Fixpoint descend (q : Z) (n : nat) : list Z :=
  match n with
  | O => []
  | S n' => (q - 5) :: descend (q - 5) n'
  end.

Definition reduce_entries (sz : Z * Z) (q : Z) (n : nat) : list Encode :=
  map (fun x => mkEncode SaveReduce x sz) (descend q n).

(** How many saves of the trace were made at a given place. *)
Definition count_site (s : save_site) (t : list Encode) : nat :=
  List.length (filter (fun e => site e = s) t).

(** The shrink of the second thumbnail ran. *)
Definition shrink_ran (t : list Encode) : Prop :=
  exists e, In e t /\ site e = SaveShrink.

(** [n] is [number] rounded down or up, and at least 1. *)
Definition rounded (number : PyFloat.float) (n : Z) : Prop :=
  exists lo hi, PyFloat.floor number = Ok lo /\ PyFloat.ceil number = Ok hi /\
                (n = Z.max lo 1 \/ n = Z.max hi 1).

(** [d] fits an image of size [(w, h)] into [box] the way [thumbnail]
    does: one edge is the edge of the box, the other is re-derived from
    the aspect ratio [w / h] and rounded. *)
Definition fitted (w h : Z) (box d : Z * Z) : Prop :=
  exists aspect, PyFloat.int_truediv w h = Ok aspect /\
    ((snd d = snd box /\
      exists fy, PyFloat.of_int (snd box) = Ok fy /\
                 rounded (PyFloat.mul fy aspect) (fst d)) \/
     (fst d = fst box /\
      exists fx number, PyFloat.of_int (fst box) = Ok fx /\
                        PyFloat.div fx aspect = Ok number /\
                        rounded number (snd d))).

(** The box contains the image: [thumbnail] leaves it alone. *)
Definition contains (box d : Z * Z) : Prop :=
  fst d <= fst box /\ snd d <= snd box.

(** [0.9 * d] rounded to the nearest integer, as the specification words
    the shrink. *)
Definition nearest_nine_tenths (d : Z) : Z := (9 * d + 5) / 10.

(** What a run shows once the encoded bytes are left out: the trace
    and, on success, the returned dimensions and the two sizes. *)
Definition observe (x : list Encode * outcome Compressed)
  : list Encode * outcome (Z * Z * Z * Z) :=
  (fst x,
   match snd x with
   | Ok r => Ok (new_dimensions r, original_size r, compressed_size r)
   | Raise e => Raise e
   end).

(** The same for the locals: the size of [img], the length of [output]
    and the value of [quality]. *)
Definition observe_locals {Pix : Type} (x : list Encode * outcome (Locals Pix))
  : list Encode * outcome (Z * Z * Z * Z) :=
  (fst x,
   match snd x with
   | Ok l => Ok (size (img l), len (output l), quality l)
   | Raise e => Raise e
   end).

(** ** Runs of [compress_image] *)

Section Runs.
Context {Pix : Type} `{Codec Pix}.

(** The quality, buffer and trace when the loop is left. *)
Definition after_loop (cfg : Config) (im : Image Pix) (out0 : bytes)
    (t1 : list Encode) (q1 : Z) (out1 : bytes) : Prop :=
  exists n : nat,
    t1 = mkEncode SaveInitial (max_quality cfg) (size im)
           :: reduce_entries (size im) (max_quality cfg) n /\
    (n = O \/ min_quality cfg < max_quality cfg - 5 * (Z.of_nat n - 1)) /\
    q1 = max_quality cfg - 5 * Z.of_nat n /\
    (len out1 >? 150 * 1024) && (q1 >? min_quality cfg) = false /\
    (n = O -> out1 = out0) /\
    (n <> O -> save_jpeg im q1 = Some out1).

(** The second thumbnail and its save, when the buffer is still large. *)
Definition after_shrink (cfg : Config) (box : Z * Z) (im2 : Image Pix) (out1 : bytes)
    (t1 : list Encode) (im3 : Image Pix) (out2 : bytes) (t2 : list Encode) : Prop :=
  (len out1 <= 150 * 1024 /\ im3 = im2 /\ out2 = out1 /\ t2 = t1) \/
  (150 * 1024 < len out1 /\
   exists new_dims,
     shrink_box box = Ok new_dims /\
     thumbnail im2 new_dims = Ok im3 /\
     save_jpeg im3 (min_quality cfg) = Some out2 /\
     t2 = t1 ++ [mkEncode SaveShrink (min_quality cfg) (size im3)]).

(** The final raise of the quality, when the buffer is small and the
    quality variable is below [max_quality]. *)
Definition after_boost (cfg : Config) (im3 : Image Pix) (q1 : Z) (out2 : bytes)
    (t2 : list Encode) (q : Z) (out : bytes) (t : list Encode) : Prop :=
  ((len out2 <? target_size_kb cfg * 1024) && (q1 <? max_quality cfg) = false /\
   q = q1 /\ out = out2 /\ t = t2) \/
  ((len out2 <? target_size_kb cfg * 1024) && (q1 <? max_quality cfg) = true /\
   q = Z.min (q1 + 10) (max_quality cfg) /\
   save_jpeg im3 q = Some out /\
   t = t2 ++ [mkEncode SaveBoost q (size im3)]).

(** A run that reaches the [return] statement, stage by stage. *)
Inductive completes (content : bytes) (cfg : Config) (t : list Encode) (l : Locals Pix)
  : Prop :=
  | Completes (im0 im1 im2 : Image Pix) (box : Z * Z) (out0 out1 out2 : bytes)
      (t1 t2 : list Encode) (q1 : Z)
      (Hopen : image_open content = Some im0)
      (Hrgb : to_rgb im0 = Ok im1)
      (Hbox : requested_box (max_dimension cfg) (fst (size im1)) (snd (size im1)) = Ok box)
      (Hthumb : thumbnail im1 box = Ok im2)
      (Hsave : save_jpeg im2 (max_quality cfg) = Some out0)
      (Hloop : after_loop cfg im2 out0 t1 q1 out1)
      (Hshrink : after_shrink cfg box im2 out1 t1 (img l) out2 t2)
      (Hboost : after_boost cfg (img l) q1 out2 t2 (quality l) (output l) t).

End Runs.

(** The trace of a run, completed or not: the first save, the saves of
    the loop, at most one save after the shrink and at most one after
    the boost. *)
Definition trace_shape (cfg : Config) (t : list Encode) : Prop :=
  t = [] \/
  exists (n : nat) (sz : Z * Z) (s b : list Encode),
    t = mkEncode SaveInitial (max_quality cfg) sz
          :: reduce_entries sz (max_quality cfg) n ++ s ++ b /\
    (n = O \/ min_quality cfg < max_quality cfg - 5 * (Z.of_nat n - 1)) /\
    (s = [] \/ exists sz', s = [mkEncode SaveShrink (min_quality cfg) sz']) /\
    (b = [] \/ exists q sz', b = [mkEncode SaveBoost q sz']).

(** ** [get_compressed_image] *)

(** The answer of the download endpoint: a [StreamingResponse] with the
    bytes of the file, its media type and its [Content-Disposition]
    header, or [raise HTTPException(status_code, detail)]. *)
Inductive Download : Type :=
  | StreamingResponse (body : bytes) (media_type : string) (content_disposition : string)
  | Raised (status_code : Z) (detail : string).

(** [collection.find_one({"image_id": image_id})]: the first document, in
    insertion order, whose [image_id] is the given one. *)
Definition find_one (image_id : string) (c : list ImageInfo) : option ImageInfo :=
  List.find (fun d => String.eqb (info_image_id d) image_id) c.

(** [get_compressed_image]: it reads the store and changes nothing. *)
Definition get_compressed_image (image_id : string) (st : Store) : Download :=
  match find_one image_id (collection st) with
  | None => Raised 404 "Image not found"
  | Some image_info =>
      let temp_file_path := info_temp_file_path image_info in
      match files st !! temp_file_path with
      | None => Raised 404 "Compressed image file not found"
      | Some b =>
          StreamingResponse b "image/jpeg"
            ("attachment; filename=compressed_image_"
             ++ info_new_dimensions image_info ++ ".jpg")%string
      end
  end.

(** ** The service: a sequence of uploads *)

(** The path under which [upload_image] writes the file of an image. *)
Definition temp_path (image_id : string) : string :=
  (TEMP_DIR ++ "/" ++ image_id ++ ".jpg")%string.

(** The f-string of the [new_dimensions] field. *)
Definition dimensions_label (d : Z * Z) : string :=
  (str (fst d) ++ "x" ++ str (snd d))%string.

(** Every document points to the path derived from its own id. *)
Definition paths_by_id (st : Store) : Prop :=
  forall d, In d (collection st) -> info_temp_file_path d = temp_path (info_image_id d).

(** The file of every document is there. *)
Definition files_present (st : Store) : Prop :=
  forall d, In d (collection st) -> is_Some (files st !! info_temp_file_path d).

(** One request: the form and the values that [uuid.uuid4()] and
    [datetime.utcnow()] give during the call. *)
Record Request : Type := mkRequest {
  req_file : Upload;
  req_uuid4 : string;
  req_utcnow : string
}.

Section Service.
Context {Pix : Type} `{Codec Pix}.
Variable round2 : PyFloat.float -> PyFloat.float.

(** The store after a sequence of calls of [upload_image]. *)
Fixpoint uploads (reqs : list Request) (st : Store) : Store :=
  match reqs with
  | [] => st
  | r :: rest =>
      uploads rest (snd (snd (upload_image round2 (req_file r) (req_uuid4 r) (req_utcnow r) st)))
  end.

End Service.


(** * Properties *)

(** ** The reduction loop *)

Section LoopFacts.
Context {Pix : Type} `{Codec Pix}.

Lemma save_eq (s : save_site) (im : Image Pix) (q : Z) (t : list Encode) :
  save s im q t = (t ++ [mkEncode s q (size im)], of_option EncodeError (save_jpeg im q)).
Proof. reflexivity. Qed.

(** The loop appends one entry per turn, at qualities going down by 5
    from the entry quality; it stops on a failed save, or when the guard
    fails; the guard held before the last turn. *)
Lemma reduce_quality_spec (im : Image Pix) (min_q q : Z) (out : bytes) (t : list Encode) :
  exists n : nat,
    fst (reduce_quality im min_q q out t) = t ++ reduce_entries (size im) q n /\
    (n = O \/ min_q < q - 5 * (Z.of_nat n - 1)) /\
    match snd (reduce_quality im min_q q out t) with
    | Ok (q', out') =>
        q' = q - 5 * Z.of_nat n /\
        (len out' >? 150 * 1024) && (q' >? min_q) = false /\
        (n = O -> out' = out) /\
        (n <> O -> save_jpeg im q' = Some out')
    | Raise e => e = EncodeError /\ n <> O /\ save_jpeg im (q - 5 * Z.of_nat n) = None
    end.
Proof.
  funelim (reduce_quality im min_q q out t).
  - (* the guard fails at once *)
    exists O. simpl. unfold reduce_entries. simpl. rewrite app_nil_r.
    repeat split; auto; try lia.
  - (* one turn, then the loop again *)
    destruct (save_jpeg im (q - 5)) as [b|] eqn:Hs; simpl in *; [|discriminate].
    match goal with Hb : Ok b = Ok out' |- _ => injection Hb as -> end.
    match goal with IH : exists n : nat, _ |- _ => destruct IH as (n & Hfst & Hmin & Hsnd) end.
    exists (S n). rewrite Hfst. split; [|split].
    + unfold reduce_entries. simpl. rewrite <- app_assoc. reflexivity.
    + right. pose proof (andb_prop _ _ Hguard) as [_ Hq].
      destruct Hmin as [-> | Hmin]; lia.
    + destruct (reduce_quality im min_q (q - 5) out'
                  (t ++ [mkEncode SaveReduce (q - 5) (size im)])) as [t1 [[q' o']|e]];
        simpl in *.
      * destruct Hsnd as (Hq' & Hg & Hz & Hnz). repeat split; auto; try lia.
        intros _. destruct n as [|n]; [|apply Hnz; lia].
        rewrite Hz by reflexivity. rewrite Hq'.
        replace (q - 5 - 5 * Z.of_nat 0) with (q - 5) by lia. exact Hs.
      * destruct Hsnd as (He & Hn & Hsv). repeat split; auto; try lia.
        rewrite <- Hsv. f_equal. lia.
  - (* the save fails *)
    destruct (save_jpeg im (q - 5)) as [b|] eqn:Hs; simpl in *; [discriminate|].
    exists 1%nat. simpl. repeat split; auto; try lia.
    congruence.
Qed.

End LoopFacts.

Section RunFacts.
Context {Pix : Type} `{Codec Pix}.

Lemma to_rgb_size (im im' : Image Pix) : to_rgb im = Ok im' -> size im' = size im.
Proof.
  unfold to_rgb. destruct (String.eqb (mode im) "RGB").
  - intros [= ->]. reflexivity.
  - destruct (convert_rgb im); simpl; [|discriminate]. intros [= <-]. reflexivity.
Qed.

Lemma compress_image_locals_completes (content : bytes) (cfg : Config)
    (t : list Encode) (l : Locals Pix) :
  compress_image_locals content cfg [] = (t, Ok l) -> completes content cfg t l.
Proof.
  unfold compress_image_locals, bind_eng, lift, ret, save. intros Hrun.
  destruct (image_open content) as [im0|] eqn:Hopen; simpl in Hrun; [|discriminate].
  destruct (to_rgb im0) as [im1|] eqn:Hrgb; [|discriminate].
  destruct (size im1) as [width height] eqn:Hsz.
  destruct (requested_box (max_dimension cfg) width height) as [box|] eqn:Hbox; [|discriminate].
  assert (Hbox' : requested_box (max_dimension cfg) (fst (size im1)) (snd (size im1)) = Ok box)
    by (rewrite Hsz; exact Hbox).
  destruct (thumbnail im1 box) as [im2|] eqn:Hthumb; [|discriminate].
  destruct (save_jpeg im2 (max_quality cfg)) as [out0|] eqn:Hsave; simpl in Hrun; [|discriminate].
  pose proof (reduce_quality_spec im2 (min_quality cfg) (max_quality cfg) out0
                [mkEncode SaveInitial (max_quality cfg) (size im2)]) as (n & Ht1 & Hmin & Hres).
  destruct (reduce_quality im2 (min_quality cfg) (max_quality cfg) out0
              [mkEncode SaveInitial (max_quality cfg) (size im2)]) as [t1 [[q1 out1]|e]];
    simpl in Ht1, Hres; [|discriminate].
  destruct Hres as (Hq1 & Hexit & Hn0 & Hn1).
  assert (Hloop : after_loop cfg im2 out0 t1 q1 out1).
  { exists n. repeat split; auto. }
  destruct (len out1 >? 150 * 1024) eqn:Hbig.
  - (* the shrink runs *)
    destruct (shrink_box box) as [new_dims|] eqn:Hnd; [|discriminate].
    destruct (thumbnail im2 new_dims) as [im3|] eqn:Hth2; [|discriminate].
      destruct (save_jpeg im3 (min_quality cfg)) as [out2|] eqn:Hsave2; simpl in Hrun;
      [|discriminate].
    destruct ((len out2 <? target_size_kb cfg * 1024) && (q1 <? max_quality cfg)) eqn:Hg.
    + destruct (save_jpeg im3 (Z.min (q1 + 10) (max_quality cfg))) as [out|] eqn:Hsave3;
        simpl in Hrun; [|discriminate].
      injection Hrun as <- <-.
      eapply Completes; eauto; simpl.
      * right. split; [lia|]. exists new_dims. repeat split; eauto.
      * right. repeat split; eauto.
    + injection Hrun as <- <-.
      eapply Completes; eauto; simpl.
      * right. split; [lia|]. exists new_dims. repeat split; eauto.
      * left. repeat split; eauto.
  - (* the shrink is skipped *)
    destruct ((len out1 <? target_size_kb cfg * 1024) && (q1 <? max_quality cfg)) eqn:Hg.
    + destruct (save_jpeg im2 (Z.min (q1 + 10) (max_quality cfg))) as [out|] eqn:Hsave3;
        simpl in Hrun; [|discriminate].
      injection Hrun as <- <-.
      eapply Completes; eauto; simpl.
      * left. repeat split; eauto. lia.
      * right. repeat split; eauto.
    + injection Hrun as <- <-.
      eapply Completes; eauto; simpl.
      * left. repeat split; eauto. lia.
      * left. repeat split; eauto.
Qed.

End RunFacts.

(** ** Facts about [thumbnail] *)

Lemma bind_Ok {A B} (m : outcome A) (k : A -> outcome B) (b : B) :
  bind m k = Ok b -> exists a, m = Ok a /\ k a = Ok b.
Proof. destruct m as [a|e]; simpl; [eauto | discriminate]. Qed.

Lemma round_aspect_rounded (number : PyFloat.float) (key : Z -> outcome PyFloat.float)
    (n : Z) :
  round_aspect number key = Ok n -> rounded number n.
Proof.
  unfold round_aspect. intros Hr.
  apply bind_Ok in Hr as (lo & Hlo & Hr).
  apply bind_Ok in Hr as (hi & Hhi & Hr).
  apply bind_Ok in Hr as (klo & _ & Hr).
  apply bind_Ok in Hr as (khi & _ & Hr).
  injection Hr as <-. exists lo, hi. repeat split; auto.
  destruct (PyFloat.ltb khi klo); auto.
Qed.

Lemma contains_iff (box d : Z * Z) :
  (fst box >=? fst d) && (snd box >=? snd d) = true <-> contains box d.
Proof. unfold contains. rewrite andb_true_iff. lia. Qed.

(** The early return is taken exactly when the box contains the image;
    otherwise the preserved size is fitted into the box. *)
Lemma preserve_aspect_ratio_None (w h : Z) (box : Z * Z) :
  preserve_aspect_ratio w h box = Ok None <-> contains box (w, h).
Proof.
  unfold preserve_aspect_ratio. destruct box as [x y].
  rewrite <- contains_iff. simpl.
  destruct ((x >=? w) && (y >=? h)); [tauto|].
  split; [|discriminate]. intros Hp. exfalso.
  apply bind_Ok in Hp as (aspect & _ & Hp).
  apply bind_Ok in Hp as (r & _ & Hp).
  destruct (PyFloat.geb r aspect).
  - apply bind_Ok in Hp as (fy & _ & Hp). apply bind_Ok in Hp as (x' & _ & Hp). discriminate.
  - apply bind_Ok in Hp as (fx & _ & Hp). apply bind_Ok in Hp as (nb & _ & Hp).
    apply bind_Ok in Hp as (y' & _ & Hp). discriminate.
Qed.

Lemma preserve_aspect_ratio_Some (w h : Z) (box d : Z * Z) :
  preserve_aspect_ratio w h box = Ok (Some d) ->
  ~ contains box (w, h) /\ fitted w h box d.
Proof.
  unfold preserve_aspect_ratio. destruct box as [x y].
  rewrite <- contains_iff. simpl.
  destruct ((x >=? w) && (y >=? h)); [discriminate|].
  intros Hp. split; [discriminate|].
  apply bind_Ok in Hp as (aspect & Haspect & Hp).
  apply bind_Ok in Hp as (r & _ & Hp).
  exists aspect. split; [exact Haspect|].
  destruct (PyFloat.geb r aspect).
  - apply bind_Ok in Hp as (fy & Hfy & Hp). apply bind_Ok in Hp as (x' & Hx' & Hp).
    injection Hp as <-. left. simpl. split; [reflexivity|].
    exists fy. split; [exact Hfy|]. eapply round_aspect_rounded; eauto.
  - apply bind_Ok in Hp as (fx & Hfx & Hp). apply bind_Ok in Hp as (nb & Hnb & Hp).
    apply bind_Ok in Hp as (y' & Hy' & Hp).
    injection Hp as <-. right. simpl. split; [reflexivity|].
    exists fx, nb. repeat split; auto. eapply round_aspect_rounded; eauto.
Qed.

Section ThumbnailFacts.
Context {Pix : Type} `{Codec Pix}.

(** [thumbnail] either leaves the image alone, when the box contains it,
    or gives it a size fitted into the box. *)
Lemma thumbnail_cases (im im' : Image Pix) (box : Z * Z) :
  thumbnail im box = Ok im' ->
  (contains box (size im) /\ im' = im) \/
  (~ contains box (size im) /\
   fitted (fst (size im)) (snd (size im)) box (size im')).
Proof.
  unfold thumbnail. intros Ht.
  apply bind_Ok in Ht as (p & Hp & Ht).
  destruct p as [final_size|].
  - right. apply preserve_aspect_ratio_Some in Hp as [Hnc Hfit].
    rewrite <- surjective_pairing in Hnc. split; [exact Hnc|].
    destruct (decide (size im = final_size)) as [Heq|Hne].
    + injection Ht as <-. rewrite Heq at 3. exact Hfit.
    + apply bind_Ok in Ht as (px & _ & Ht). injection Ht as <-. exact Hfit.
  - left. apply preserve_aspect_ratio_None in Hp.
    rewrite <- surjective_pairing in Hp. injection Ht as <-. auto.
Qed.


End ThumbnailFacts.

(** ** The shape of every trace, whatever the outcome *)

Section TraceShape.
Context {Pix : Type} `{Codec Pix}.

Lemma trace_shape_intro (cfg : Config) (n : nat) (sz : Z * Z) (s b t : list Encode) :
  t = (mkEncode SaveInitial (max_quality cfg) sz
         :: reduce_entries sz (max_quality cfg) n) ++ s ++ b ->
  (n = O \/ min_quality cfg < max_quality cfg - 5 * (Z.of_nat n - 1)) ->
  (s = [] \/ exists sz', s = [mkEncode SaveShrink (min_quality cfg) sz']) ->
  (b = [] \/ exists q sz', b = [mkEncode SaveBoost q sz']) ->
  trace_shape cfg t.
Proof. intros -> Hn Hs Hb. right. exists n, sz, s, b. auto. Qed.

Ltac shape n sz s b :=
  match goal with
  | |- trace_shape ?cfg _ =>
      apply (trace_shape_intro cfg n sz s b);
      [ simpl; rewrite ?app_nil_r, <- ?app_assoc; reflexivity | eauto .. ]
  end.

Lemma compress_image_locals_trace (content : bytes) (cfg : Config)
    (t : list Encode) (o : outcome (Locals Pix)) :
  compress_image_locals content cfg [] = (t, o) -> trace_shape cfg t.
Proof.
  unfold compress_image_locals, bind_eng, lift, ret, save. intros Hrun.
  destruct (image_open content) as [im0|]; simpl in Hrun;
    [|injection Hrun as <- _; left; reflexivity].
  destruct (to_rgb im0) as [im1|]; [|injection Hrun as <- _; left; reflexivity].
  destruct (size im1) as [width height].
  destruct (requested_box (max_dimension cfg) width height) as [box|];
    [|injection Hrun as <- _; left; reflexivity].
  destruct (thumbnail im1 box) as [im2|]; [|injection Hrun as <- _; left; reflexivity].
  destruct (save_jpeg im2 (max_quality cfg)) as [out0|]; simpl in Hrun;
    [|injection Hrun as <- _; shape O (size im2) (@nil Encode) (@nil Encode)].
  pose proof (reduce_quality_spec im2 (min_quality cfg) (max_quality cfg) out0
                [mkEncode SaveInitial (max_quality cfg) (size im2)]) as (n & Ht1 & Hmin & _).
  destruct (reduce_quality im2 (min_quality cfg) (max_quality cfg) out0
              [mkEncode SaveInitial (max_quality cfg) (size im2)]) as [t1 [[q1 out1]|e]];
    simpl in Ht1; subst t1;
    [|injection Hrun as <- _; shape n (size im2) (@nil Encode) (@nil Encode)].
  destruct (len out1 >? 150 * 1024).
  - destruct (shrink_box box) as [new_dims|];
      [|injection Hrun as <- _; shape n (size im2) (@nil Encode) (@nil Encode)].
    destruct (thumbnail im2 new_dims) as [im3|];
      [|injection Hrun as <- _; shape n (size im2) (@nil Encode) (@nil Encode)].
    destruct (save_jpeg im3 (min_quality cfg)) as [out2|]; simpl in Hrun;
      [|injection Hrun as <- _;
        shape n (size im2) [mkEncode SaveShrink (min_quality cfg) (size im3)] (@nil Encode)].
    destruct ((len out2 <? target_size_kb cfg * 1024) && (q1 <? max_quality cfg)).
    + destruct (save_jpeg im3 (Z.min (q1 + 10) (max_quality cfg))); simpl in Hrun;
        injection Hrun as <- _;
        shape n (size im2) [mkEncode SaveShrink (min_quality cfg) (size im3)]
              [mkEncode SaveBoost (Z.min (q1 + 10) (max_quality cfg)) (size im3)].
    + injection Hrun as <- _.
      shape n (size im2) [mkEncode SaveShrink (min_quality cfg) (size im3)] (@nil Encode).
  - destruct ((len out1 <? target_size_kb cfg * 1024) && (q1 <? max_quality cfg)).
    + destruct (save_jpeg im2 (Z.min (q1 + 10) (max_quality cfg))); simpl in Hrun;
        injection Hrun as <- _;
        shape n (size im2) (@nil Encode)
              [mkEncode SaveBoost (Z.min (q1 + 10) (max_quality cfg)) (size im2)].
    + injection Hrun as <- _. shape n (size im2) (@nil Encode) (@nil Encode).
Qed.

End TraceShape.

(** ** Lower bounds on rounded floats *)

Module PyFloatFacts.
Import PyFloat.

Lemma digits2_pos_size (p : positive) : digits2_pos p = Pos.size p.
Proof. induction p; simpl; congruence. Qed.

Lemma digits_bounds (p : positive) :
  2 ^ (Zpos (digits2_pos p) - 1) <= Zpos p < 2 ^ Zpos (digits2_pos p).
Proof.
  rewrite digits2_pos_size. split.
  - pose proof (Pos.size_le p) as Hle.
    assert (Hz : 2 ^ Zpos (Pos.size p) <= 2 * Zpos p).
    { change 2 with (Zpos 2) at 1. rewrite <- Pos2Z.inj_pow. exact Hle. }
    replace (Zpos (Pos.size p)) with (1 + (Zpos (Pos.size p) - 1)) in Hz by lia.
    rewrite Z.pow_add_r in Hz by lia. change (2 ^ 1) with 2 in Hz. lia.
  - pose proof (Pos.size_gt p) as Hgt.
    change 2 with (Zpos 2). rewrite <- Pos2Z.inj_pow. exact Hgt.
Qed.

Lemma pow2_pos (n : Z) : 0 <= n -> 0 < 2 ^ n.
Proof. intros. apply Z.pow_pos_nonneg; lia. Qed.

Lemma shr_1_m (mrs : shr_record) :
  0 <= shr_m mrs -> shr_m (shr_1 mrs) = shr_m mrs / 2 /\ 0 <= shr_m (shr_1 mrs).
Proof.
  destruct mrs as [m r s]. simpl. intros Hm.
  destruct m as [|[p|p|]|p]; simpl; try lia.
  - split; [reflexivity | lia].
  - split; [|lia]. apply Z.div_unique with (r := 1); lia.
  - split; [|lia]. apply Z.div_unique with (r := 0); lia.
  - split; [reflexivity | lia].
Qed.

Lemma iter_pos_shr_1_m (p : positive) (mrs : shr_record) :
  0 <= shr_m mrs ->
  shr_m (SpecFloat.iter_pos shr_1 p mrs) = shr_m mrs / 2 ^ Zpos p /\
  0 <= shr_m (SpecFloat.iter_pos shr_1 p mrs).
Proof.
  revert mrs. induction p as [p IH|p IH|]; intros mrs Hm; simpl.
  - destruct (shr_1_m mrs Hm) as [E1 P1].
    destruct (IH _ P1) as [E2 P2]. destruct (IH _ P2) as [E3 P3].
    split; [|exact P3]. rewrite E3, E2, E1.
    assert (Hp : 2 ^ Z.pos p~1 = 2 * 2 ^ Z.pos p * 2 ^ Z.pos p).
    { replace (Z.pos p~1) with (1 + Z.pos p + Z.pos p) by lia.
      rewrite !Z.pow_add_r by lia. reflexivity. }
    rewrite Hp, !Z.div_div by (try apply pow2_pos; lia).
    apply (f_equal (Z.div (shr_m mrs))). ring.
  - destruct (IH _ Hm) as [E2 P2]. destruct (IH _ P2) as [E3 P3].
    split; [|exact P3]. rewrite E3, E2.
    assert (Hp : 2 ^ Z.pos p~0 = 2 ^ Z.pos p * 2 ^ Z.pos p).
    { replace (Z.pos p~0) with (Z.pos p + Z.pos p) by lia.
      rewrite !Z.pow_add_r by lia. reflexivity. }
    rewrite Hp, !Z.div_div by (try apply pow2_pos; lia).
    apply (f_equal (Z.div (shr_m mrs))). ring.
  - destruct (shr_1_m mrs Hm) as [E1 P1]. split; [|exact P1]. rewrite E1. reflexivity.
Qed.

Lemma shr_record_of_loc_m (m : Z) (l : location) : shr_m (shr_record_of_loc m l) = m.
Proof. destruct l as [|[]]; reflexivity. Qed.

(** The mantissa and exponent after [shr_fexp], away from the subnormal
    range: the mantissa is cut down to [prec] digits. *)
Lemma shr_fexp_m (m e : Z) (l : location) :
  0 < m -> -1000 <= Zdigits2 m + e ->
  let n := Zdigits2 m - prec in
  (n <= 0 -> shr_m (fst (shr_fexp prec emax m e l)) = m /\
             snd (shr_fexp prec emax m e l) = e) /\
  (0 < n -> shr_m (fst (shr_fexp prec emax m e l)) = m / 2 ^ n /\
            snd (shr_fexp prec emax m e l) = e + n).
Proof.
  intros Hm Hd n. unfold shr_fexp, shr, fexp, emin, prec, emax in *.
  replace (Z.max (Zdigits2 m + e - 53) (3 - 1024 - 53) - e) with n
    by (unfold n, prec; lia).
  destruct n as [|p|p] eqn:Hn; simpl; (split; [intros Hle | intros Hlt]); try lia.
  - split; [apply shr_record_of_loc_m | reflexivity].
  - split; [|reflexivity].
    destruct (iter_pos_shr_1_m p (shr_record_of_loc m l)) as [E _].
    { rewrite shr_record_of_loc_m. lia. }
    rewrite E, shr_record_of_loc_m. reflexivity.
  - split; [apply shr_record_of_loc_m | reflexivity].
Qed.











Lemma round_nearest_even_bounds (m : Z) (l : location) :
  m <= round_nearest_even m l <= m + 1.
Proof. destruct l as [|[]]; simpl; try lia. destruct (Z.even m); lia. Qed.




Lemma pos_iter_xO (p d : positive) : Zpos (Pos.iter xO p d) = Zpos p * 2 ^ Zpos d.
Proof.
  induction d as [|d IH] using Pos.peano_ind.
  - simpl. lia.
  - rewrite Pos.iter_succ, Pos2Z.inj_xO, IH, Pos2Z.inj_succ, Z.pow_succ_r by lia. lia.
Qed.




End PyFloatFacts.

(** ** The float product [d * 0.9] *)

Module ShrinkEdge.
Import PyFloat PyFloatFacts.

(** A mantissa of at most [prec] digits is left alone by [shr_fexp]. *)
Lemma shr_fexp_keep (m e : Z) (l : location) :
  0 < m -> Zdigits2 m <= prec -> -1000 <= Zdigits2 m + e ->
  shr_fexp prec emax m e l = (shr_record_of_loc m l, e).
Proof.
  intros Hm Hd He. unfold shr_fexp, shr, fexp, emin, prec, emax in *.
  destruct (Z.max (Zdigits2 m + e - 53) (3 - 1024 - 53) - e) eqn:En; try reflexivity.
  lia.
Qed.

(** A mantissa of exactly [prec] digits is a float as it stands. *)
Lemma binary_round_aux_exact (m : positive) (e : Z) :
  Zpos (digits2_pos m) = prec -> -1000 <= e <= emax - prec ->
  binary_round_aux prec emax false (Zpos m) e loc_Exact = S754_finite false m e.
Proof.
  intros Hd He. unfold binary_round_aux.
  rewrite shr_fexp_keep by (simpl; unfold prec in *; lia).
  simpl. rewrite shr_fexp_keep by (simpl; unfold prec in *; lia).
  simpl. destruct (Z.leb_spec e (emax - prec)); [reflexivity | lia].
Qed.

(** [float(d)] is exact for [1 <= d < 2^53]: a mantissa of 53 digits. *)
Lemma of_int_exact (d : Z) :
  1 <= d < 2 ^ 53 ->
  exists (mz : positive) (ez : Z),
    of_int d = Ok (S754_finite false mz ez) /\
    Zpos (digits2_pos mz) = 53 /\ -52 <= ez <= 0 /\ Zpos mz = d * 2 ^ (- ez).
Proof.
  intros Hd. unfold of_int. destruct d as [|p|p]; try lia.
  unfold binary_normalize, binary_round.
  pose proof (digits_bounds p) as [Hlo Hhi].
  assert (Hdig : 1 <= Zpos (digits2_pos p) <= 53).
  { split; [lia|].
    assert (Hlt : 2 ^ (Zpos (digits2_pos p) - 1) < 2 ^ 53) by lia.
    apply Z.pow_lt_mono_r_iff in Hlt; lia. }
  unfold shl_align, fexp, emin, prec, emax.
  set (ez := Z.max (Zpos (digits2_pos p) + 0 - 53) (3 - 1024 - 53)).
  assert (Hez : ez = Zpos (digits2_pos p) - 53) by (unfold ez; lia).
  destruct (ez - 0) as [|s|s] eqn:Es; try lia.
  - (* 53 digits already *)
    exists p, 0. fold prec emax.
    rewrite binary_round_aux_exact; try (cbv [prec emax] in *; lia).
    simpl. repeat split; try lia; cbv [prec] in *; lia.
  - (* shifted left to 53 digits *)
    assert (Hmz : Zpos (Pos.iter xO p s) = Zpos p * 2 ^ Zpos s) by apply pos_iter_xO.
    assert (Hdz : Zpos (digits2_pos (Pos.iter xO p s)) = 53).
    { pose proof (digits_bounds (Pos.iter xO p s)) as [Hlo' Hhi']. rewrite Hmz in *.
      pose proof (pow2_pos (Zpos s) ltac:(lia)) as Ps.
      assert (H1 : 2 ^ (Zpos (digits2_pos (Pos.iter xO p s)) - 1) < 2 ^ 53).
      { eapply Z.le_lt_trans; [exact Hlo'|].
        replace 53 with (Zpos (digits2_pos p) + Zpos s) by lia.
        rewrite Z.pow_add_r by lia. nia. }
      assert (H2 : 2 ^ 52 < 2 ^ Zpos (digits2_pos (Pos.iter xO p s))).
      { eapply Z.le_lt_trans; [|exact Hhi'].
        replace 52 with (Zpos (digits2_pos p) - 1 + Zpos s) by lia.
        rewrite Z.pow_add_r by lia. nia. }
      apply Z.pow_lt_mono_r_iff in H1; try lia.
      apply Z.pow_lt_mono_r_iff in H2; lia. }
    exists (Pos.iter xO p s), ez. fold prec emax.
    rewrite binary_round_aux_exact; try (cbv [prec emax] in *; lia).
    simpl. repeat split; try lia; try (cbv [prec] in *; lia).
    rewrite Hmz. f_equal. f_equal. lia.
Qed.

(** [int] of a rounded value whose mantissa is cut by [n] digits and
    whose last kept digit weighs [2^(- s)]: between the cut mantissa and
    its successor, both divided by [2^s]. *)
Lemma to_int_binary_round_aux (P E : Z) (l : location) :
  0 < P -> 0 < Zdigits2 P - 53 -> E + (Zdigits2 P - 53) < 0 -> -1000 <= E ->
  exists v,
    to_int (binary_round_aux prec emax false P E l) = Ok v /\
    P / 2 ^ (Zdigits2 P - 53) / 2 ^ (- (E + (Zdigits2 P - 53))) <= v
      <= (P / 2 ^ (Zdigits2 P - 53) + 1) / 2 ^ (- (E + (Zdigits2 P - 53))).
Proof.
  intros HP Hn Hs HE. destruct P as [|pp|pp]; try lia.
  set (n := Zdigits2 (Zpos pp) - 53) in *. set (s := - (E + n)).
  assert (Hs0 : 0 < s) by (unfold s; lia).
  pose proof (digits_bounds pp) as [Hlo Hhi].
  pose proof (pow2_pos n ltac:(lia)) as Pn. pose proof (pow2_pos s ltac:(lia)) as Ps.
  unfold binary_round_aux.
  destruct (shr_fexp_m (Zpos pp) E l ltac:(lia) ltac:(simpl in *; lia)) as [_ Hcut].
  destruct (shr_fexp prec emax (Zpos pp) E l) as [mrs' e'] eqn:E1.
  simpl in Hcut. cbv [prec] in Hcut. fold n in Hcut.
  destruct (Hcut Hn) as [Hm1 He']. subst e'.
  set (m1 := shr_m mrs') in *.
  assert (Hq : 2 ^ 52 <= m1 < 2 ^ 53).
  { rewrite Hm1. unfold n in *. simpl Zdigits2 in *. split.
    - apply Z.div_le_lower_bound; [apply pow2_pos; simpl in *; lia|].
      rewrite <- Z.pow_add_r by (simpl in *; lia).
      replace (Zpos (digits2_pos pp) - 53 + 52) with (Zpos (digits2_pos pp) - 1) by lia.
      exact Hlo.
    - apply Z.div_lt_upper_bound; [apply pow2_pos; simpl in *; lia|].
      rewrite <- Z.pow_add_r by (simpl in *; lia).
      replace (Zpos (digits2_pos pp) - 53 + 53) with (Zpos (digits2_pos pp)) by lia.
      exact Hhi. }
  assert (Hm1n : Zpos pp / 2 ^ n = m1) by (rewrite Hm1; reflexivity).
  rewrite !Hm1n.
  pose proof (round_nearest_even_bounds m1 (loc_of_shr_record mrs')) as Hr.
  set (m2 := round_nearest_even m1 (loc_of_shr_record mrs')) in *.
  assert (H52 : 0 < 2 ^ 52) by reflexivity.
  destruct m2 as [|p2|p2] eqn:Em2; try lia.
  pose proof (digits_bounds p2) as [Hlo2 Hhi2].
  assert (Hd2 : 53 <= Zpos (digits2_pos p2) <= 54).
  { split.
    - assert (Hlt : 2 ^ 52 < 2 ^ Zpos (digits2_pos p2)) by lia.
      apply Z.pow_lt_mono_r_iff in Hlt; lia.
    - assert (Hlt : 2 ^ (Zpos (digits2_pos p2) - 1) < 2 ^ 54).
      { eapply Z.le_lt_trans; [exact Hlo2|]. change (2 ^ 54) with (2 ^ 53 * 2). lia. }
      apply Z.pow_lt_mono_r_iff in Hlt; lia. }
  destruct (shr_fexp_m (Zpos p2) (E + n) loc_Exact ltac:(lia) ltac:(simpl; lia))
    as [Hkeep2 Hcut2].
  change (E + (Zpos (digits2_pos pp) - 53)) with (E + n).
  destruct (shr_fexp prec emax (Zpos p2) (E + n) loc_Exact) as [mrs'' e''] eqn:E2.
  simpl in Hkeep2, Hcut2. unfold prec in Hkeep2, Hcut2.
  destruct (Z.le_gt_cases (Zpos (digits2_pos p2) - 53) 0) as [Hk|Hk].
  - (* the rounded mantissa still has 53 digits *)
    destruct (Hkeep2 Hk) as [-> ->].
    destruct (Z.leb_spec (E + n) (emax - prec)); [|unfold emax, prec in *; lia].
    simpl to_int. destruct (Z.leb_spec 0 (E + n)); [lia|].
    eexists. split; [reflexivity|]. fold s.
    rewrite Z.quot_div_nonneg by lia.
    split; apply Z.div_le_mono; lia.
  - (* it reached 2^53 and is halved *)
    destruct (Hcut2 Hk) as [-> ->].
    assert (Hd54 : Zpos (digits2_pos p2) = 54) by lia.
    rewrite Hd54 in *. change (54 - 53) with 1 in *. change (54 - 1) with 53 in Hlo2.
    assert (Hp2 : Zpos p2 = 2 ^ 53) by lia.
    assert (Hm1' : m1 + 1 = 2 ^ 53) by lia.
    rewrite Hp2. change (2 ^ 53 / 2 ^ 1) with (2 ^ 52).
    change (2 ^ 52) with (Zpos 4503599627370496) at 1.
    destruct (Z.leb_spec (E + n + 1) (emax - prec)); [|unfold emax, prec in *; lia].
    simpl to_int. fold s. rewrite Hm1'.
    assert (Hv : 2 ^ 53 / 2 ^ s = 2 ^ 52 / 2 ^ (s - 1)).
    { change (2 ^ 53) with (2 * 2 ^ 52).
      replace (2 ^ s) with (2 * 2 ^ (s - 1)).
      - apply Z.div_mul_cancel_l; [apply Z.pow_nonzero; lia | lia].
      - rewrite <- Z.pow_succ_r by lia. f_equal. lia. }
    destruct (Z.leb_spec 0 (E + n + 1)).
    + assert (Hs1 : s = 1) by (unfold s; lia). eexists. split; [reflexivity|].
      replace (E + n + 1) with 0 by (unfold s in *; lia).
      rewrite Hv. replace (s - 1) with 0 by lia. change (2 ^ 0) with 1.
      rewrite Z.div_1_r, Z.mul_1_r. change (Zpos 4503599627370496) with (2 ^ 52).
      split; [|lia].
      apply Z.lt_le_incl, Z.div_lt_upper_bound; [lia|].
      rewrite Hs1. change (2 ^ 1) with 2. lia.
    + eexists. split; [reflexivity|].
      rewrite Z.quot_div_nonneg by (try apply Z.pow_nonneg; lia).
      replace (- (E + n + 1)) with (s - 1) by (unfold s; lia).
      change (Zpos 4503599627370496) with (2 ^ 52). rewrite <- Hv.
      split; [apply Z.div_le_mono; lia | lia].
Qed.

(** [int(d * 0.9)] is the integer part of nine tenths of [d], for every
    [d] that can be the edge of an image. *)
Lemma int_times_nine_tenths (d : Z) (f : float) :
  1 <= d < 2 ^ 31 -> of_int d = Ok f -> to_int (mul f nine_tenths) = Ok (9 * d / 10).
Proof.
  intros Hd Hf.
  destruct (of_int_exact d) as (mz & ez & Hof & Hdz & Hez & Hmz).
  { split; [lia|]. eapply Z.lt_trans; [apply Hd | reflexivity]. }
  rewrite Hf in Hof. injection Hof as ->.
  set (T := 2 ^ (- ez)) in *.
  assert (HT : 0 < T) by (apply pow2_pos; lia).
  pose proof (digits_bounds mz) as [Hlo Hhi]. rewrite Hdz in Hlo, Hhi.
  change (53 - 1) with 52 in Hlo.
  assert (Hez22 : ez <= -22).
  { assert (Hlt : 2 ^ 21 < 2 ^ (- ez)).
    { fold T. change (2 ^ 52) with (2 ^ 31 * 2 ^ 21) in Hlo. nia. }
    apply Z.pow_lt_mono_r_iff in Hlt; lia. }
  assert (HT22 : 2 ^ 22 <= T) by (apply Z.pow_le_mono_r; lia).
  unfold mul, SFmul, nine_tenths. simpl xorb.
  set (c := 8106479329266893%positive).
  set (P := Zpos (mz * c)).
  assert (HP : P = Zpos mz * Zpos c) by reflexivity.
  assert (Hc : 2 ^ 52 <= Zpos c < 2 ^ 53) by (split; [discriminate | reflexivity]).
  assert (HPb : 2 ^ 104 <= P < 2 ^ 106).
  { rewrite HP. change (2 ^ 104) with (2 ^ 52 * 2 ^ 52).
    change (2 ^ 106) with (2 ^ 53 * 2 ^ 53). nia. }
  pose proof (digits_bounds (mz * c)) as [HloP HhiP]. fold P in HloP, HhiP.
  set (dP := Zpos (digits2_pos (mz * c))) in *.
  assert (HdP : 105 <= dP <= 106).
  { split.
    - assert (Hlt : 2 ^ 104 < 2 ^ dP) by lia.
      apply Z.pow_lt_mono_r_iff in Hlt; unfold dP; lia.
    - assert (Hlt : 2 ^ (dP - 1) < 2 ^ 106) by lia.
      apply Z.pow_lt_mono_r_iff in Hlt; lia. }
  destruct (to_int_binary_round_aux P (ez + -53) loc_Exact) as (v & Hv & Hlow & Hupp).
  { unfold P. lia. }
  { unfold P. simpl Zdigits2. fold dP. lia. }
  { unfold P. simpl Zdigits2. fold dP. lia. }
  { lia. }
  rewrite Hv. f_equal.
  unfold P in Hlow, Hupp. simpl Zdigits2 in Hlow, Hupp. fold dP P in Hlow, Hupp.
  set (n := dP - 53) in *. set (s := - (ez + -53 + n)) in *.
  pose proof (pow2_pos n ltac:(lia)) as Pn. pose proof (pow2_pos s ltac:(unfold s; lia)) as Ps.
  assert (Hns : 2 ^ n * 2 ^ s = 2 ^ 53 * T).
  { unfold T. rewrite <- !Z.pow_add_r by (unfold s; lia). f_equal. unfold s. lia. }
  assert (Hn53 : 2 ^ n <= 2 ^ 53) by (apply Z.pow_le_mono_r; lia).
  assert (HPd : P = d * Zpos c * T) by (rewrite HP, Hmz; fold T; ring).
  set (K := 9 * d / 10) in *.
  assert (HK : 10 * K <= 9 * d < 10 * K + 10).
  { unfold K. pose proof (Z.mul_div_le (9 * d) 10 ltac:(lia)).
    pose proof (Z.mul_succ_div_gt (9 * d) 10 ltac:(lia)). lia. }
  assert (H10c : 10 * Zpos c = 9 * 2 ^ 53 + 2) by reflexivity.
  assert (H31 : d < 2147483648) by (change 2147483648 with (2 ^ 31); lia).
  change (2 ^ 53) with 9007199254740992 in *.
  change (2 ^ 22) with 4194304 in *.
  apply Z.le_antisymm.
  - (* not above: the successor of the cut mantissa stays below K + 1 *)
    eapply Z.le_trans; [exact Hupp|].
    apply Z.lt_succ_r, Z.div_lt_upper_bound; [lia|].
    assert (Hm1 : P / 2 ^ n < 2 ^ s * Z.succ K - 1); [|lia].
    apply Z.div_lt_upper_bound; [lia|].
    rewrite Z.mul_sub_distr_l, Z.mul_assoc, Hns, HPd. nia.
  - (* not below: the exact product already reaches K *)
    eapply Z.le_trans; [|exact Hlow].
    rewrite Z.div_div, Hns, HPd by lia.
    rewrite Z.div_mul_cancel_r by lia.
    apply Z.div_le_lower_bound; lia.
Qed.

End ShrinkEdge.

(** ** From the returned tuple to the locals *)

Section Returned.
Context {Pix : Type} `{Codec Pix}.

Lemma compress_image_Ok (content : bytes) (cfg : Config) (t0 t : list Encode)
    (r : Compressed) :
  compress_image content cfg t0 = (t, Ok r) ->
  exists l : Locals Pix,
    compress_image_locals content cfg t0 = (t, Ok l) /\
    r = mkCompressed (output l) (size (img l)) (len content) (len (output l)).
Proof.
  unfold compress_image, bind_eng, ret.
  destruct (compress_image_locals content cfg t0) as [t' [l|e]]; [|discriminate].
  intros [= <- <-]. exists l. auto.
Qed.

Lemma compress_image_trace (content : bytes) (cfg : Config) (t0 : list Encode) :
  fst (compress_image content cfg t0) = fst (compress_image_locals content cfg t0).
Proof.
  unfold compress_image, bind_eng, ret.
  destruct (compress_image_locals content cfg t0) as [t' [l|e]]; reflexivity.
Qed.

Lemma in_reduce_entries (sz : Z * Z) (q : Z) (n : nat) (e : Encode) :
  In e (reduce_entries sz q n) ->
  site e = SaveReduce /\ at_size e = sz /\
  q - 5 * Z.of_nat n <= at_quality e <= q - 5.
Proof.
  unfold reduce_entries. revert q. induction n as [|n IH]; intros q; simpl; [tauto|].
  intros [<- | Hin]; simpl.
  - repeat split; lia.
  - apply IH in Hin as (Hs & Hz & Hq). repeat split; auto; lia.
Qed.

Lemma after_loop_sites (cfg : Config) (im : Image Pix) (out0 : bytes) (t1 : list Encode)
    (q1 : Z) (out1 : bytes) (e : Encode) :
  after_loop cfg im out0 t1 q1 out1 -> In e t1 ->
  (site e = SaveInitial \/ site e = SaveReduce) /\ at_size e = size im.
Proof.
  intros (n & -> & _) [<- | Hin]; simpl; [auto|].
  apply in_reduce_entries in Hin as (Hs & Hz & _). auto.
Qed.

(** The shrink shows in the trace exactly when the loop left more than
    150 KiB. *)
Lemma shrink_ran_iff (cfg : Config) (box : Z * Z) (im2 im3 : Image Pix)
    (out0 out1 out2 out : bytes) (t1 t2 t : list Encode) (q1 q : Z) :
  after_loop cfg im2 out0 t1 q1 out1 ->
  after_shrink cfg box im2 out1 t1 im3 out2 t2 ->
  after_boost cfg im3 q1 out2 t2 q out t ->
  shrink_ran t <-> 150 * 1024 < len out1.
Proof.
  intros Hloop Hshrink Hboost. unfold shrink_ran. split.
  - intros (e & Hin & Hsite).
    destruct Hshrink as [(Hle & _ & _ & ->) | (Hlt & _)]; [|exact Hlt].
    exfalso.
    assert (Hin1 : In e t1 \/ site e = SaveBoost).
    { destruct Hboost as [(_ & _ & _ & ->) | (_ & _ & _ & ->)]; [auto|].
      apply in_app_or in Hin as [Hin | [<- | []]]; auto. }
    destruct Hin1 as [Hin1 | Hb]; [|congruence].
    destruct (after_loop_sites _ _ _ _ _ _ _ Hloop Hin1) as [[Hs | Hs] _]; congruence.
  - intros Hlt.
    destruct Hshrink as [(Hle & _) | (_ & nd & _ & _ & _ & ->)]; [lia|].
    exists (mkEncode SaveShrink (min_quality cfg) (size im3)). split; [|reflexivity].
    destruct Hboost as [(_ & _ & _ & ->) | (_ & _ & _ & ->)];
      rewrite ?in_app_iff; simpl; auto.
Qed.

End Returned.

(** ** The requested box *)

Lemma requested_box_long_edge (m w h : Z) (box : Z * Z) :
  requested_box m w h = Ok box ->
  (h <= w -> fst box = m) /\ (w < h -> snd box = m).
Proof.
  unfold requested_box. destruct (Z.geb_spec w h) as [Hge|Hlt]; intros Hb.
  - apply bind_Ok in Hb as (r & _ & Hb). apply bind_Ok in Hb as (fh & _ & Hb).
    apply bind_Ok in Hb as (nh & _ & Hb). injection Hb as <-. simpl. split; [auto | lia].
  - apply bind_Ok in Hb as (r & _ & Hb). apply bind_Ok in Hb as (fw & _ & Hb).
    apply bind_Ok in Hb as (nw & _ & Hb). injection Hb as <-. simpl. split; [lia | auto].
Qed.




(** The box of the shrink: each edge of the requested box is replaced by
    the integer part of nine tenths of it. *)
Lemma shrink_box_floor (a b : Z) :
  0 <= a < 2 ^ 31 -> 0 <= b < 2 ^ 31 ->
  shrink_box (a, b) = Ok (9 * a / 10, 9 * b / 10).
Proof.
  assert (Hedge : forall d, 0 <= d < 2 ^ 31 ->
            (let* f := PyFloat.of_int d in PyFloat.to_int (PyFloat.mul f PyFloat.nine_tenths))
            = Ok (9 * d / 10)).
  { intros d Hd. destruct (Z.eq_dec d 0) as [-> | Hnz]; [reflexivity|].
    destruct (ShrinkEdge.of_int_exact d) as (mz & ez & Hof & _).
    { split; [lia|]. eapply Z.lt_trans; [apply Hd | reflexivity]. }
    rewrite Hof.
    apply (ShrinkEdge.int_times_nine_tenths d (S754_finite false mz ez)); [lia | exact Hof]. }
  intros Ha Hb. unfold shrink_box. simpl fst. simpl snd.
  pose proof (Hedge a Ha) as Ea. pose proof (Hedge b Hb) as Eb.
  destruct (PyFloat.of_int a) as [fa|]; simpl in Ea; [|discriminate].
  simpl bind. rewrite Ea. simpl bind.
  destruct (PyFloat.of_int b) as [fb|]; simpl in Eb; [|discriminate].
  simpl bind. rewrite Eb. reflexivity.
Qed.

(** ** Final dimensions *)

Section Dimensions.
Context {Pix : Type} `{Codec Pix}.

(** C1 (amended).  For a decodable image whose longer edge exceeds
    [max_dimension], a successful call returns the dimensions that
    [thumbnail] fits into the requested box, whose edge on the longer
    axis is [max_dimension]: when the shrink does not run, one returned
    edge is the corresponding edge of the box and the other is re-derived
    from the original aspect ratio and rounded down or up (and at least
    1), so the longer edge is not always [max_dimension]; when the shrink
    runs, the result of that fit is fitted again into the box scaled by
    0.9 (or kept, if it already lies inside it). *)
Theorem fitted_into_requested_box (content : bytes) (cfg : Config) (im0 : Image Pix)
    (t : list Encode) (r : Compressed) :
  image_open content = Some im0 ->
  max_dimension cfg < Z.max (fst (size im0)) (snd (size im0)) ->
  compress_image content cfg [] = (t, Ok r) ->
  exists box,
    requested_box (max_dimension cfg) (fst (size im0)) (snd (size im0)) = Ok box /\
    (snd (size im0) <= fst (size im0) -> fst box = max_dimension cfg) /\
    (fst (size im0) < snd (size im0) -> snd box = max_dimension cfg) /\
    (~ shrink_ran t ->
       fitted (fst (size im0)) (snd (size im0)) box (new_dimensions r)) /\
    (shrink_ran t ->
       exists new_dims d3,
         shrink_box box = Ok new_dims /\
         fitted (fst (size im0)) (snd (size im0)) box d3 /\
         ((contains new_dims d3 /\ new_dimensions r = d3) \/
          (~ contains new_dims d3 /\
           fitted (fst d3) (snd d3) new_dims (new_dimensions r)))).
Proof.
  intros Hopen Hlong Hrun.
  apply compress_image_Ok in Hrun as (l & Hrun & ->). simpl.
  apply compress_image_locals_completes in Hrun
    as [i0 i1 i2 box out0 out1 out2 t1 t2 q1 Hopen' Hrgb Hbox Hthumb Hsave Hloop Hshrink Hboost].
  rewrite Hopen in Hopen'. injection Hopen' as <-.
  rewrite (to_rgb_size _ _ Hrgb) in Hbox.
  pose proof (requested_box_long_edge _ _ _ _ Hbox) as [Hw Hh].
  pose proof (shrink_ran_iff _ _ _ _ _ _ _ _ _ _ _ _ _ Hloop Hshrink Hboost) as Hran.
  assert (Hfit : fitted (fst (size im0)) (snd (size im0)) box (size i2)).
  { apply thumbnail_cases in Hthumb as [[Hc _] | [_ Hf]].
    - exfalso. rewrite (to_rgb_size _ _ Hrgb) in Hc. unfold contains in Hc. lia.
    - rewrite (to_rgb_size _ _ Hrgb) in Hf. exact Hf. }
  exists box. repeat split; auto.
  - intros Hno. destruct Hshrink as [(_ & -> & _) | (Hlt & _)]; [exact Hfit|].
    exfalso. apply Hno, Hran, Hlt.
  - intros Hyes. apply Hran in Hyes.
    destruct Hshrink as [(Hle & _) | (_ & nd & Hnd & Hth & _)]; [lia|].
    exists nd, (size i2). repeat split; auto.
    apply thumbnail_cases in Hth as [[Hc ->] | [Hn Hf]]; auto.
Qed.


(** C4 (amended).  Whenever the loop ends with more than 150 KiB, the
    fallback computes a new box by truncating 0.9 times each edge of the
    requested box of Step 2 (the integer part of nine tenths of the edge,
    for edges below 2^31), fits the current image into it with
    [thumbnail], and encodes once at [min_quality]; in the trace this save
    is preceded by the first save and the saves of the loop only, and
    followed by at most the boost save. *)
Theorem shrink_from_requested_box (content : bytes) (cfg : Config)
    (t : list Encode) (r : Compressed) :
  compress_image content cfg [] = (t, Ok r) ->
  shrink_ran t ->
  exists (im0 im1 im2 im3 : Image Pix) (box new_dims : Z * Z) (out2 : bytes)
         (t1 b : list Encode),
    image_open content = Some im0 /\
    to_rgb im0 = Ok im1 /\
    requested_box (max_dimension cfg) (fst (size im1)) (snd (size im1)) = Ok box /\
    thumbnail im1 box = Ok im2 /\
    shrink_box box = Ok new_dims /\
    thumbnail im2 new_dims = Ok im3 /\
    new_dimensions r = size im3 /\
    save_jpeg im3 (min_quality cfg) = Some out2 /\
    t = t1 ++ mkEncode SaveShrink (min_quality cfg) (size im3) :: b /\
    (forall e, In e t1 -> site e = SaveInitial \/ site e = SaveReduce) /\
    (b = [] \/ exists q, b = [mkEncode SaveBoost q (size im3)]) /\
    (0 <= fst box < 2 ^ 31 -> 0 <= snd box < 2 ^ 31 ->
     new_dims = (9 * fst box / 10, 9 * snd box / 10)).
Proof.
  intros Hrun Hyes.
  apply compress_image_Ok in Hrun as (l & Hrun & ->). simpl.
  apply compress_image_locals_completes in Hrun
    as [i0 i1 i2 box out0 out1 out2 t1 t2 q1 Hopen' Hrgb Hbox Hthumb Hsave Hloop Hshrink Hboost].
  pose proof (shrink_ran_iff _ _ _ _ _ _ _ _ _ _ _ _ _ Hloop Hshrink Hboost) as Hran.
  apply Hran in Hyes.
  destruct Hshrink as [(Hle & _) | (_ & nd & Hnd & Hth & Hsv & ->)]; [lia|].
  assert (Hfloor : 0 <= fst box < 2 ^ 31 -> 0 <= snd box < 2 ^ 31 ->
                   nd = (9 * fst box / 10, 9 * snd box / 10)).
  { intros Ha Hb. pose proof (shrink_box_floor _ _ Ha Hb) as Hf.
    rewrite <- surjective_pairing, Hnd in Hf. congruence. }
  exists i0, i1, i2, (img l), box, nd, out2, t1.
  destruct Hboost as [(_ & _ & _ & ->) | (_ & _ & _ & ->)].
  - exists []. repeat split; auto.
    intros e Hin. eapply after_loop_sites; eauto.
  - exists [mkEncode SaveBoost (quality l) (size (img l))].
    rewrite <- app_assoc. repeat split; eauto.
    intros e Hin. eapply after_loop_sites; eauto.
Qed.

End Dimensions.

(** ** Qualities *)

Section Qualities.
Context {Pix : Type} `{Codec Pix}.

Lemma descend_last (q : Z) (n : nat) :
  last (descend q (S n)) = Some (q - 5 * Z.of_nat (S n)).
Proof.
  revert q. induction n as [|n IH]; intros q.
  - simpl. f_equal; lia.
  - change (descend q (S (S n))) with ((q - 5) :: descend (q - 5) (S n)).
    rewrite last_cons, IH. f_equal; lia.
Qed.

Lemma reduce_entries_last (sz : Z * Z) (q : Z) (n : nat) :
  last (reduce_entries sz q (S n)) = Some (mkEncode SaveReduce (q - 5 * Z.of_nat (S n)) sz).
Proof.
  unfold reduce_entries.
  assert (Hmap : forall (f : Z -> Encode) (xs : list Z) (x : Z),
             last xs = Some x -> last (map f xs) = Some (f x)).
  { intros f xs. induction xs as [|a [|b xs] IH]; intros x; simpl in *.
    - discriminate.
    - intros [= ->]. reflexivity.
    - intros Hx. apply IH, Hx. }
  apply (Hmap (fun x => mkEncode SaveReduce x sz)), descend_last.
Qed.

(** C3 (amended).  On success [compress_image] returns four components:
    the encoded buffer, the size of the final image, the length of the
    input and the length of the encoded buffer.  The buffer is the one
    written by the last save of the trace, made on an image of the
    returned size; the quality of that save is not returned. *)
Theorem returned_tuple (content : bytes) (cfg : Config) (t : list Encode) (r : Compressed) :
  compress_image content cfg [] = (t, Ok r) ->
  original_size r = len content /\
  compressed_size r = len (compressed_image r) /\
  exists (l : Locals Pix) (e : Encode),
    compress_image_locals content cfg [] = (t, Ok l) /\
    compressed_image r = output l /\
    new_dimensions r = size (img l) /\
    last t = Some e /\
    at_size e = new_dimensions r /\
    save_jpeg (img l) (at_quality e) = Some (compressed_image r).
Proof.
  intros Hrun. apply compress_image_Ok in Hrun as (l & Hrun & ->). simpl.
  repeat split; auto.
  pose proof (compress_image_locals_completes _ _ _ _ Hrun)
    as [i0 i1 i2 box out0 out1 out2 t1 t2 q1 Hopen Hrgb Hbox Hthumb Hsave Hloop Hshrink Hboost].
  assert (Hlast1 : exists e1, last t1 = Some e1 /\ at_size e1 = size i2 /\
                              save_jpeg i2 (at_quality e1) = Some out1).
  { destruct Hloop as (n & -> & _ & Hq1 & _ & Hn0 & Hn1). destruct n as [|n].
    - eexists. split; [reflexivity|]. simpl. rewrite Hn0 by reflexivity. auto.
    - eexists. rewrite last_cons, reduce_entries_last. split; [reflexivity|]. simpl.
      rewrite <- Hq1. auto. }
  assert (Hlast2 : exists e2, last t2 = Some e2 /\ at_size e2 = size (img l) /\
                              save_jpeg (img l) (at_quality e2) = Some out2).
  { destruct Hshrink as [(_ & -> & -> & ->) | (_ & nd & _ & _ & Hsv & ->)]; [exact Hlast1|].
    eexists. rewrite last_snoc. split; [reflexivity|]. simpl. auto. }
  destruct Hboost as [(_ & _ & Ho & ->) | (_ & _ & Hsv & ->)].
  - destruct Hlast2 as (e2 & ? & ? & ?). exists l, e2. rewrite Ho. repeat split; auto.
  - exists l. eexists. rewrite last_snoc. repeat split; auto.
Qed.

(** When [max_quality - min_quality] is a non-negative multiple of 5, as
    with the values 90 and 75 that [upload_image] passes, every save of a
    successful call is made at a quality between [min_quality] and
    [max_quality], and so is the final value of [quality]. *)
Lemma qualities_in_range_when_aligned (content : bytes) (cfg : Config)
    (t : list Encode) (l : Locals Pix) :
  min_quality cfg <= max_quality cfg ->
  (max_quality cfg - min_quality cfg) mod 5 = 0 ->
  compress_image_locals content cfg [] = (t, Ok l) ->
  (forall e, In e t -> min_quality cfg <= at_quality e <= max_quality cfg) /\
  min_quality cfg <= quality l <= max_quality cfg.
Proof.
  intros Hle Hmod Hrun.
  apply compress_image_locals_completes in Hrun
    as [i0 i1 i2 box out0 out1 out2 t1 t2 q1 Hopen Hrgb Hbox Hthumb Hsave Hloop Hshrink Hboost].
  destruct Hloop as (n & -> & Hn & Hq1 & _).
  apply Z.mod_divide in Hmod as [k Hk]; [|lia].
  assert (Hq1r : min_quality cfg <= q1 <= max_quality cfg).
  { destruct Hn as [-> | Hn]; lia. }
  assert (Ht1 : forall e, In e (mkEncode SaveInitial (max_quality cfg) (size i2)
                                  :: reduce_entries (size i2) (max_quality cfg) n) ->
                          min_quality cfg <= at_quality e <= max_quality cfg).
  { intros e [<- | Hin]; simpl; [lia|].
    apply in_reduce_entries in Hin as (_ & _ & Hq). lia. }
  assert (Ht2 : forall e, In e t2 -> min_quality cfg <= at_quality e <= max_quality cfg).
  { destruct Hshrink as [(_ & _ & _ & ->) | (_ & nd & _ & _ & _ & ->)]; [exact Ht1|].
    intros e Hin. apply in_app_or in Hin as [Hin | [<- | []]]; [auto | simpl; lia]. }
  destruct Hboost as [(_ & -> & _ & ->) | (_ & -> & _ & ->)].
  - auto.
  - split; [|lia]. intros e Hin.
    apply in_app_or in Hin as [Hin | [<- | []]]; [auto | simpl; lia].
Qed.

(** The boost save is made exactly when the buffer is below
    [target_size_kb * 1024] bytes and [quality] is below [max_quality]; it
    raises [quality] by 10, capped at [max_quality].  When it follows the
    shrink and [max_quality - min_quality] is a multiple of 5, it is made
    at [min(min_quality + 10, max_quality)]. *)
Lemma boost_after_shrink_when_aligned (content : bytes) (cfg : Config)
    (t : list Encode) (l : Locals Pix) (e : Encode) :
  min_quality cfg <= max_quality cfg ->
  (max_quality cfg - min_quality cfg) mod 5 = 0 ->
  compress_image_locals content cfg [] = (t, Ok l) ->
  shrink_ran t -> In e t -> site e = SaveBoost ->
  at_quality e = Z.min (min_quality cfg + 10) (max_quality cfg).
Proof.
  intros Hle Hmod Hrun Hyes Hin Hsite.
  apply compress_image_locals_completes in Hrun
    as [i0 i1 i2 box out0 out1 out2 t1 t2 q1 Hopen Hrgb Hbox Hthumb Hsave Hloop Hshrink Hboost].
  pose proof (shrink_ran_iff _ _ _ _ _ _ _ _ _ _ _ _ _ Hloop Hshrink Hboost) as Hran.
  apply Hran in Hyes.
  assert (Hq1 : q1 = min_quality cfg).
  { destruct Hloop as (n & _ & Hn & Hq1 & Hexit & _).
    apply Z.mod_divide in Hmod as [k Hk]; [|lia].
    apply andb_false_iff in Hexit as [Hs | Hq]; [lia|].
    destruct Hn as [-> | Hn]; lia. }
  assert (Hnot : forall e', In e' t2 -> site e' <> SaveBoost).
  { destruct Hshrink as [(Hl & _) | (_ & nd & _ & _ & _ & ->)]; [lia|].
    intros e' Hin'. apply in_app_or in Hin' as [Hin' | [<- | []]]; [|discriminate].
    destruct (after_loop_sites _ _ _ _ _ _ _ Hloop Hin') as [[Hs | Hs] _]; congruence. }
  destruct Hboost as [(_ & _ & _ & ->) | (_ & Hq & _ & ->)].
  - exfalso. eapply Hnot; eauto.
  - apply in_app_or in Hin as [Hin | [<- | []]].
    + exfalso. eapply Hnot; eauto.
    + simpl. rewrite Hq, Hq1. reflexivity.
Qed.

End Qualities.

(** ** Determinism *)

Section Determinism.
Context {Pix : Type} `{Codec Pix}.
Variable round2 : PyFloat.float -> PyFloat.float.





End Determinism.

(** ** Number of saves *)

Section Counting.
Context {Pix : Type} `{Codec Pix}.

Lemma count_site_app (s : save_site) (t u : list Encode) :
  count_site s (t ++ u) = (count_site s t + count_site s u)%nat.
Proof. unfold count_site. rewrite filter_app, length_app. reflexivity. Qed.

Lemma count_site_reduce_entries (s : save_site) (sz : Z * Z) (q : Z) (n : nat) :
  count_site s (reduce_entries sz q n) = if decide (s = SaveReduce) then n else O.
Proof.
  unfold count_site, reduce_entries. revert q.
  induction n as [|n IH]; intros q; simpl.
  - destruct (decide (s = SaveReduce)); reflexivity.
  - specialize (IH (q - 5)). destruct (decide (s = SaveReduce)) as [->|Hne].
    + rewrite filter_cons_True by reflexivity. simpl. rewrite IH. reflexivity.
    + rewrite filter_cons_False by (simpl; congruence). exact IH.
Qed.

Lemma count_site_other (s : save_site) (e : Encode) :
  site e <> s -> count_site s [e] = O.
Proof. intros Hne. unfold count_site. rewrite filter_cons_False by exact Hne. reflexivity. Qed.

Lemma count_site_same (s : save_site) (q : Z) (sz : Z * Z) :
  count_site s [mkEncode s q sz] = 1%nat.
Proof. unfold count_site. rewrite filter_cons_True by reflexivity. reflexivity. Qed.

Lemma filter_none (s : save_site) (u : list Encode) :
  (forall e, In e u -> site e <> s) -> filter (fun e => site e = s) u = [].
Proof.
  induction u as [|a u IH]; intros Hu; [reflexivity|].
  rewrite filter_cons_False by (apply Hu; left; reflexivity).
  apply IH. intros e He. apply Hu. right. exact He.
Qed.

Lemma filter_reduce_entries (sz : Z * Z) (q : Z) (n : nat) :
  filter (fun e => site e = SaveReduce) (reduce_entries sz q n) = reduce_entries sz q n.
Proof.
  unfold reduce_entries. revert q. induction n as [|k IH]; intros q; simpl; [reflexivity|].
  rewrite filter_cons_True by reflexivity. rewrite IH. reflexivity.
Qed.

Lemma reduce_entries_qualities (sz : Z * Z) (q : Z) (n : nat) :
  map at_quality (reduce_entries sz q n) = descend q n.
Proof.
  unfold reduce_entries. rewrite map_map. simpl. apply map_id.
Qed.

Lemma turns_bound (min_q max_q : Z) (n : nat) :
  min_q <= max_q ->
  n = O \/ min_q < max_q - 5 * (Z.of_nat n - 1) ->
  (n <= Z.to_nat ((max_q - min_q + 4) / 5))%nat.
Proof.
  intros Hle [-> | Hn]; [lia|].
  apply Nat2Z.inj_le. rewrite Z2Nat.id by (apply Z.div_pos; lia).
  apply Z.div_le_lower_bound; lia.
Qed.

(** C10.  For [min_quality <= max_quality], every run of
    [compress_image] comes to an end, with a result or an exception, after
    at most [1 + ceil((max_quality - min_quality) / 5)] saves in Step 4 (the
    first save and one per turn of the loop, whose qualities go down by 5
    from [max_quality]), at most one save after the shrink and at most one
    for the boost. *)
Theorem encode_count_bound (content : bytes) (cfg : Config) :
  min_quality cfg <= max_quality cfg ->
  exists (t : list Encode) (o : outcome Compressed) (n : nat),
    compress_image content cfg [] = (t, o) /\
    (n <= Z.to_nat ((max_quality cfg - min_quality cfg + 4) / 5))%nat /\
    (count_site SaveInitial t <= 1)%nat /\
    count_site SaveReduce t = n /\
    map at_quality (filter (fun e => site e = SaveReduce) t) = descend (max_quality cfg) n /\
    (count_site SaveShrink t <= 1)%nat /\
    (count_site SaveBoost t <= 1)%nat.
Proof.
  intros Hle.
  destruct (compress_image content cfg []) as [t o] eqn:Hrun.
  pose proof (compress_image_trace content cfg []) as Ht. rewrite Hrun in Ht. simpl in Ht.
  destruct (compress_image_locals content cfg []) as [t' o'] eqn:Hloc. simpl in Ht. subst t'.
  apply compress_image_locals_trace in Hloc as [-> | (n & sz & s & b & -> & Hn & Hs & Hb)].
  - exists [], o, O. unfold count_site. repeat split; simpl; auto; lia.
  - exists (mkEncode SaveInitial (max_quality cfg) sz
              :: reduce_entries sz (max_quality cfg) n ++ s ++ b), o, n.
    split; [reflexivity|]. split; [eapply turns_bound; eauto|].
    change (mkEncode SaveInitial (max_quality cfg) sz
              :: reduce_entries sz (max_quality cfg) n ++ s ++ b)
      with ([mkEncode SaveInitial (max_quality cfg) sz]
              ++ reduce_entries sz (max_quality cfg) n ++ s ++ b).
    assert (Hs' : forall x, x <> SaveShrink -> count_site x s = O).
    { intros x Hx. destruct Hs as [-> | (sz' & ->)]; [reflexivity|].
      apply count_site_other. simpl. congruence. }
    assert (Hb' : forall x, x <> SaveBoost -> count_site x b = O).
    { intros x Hx. destruct Hb as [-> | (q' & sz' & ->)]; [reflexivity|].
      apply count_site_other. simpl. congruence. }
    assert (Hs1 : (count_site SaveShrink s <= 1)%nat).
    { destruct Hs as [-> | (sz' & ->)]; [unfold count_site; simpl; lia|].
      rewrite count_site_same. lia. }
    assert (Hb1 : (count_site SaveBoost b <= 1)%nat).
    { destruct Hb as [-> | (q' & sz' & ->)]; [unfold count_site; simpl; lia|].
      rewrite count_site_same. lia. }
    repeat split.
    + rewrite !count_site_app, count_site_reduce_entries, Hs', Hb' by discriminate.
      rewrite count_site_same. simpl. lia.
    + rewrite !count_site_app, count_site_reduce_entries, Hs', Hb' by discriminate.
      rewrite count_site_other by discriminate. simpl. lia.
    + rewrite !filter_app, filter_reduce_entries.
      rewrite (filter_none SaveReduce [_]), (filter_none SaveReduce s),
        (filter_none SaveReduce b), app_nil_r.
      * apply reduce_entries_qualities.
      * destruct Hb as [-> | (q' & sz' & ->)]; intros e Hin; simpl in Hin;
          [tauto | destruct Hin as [<- | []]; discriminate].
      * destruct Hs as [-> | (sz' & ->)]; intros e Hin; simpl in Hin;
          [tauto | destruct Hin as [<- | []]; discriminate].
      * intros e [<- | []]; discriminate.
    + rewrite !count_site_app, count_site_reduce_entries, Hb' by discriminate.
      rewrite count_site_other by discriminate. simpl. lia.
    + rewrite !count_site_app, count_site_reduce_entries, Hs' by discriminate.
      rewrite count_site_other by discriminate. simpl. lia.
Qed.

End Counting.

(** ** The upload handler *)

Section Boundary.
Context {Pix : Type} `{Codec Pix}.
Variable round2 : PyFloat.float -> PyFloat.float.

(** Bytes that [Image.open] rejects make the engine raise at once. *)
Lemma undecodable_raises (content : bytes) (cfg : Config) :
  image_open content = None ->
  compress_image content cfg [] = ([], Raise DecodeError).
Proof.
  intros Hopen. unfold compress_image, compress_image_locals, bind_eng, lift.
  rewrite Hopen. reflexivity.
Qed.

(** C8.  When the engine does not return, because the bytes cannot be
    decoded, a save fails, or any other exception is raised, the request
    fails and the store is left as it was: no file is written and no
    document is inserted. *)
Theorem upload_atomic_on_engine_failure (file : Upload) (uuid4 utcnow : string)
    (st : Store) (t : list Encode) (e : exn) :
  compress_image (content file) (boundary_config file) [] = (t, Raise e) ->
  exists resp,
    snd (upload_image round2 file uuid4 utcnow st) = (resp, st) /\
    (forall b, resp <> Success b).
Proof.
  unfold upload_image, boundary_config. intros Hrun.
  destruct (negb (supported_format (filename file))).
  { eexists. split; [reflexivity | discriminate]. }
  destruct ((form_max_dimension file <=? 0) || (form_target_size_kb file <=? 0)).
  { eexists. split; [reflexivity | discriminate]. }
  rewrite Hrun. eexists. split; [reflexivity | discriminate].
Qed.

(** C9 (amended).  A form with a non-positive [max_dimension] or
    [target_size_kb] is answered with status 400 before the engine is
    called: nothing is saved and the store is unchanged.  Whenever the
    handler answers with success, the engine has run on a configuration
    with positive [max_dimension] and [target_size_kb] and the fixed
    qualities 75 and 90.  [compress_image] itself checks nothing. *)
Theorem boundary_rejects_invalid_form (file : Upload) (uuid4 utcnow : string) (st : Store) :
  (form_max_dimension file <= 0 \/ form_target_size_kb file <= 0 ->
   exists detail,
     upload_image round2 file uuid4 utcnow st = ([], (HTTPException 400 detail, st))) /\
  (forall t b st',
     upload_image round2 file uuid4 utcnow st = (t, (Success b, st')) ->
     0 < form_max_dimension file /\ 0 < form_target_size_kb file /\
     min_quality (boundary_config file) = 75 /\ max_quality (boundary_config file) = 90 /\
     exists r, compress_image (content file) (boundary_config file) [] = (t, Ok r)).
Proof.
  unfold upload_image, boundary_config. split.
  - intros Hbad.
    destruct (negb (supported_format (filename file))); [eauto|].
    destruct (Z.leb_spec (form_max_dimension file) 0);
      destruct (Z.leb_spec (form_target_size_kb file) 0); simpl; eauto; lia.
  - intros t b st'.
    destruct (negb (supported_format (filename file))); [discriminate|].
    destruct (Z.leb_spec (form_max_dimension file) 0);
      destruct (Z.leb_spec (form_target_size_kb file) 0); simpl; try discriminate.
    destruct (compress_image (content file) _ []) as [t' [r|e]]; [|discriminate].
    destruct (size_kb round2 (original_size r)); [|discriminate].
    destruct (size_kb round2 (compressed_size r)); [|discriminate].
    intros [= <- _ _]. repeat split; eauto.
Qed.

End Boundary.

(** ** Concrete runs *)

Lemma observe_Ok (x : list Encode * outcome Compressed) (t : list Encode)
    (d : Z * Z) (a b : Z) :
  observe x = (t, Ok (d, a, b)) ->
  exists r, x = (t, Ok r) /\ new_dimensions r = d /\ original_size r = a /\
            compressed_size r = b.
Proof.
  destruct x as [t' [r|e]]; unfold observe; simpl; [|discriminate].
  intros [= -> <- <- <-]. exists r. auto.
Qed.

Lemma shrink_ran_last (t : list Encode) (q : Z) (sz : Z * Z) :
  shrink_ran (t ++ [mkEncode SaveShrink q sz]).
Proof.
  exists (mkEncode SaveShrink q sz). split; [|reflexivity].
  apply in_or_app. right. left. reflexivity.
Qed.

Section Examples.

(** With the default configuration a 3000 by 2000 picture is encoded
    once, at 499 by 333. *)
Lemma run_3000x2000 :
  observe (compress_image (Toy.picture 3000 2000) Toy.default_config [])
    = ([mkEncode SaveInitial 90 (499, 333)], Ok (499, 333, 4, 3738)).
Proof. vm_compute. reflexivity. Qed.

(** For [max_dimension = 5000] a 20000 by 10000 picture stays above
    150 KiB down to quality 75; the shrink runs and it comes back as 4500
    by 2250. *)
Lemma run_20000x10000 :
  observe (compress_image (Toy.picture 20000 10000) (mkConfig 5000 100 75 90) [])
    = ([mkEncode SaveInitial 90 (5000, 2500); mkEncode SaveReduce 85 (5000, 2500);
        mkEncode SaveReduce 80 (5000, 2500); mkEncode SaveReduce 75 (5000, 2500)]
         ++ [mkEncode SaveShrink 75 (4500, 2250)],
       Ok (4500, 2250, 4, 189843)).
Proof. vm_compute. reflexivity. Qed.

(** C1, counterexample.  For [max_dimension = 5000] a 20000 by 10000
    picture is first brought to 5000 by 2500; it stays above 150 KiB, the
    shrink runs, and the call returns 4500 by 2250: the longer edge is not
    [max_dimension]. *)
Lemma longer_edge_counterexample :
  exists (im0 : Image unit) t r,
    image_open (Toy.picture 20000 10000) = Some im0 /\
    max_dimension (mkConfig 5000 100 75 90) < Z.max (fst (size im0)) (snd (size im0)) /\
    compress_image (Toy.picture 20000 10000) (mkConfig 5000 100 75 90) [] = (t, Ok r) /\
    shrink_ran t /\
    Z.max (fst (new_dimensions r)) (snd (new_dimensions r))
      <> max_dimension (mkConfig 5000 100 75 90).
Proof.
  destruct (observe_Ok _ _ _ _ _ run_20000x10000) as (r & Hrun & Hd & _).
  eexists (mkImage "RGB" (20000, 10000) tt), _, r.
  split; [reflexivity|]. split; [reflexivity|]. split; [exact Hrun|].
  split; [apply shrink_ran_last|]. rewrite Hd. discriminate.
Qed.

(** Without the shrink the longer edge is not always [max_dimension]
    either: with the default configuration a 3000 by 2000 picture comes
    back as 499 by 333 after a single save, since [thumbnail] keeps the
    truncated short edge 333 and re-derives the long one from it. *)
Lemma longer_edge_rounding :
  exists (im0 : Image unit) t r,
    image_open (Toy.picture 3000 2000) = Some im0 /\
    max_dimension Toy.default_config < Z.max (fst (size im0)) (snd (size im0)) /\
    compress_image (Toy.picture 3000 2000) Toy.default_config [] = (t, Ok r) /\
    ~ shrink_ran t /\
    new_dimensions r = (499, 333).
Proof.
  destruct (observe_Ok _ _ _ _ _ run_3000x2000) as (r & Hrun & Hd & _).
  eexists (mkImage "RGB" (3000, 2000) tt), _, r.
  split; [reflexivity|]. split; [reflexivity|]. split; [exact Hrun|]. split.
  - intros (e & [<- | []] & Hs). discriminate.
  - exact Hd.
Qed.

Lemma fitted_into_requested_box_witness :
  exists box, requested_box 500 3000 2000 = Ok box /\ fitted 3000 2000 box (499, 333).
Proof.
  destruct (observe_Ok _ _ _ _ _ run_3000x2000) as (r & Hrun & Hd & _).
  assert (Hopen : image_open (Toy.picture 3000 2000) = Some (mkImage "RGB" (3000, 2000) tt))
    by reflexivity.
  assert (Hlong : max_dimension Toy.default_config < Z.max 3000 2000) by reflexivity.
  destruct (fitted_into_requested_box _ _ _ _ _ Hopen Hlong Hrun)
    as (box & Hbox & _ & _ & Hfit & _).
  exists box. split; [exact Hbox|]. rewrite <- Hd. apply Hfit.
  intros (e & [<- | []] & Hs). discriminate.
Defined.





(** For [max_dimension = 5000] a 4000 by 3000 picture stays above
    150 KiB; the shrink runs and leaves it at 4000 by 3000. *)
Lemma run_4000x3000 :
  observe (compress_image (Toy.picture 4000 3000) (mkConfig 5000 100 75 90) [])
    = ([mkEncode SaveInitial 90 (4000, 3000); mkEncode SaveReduce 85 (4000, 3000);
        mkEncode SaveReduce 80 (4000, 3000); mkEncode SaveReduce 75 (4000, 3000)]
         ++ [mkEncode SaveShrink 75 (4000, 3000)],
       Ok (4000, 3000, 4, 225000)).
Proof. vm_compute. reflexivity. Qed.

(** C4, counterexample.  For [max_dimension = 5000] a 4000 by 3000
    picture is left alone by the first thumbnail; the shrink runs, on the
    box 4500 by 3375 derived from the requested box 5000 by 3750, which
    still contains the picture: the returned dimensions are 4000 by 3000,
    not 0.9 times the current ones rounded, 3600 by 2700.  And the box
    edge 333 is shrunk to 299, not to the nearest integer 300. *)
Lemma shrink_counterexample :
  (exists (im2 : Image unit) t r,
     requested_box 5000 4000 3000 = Ok (5000, 3750) /\
     thumbnail (mkImage "RGB" (4000, 3000) tt) (5000, 3750) = Ok im2 /\
     compress_image (Toy.picture 4000 3000) (mkConfig 5000 100 75 90) [] = (t, Ok r) /\
     shrink_ran t /\
     new_dimensions r <> (nearest_nine_tenths (fst (size im2)),
                          nearest_nine_tenths (snd (size im2)))) /\
  shrink_box (500, 333) = Ok (450, 299) /\ nearest_nine_tenths 333 = 300.
Proof.
  split; [|split; reflexivity].
  destruct (observe_Ok _ _ _ _ _ run_4000x3000) as (r & Hrun & Hd & _).
  eexists (mkImage "RGB" (4000, 3000) tt), _, r.
  split; [reflexivity|]. split; [reflexivity|]. split; [exact Hrun|].
  split; [apply shrink_ran_last|]. rewrite Hd. discriminate.
Qed.

Lemma shrink_from_requested_box_witness :
  exists (box new_dims : Z * Z) (im2 im3 : Image unit),
    requested_box 5000 20000 10000 = Ok box /\
    shrink_box box = Ok new_dims /\
    thumbnail im2 new_dims = Ok im3 /\
    size im3 = (4500, 2250).
Proof.
  destruct (observe_Ok _ _ _ _ _ run_20000x10000) as (r & Hrun & Hd & _).
  destruct (shrink_from_requested_box (Toy.picture 20000 10000) (mkConfig 5000 100 75 90)
              _ r Hrun (shrink_ran_last _ _ _))
    as (im0 & im1 & im2 & im3 & box & nd & out2 & t1 & b & Hopen & Hrgb & Hbox & Hth
        & Hnd & Hth2 & Hdim & _).
  injection Hopen as <-. injection Hrgb as <-.
  exists box, nd, im2, im3. repeat split; auto. congruence.
Defined.

(** C2.  Called with [min_quality = 78] and [max_quality = 90] on a
    picture that stays above 150 KiB, the loop saves at 85, 80 and then
    75, below [min_quality]; [quality] is still 75 at the [return]. *)
Theorem loop_goes_below_min_quality :
  min_quality (mkConfig 5000 100 78 90) <= max_quality (mkConfig 5000 100 78 90) /\
  observe_locals (compress_image_locals (Toy.picture 20000 10000) (mkConfig 5000 100 78 90) [])
    = ([mkEncode SaveInitial 90 (5000, 2500); mkEncode SaveReduce 85 (5000, 2500);
        mkEncode SaveReduce 80 (5000, 2500); mkEncode SaveReduce 75 (5000, 2500);
        mkEncode SaveShrink 78 (4500, 2250)],
       Ok (4500, 2250, 197437, 75)) /\
  75 < min_quality (mkConfig 5000 100 78 90).
Proof. repeat split; vm_compute; congruence. Qed.

(** C6.  With [min_quality = 78], [max_quality = 90] and
    [target_size_kb = 200], the shrink leaves 197437 bytes, fewer than
    200 KiB, and the boost follows it: it starts from the value 75 left
    by the loop and saves at 85, not at [min(78 + 10, 90) = 88]. *)
Theorem boost_after_shrink_from_loop_quality :
  observe_locals (compress_image_locals (Toy.picture 20000 10000) (mkConfig 5000 200 78 90) [])
    = ([mkEncode SaveInitial 90 (5000, 2500); mkEncode SaveReduce 85 (5000, 2500);
        mkEncode SaveReduce 80 (5000, 2500); mkEncode SaveReduce 75 (5000, 2500);
        mkEncode SaveShrink 78 (4500, 2250); mkEncode SaveBoost 85 (4500, 2250)],
       Ok (4500, 2250, 215156, 85)) /\
  Z.min (min_quality (mkConfig 5000 200 78 90) + 10) (max_quality (mkConfig 5000 200 78 90))
    = 88.
Proof. repeat split; vm_compute; congruence. Qed.

(** At quality 100 and at quality 120 the codec writes the same bytes
    for a 2000 by 1000 picture. *)
Lemma run_quality_100 :
  compress_image (Toy.picture 2000 1000) (mkConfig 500 100 75 100) []
    = ([mkEncode SaveInitial 100 (500, 250)],
       Ok (mkCompressed (repeat x00 3125) (500, 250) 4 3125)).
Proof. vm_compute. reflexivity. Qed.

Lemma run_quality_120 :
  compress_image (Toy.picture 2000 1000) (mkConfig 500 100 75 120) []
    = ([mkEncode SaveInitial 120 (500, 250)],
       Ok (mkCompressed (repeat x00 3125) (500, 250) 4 3125)).
Proof. vm_compute. reflexivity. Qed.

(** C3, counterexample.  The quality of the final save is no function of
    the returned value: two calls return the same tuple after a final save
    at 100 for one and at 120 for the other. *)
Lemma quality_not_returned :
  ~ exists quality_used : Compressed -> Z,
      forall (content : bytes) (cfg : Config) (t : list Encode) (r : Compressed)
             (e : Encode),
        compress_image (H := Toy.toy_codec) content cfg [] = (t, Ok r) ->
        last t = Some e ->
        quality_used r = at_quality e.
Proof.
  intros (f & Hf).
  pose proof (Hf _ _ _ _ _ run_quality_100 eq_refl) as H100.
  pose proof (Hf _ _ _ _ _ run_quality_120 eq_refl) as H120.
  simpl in H100, H120. congruence.
Qed.

Lemma returned_tuple_witness :
  exists t r,
    compress_image (Toy.picture 2000 1000) (mkConfig 500 100 75 100) [] = (t, Ok r) /\
    original_size r = len (Toy.picture 2000 1000) /\
    compressed_size r = len (compressed_image r).
Proof.
  eexists _, _. split; [exact run_quality_100|].
  destruct (returned_tuple _ _ _ _ run_quality_100) as (Ho & Hc & _).
  split; [exact Ho | exact Hc].
Defined.

Lemma upload_atomic_on_engine_failure_witness :
  exists resp,
    snd (upload_image Toy.toy_round2 (mkUpload "noise.png" [x2a; x2a] 500 100)
           "id" "now" (mkStore ∅ []))
      = (resp, mkStore ∅ []) /\
    (forall b, resp <> Success b).
Proof.
  apply (upload_atomic_on_engine_failure Toy.toy_round2
           (mkUpload "noise.png" [x2a; x2a] 500 100) "id" "now" (mkStore ∅ [])
           [] DecodeError).
  apply undecodable_raises. reflexivity.
Defined.

(** C9, counterexample.  [compress_image] runs on a configuration with
    [max_quality < min_quality], and on one with [target_size_kb = 0]:
    it saves and returns. *)
Lemma engine_accepts_invalid_config :
  max_quality (mkConfig 500 100 90 75) < min_quality (mkConfig 500 100 90 75) /\
  observe (compress_image (Toy.picture 2000 1000) (mkConfig 500 100 90 75) [])
    = ([mkEncode SaveInitial 75 (500, 250)], Ok (500, 250, 4, 2343)) /\
  target_size_kb (mkConfig 500 0 75 90) <= 0 /\
  observe (compress_image (Toy.picture 2000 1000) (mkConfig 500 0 75 90) [])
    = ([mkEncode SaveInitial 90 (500, 250)], Ok (500, 250, 4, 2812)).
Proof. repeat split; vm_compute; congruence. Qed.

Lemma boundary_rejects_invalid_form_witness :
  exists detail,
    upload_image Toy.toy_round2 (mkUpload "a.PNG" (Toy.picture 2000 1000) 0 100)
      "id" "now" (mkStore ∅ [])
    = ([], (HTTPException 400 detail, mkStore ∅ [])).
Proof.
  apply (proj1 (boundary_rejects_invalid_form Toy.toy_round2
                  (mkUpload "a.PNG" (Toy.picture 2000 1000) 0 100) "id" "now"
                  (mkStore ∅ []))).
  left. simpl. lia.
Defined.

Lemma encode_count_bound_witness :
  exists (t : list Encode) (o : outcome Compressed) (n : nat),
    compress_image (Toy.picture 20000 10000) (mkConfig 5000 100 75 90) [] = (t, o) /\
    (n <= 3)%nat /\ (count_site SaveInitial t <= 1)%nat /\ count_site SaveReduce t = n.
Proof.
  destruct (encode_count_bound (H := Toy.toy_codec) (Toy.picture 20000 10000)
              (mkConfig 5000 100 75 90)) as (t & o & n & Hrun & Hn & Hi & Hr & _).
  - discriminate.
  - exists t, o, n. repeat split; auto.
Defined.

End Examples.

(** ** The download endpoint and the store *)

Lemma append_inj_r (s1 s2 t : string) : (s1 ++ t = s2 ++ t)%string -> s1 = s2.
Proof.
  assert (Hlen : forall a b : string,
            String.length (a ++ b)%string = (String.length a + String.length b)%nat).
  { intros a b. induction a as [|c a IH]; simpl; [reflexivity | rewrite IH; reflexivity]. }
  revert s2. induction s1 as [|c s1 IH]; intros [|c2 s2] Heq.
  - reflexivity.
  - exfalso. apply (f_equal String.length) in Heq. rewrite !Hlen in Heq. simpl in Heq. lia.
  - exfalso. apply (f_equal String.length) in Heq. rewrite !Hlen in Heq. simpl in Heq. lia.
  - injection Heq as -> Heq. f_equal. apply IH, Heq.
Qed.

Lemma temp_path_inj (a b : string) : temp_path a = temp_path b -> a = b.
Proof.
  unfold temp_path. intros Heq. apply (append_inj_r a b ".jpg").
  vm_compute in Heq. injection Heq as Heq. exact Heq.
Qed.

Lemma find_one_app (image_id : string) (c : list ImageInfo) (d : ImageInfo) :
  find_one image_id (c ++ [d]) =
  match find_one image_id c with
  | Some x => Some x
  | None => if String.eqb (info_image_id d) image_id then Some d else None
  end.
Proof.
  unfold find_one. induction c as [|a c IH]; simpl.
  - reflexivity.
  - destruct (String.eqb (info_image_id a) image_id); [reflexivity | exact IH].
Qed.

Lemma find_one_None (image_id : string) (c : list ImageInfo) :
  find_one image_id c = None <-> forall d, In d c -> info_image_id d <> image_id.
Proof.
  unfold find_one. split.
  - intros Hf d Hin. apply String.eqb_neq. exact (find_none _ _ Hf d Hin).
  - intros Hall. destruct (find _ c) as [d|] eqn:Hf; [|reflexivity].
    apply find_some in Hf as [Hin Heq]. apply String.eqb_eq in Heq.
    exfalso. exact (Hall d Hin Heq).
Qed.

Section ServiceFacts.
Context {Pix : Type} `{Codec Pix}.
Variable round2 : PyFloat.float -> PyFloat.float.

(** What one call of [upload_image] does to the store. *)
Lemma upload_image_store (file : Upload) (uuid4 utcnow : string) (st : Store)
    (t : list Encode) (resp : Response) (st' : Store) :
  upload_image round2 file uuid4 utcnow st = (t, (resp, st')) ->
  (st' = st /\ forall b, resp <> Success b) \/
  exists r,
    compress_image (content file) (boundary_config file) [] = (t, Ok r) /\
    files st' = <[temp_path uuid4 := compressed_image r]> (files st) /\
    ((collection st' = collection st /\ forall b, resp <> Success b) \/
     exists d b,
       resp = Success b /\
       collection st' = collection st ++ [d] /\
       info_image_id d = uuid4 /\
       info_temp_file_path d = temp_path uuid4 /\
       info_new_dimensions d = dimensions_label (new_dimensions r) /\
       info_filename d = filename file /\
       body_image_id b = uuid4 /\
       body_filename b = filename file /\
       body_new_dimensions b = info_new_dimensions d).
Proof.
  unfold upload_image.
  destruct (negb (supported_format (filename file))).
  { intros [= <- <- <-]. left. split; [reflexivity | discriminate]. }
  destruct ((form_max_dimension file <=? 0) || (form_target_size_kb file <=? 0)).
  { intros [= <- <- <-]. left. split; [reflexivity | discriminate]. }
  destruct (compress_image (content file) (boundary_config file) []) as [t1 [r|e]].
  2:{ intros [= <- <- <-]. left. split; [reflexivity | discriminate]. }
  destruct (size_kb round2 (original_size r)) as [okb|e1].
  2:{ intros [= <- <- <-]. right. exists r. split; [reflexivity|]. split; [reflexivity|].
      left. split; [reflexivity | discriminate]. }
  destruct (size_kb round2 (compressed_size r)) as [ckb|e2].
  2:{ intros [= <- <- <-]. right. exists r. split; [reflexivity|]. split; [reflexivity|].
      left. split; [reflexivity | discriminate]. }
  intros [= <- <- <-]. right. exists r. split; [reflexivity|]. split; [reflexivity|].
  right. eexists _, _. repeat split.
Qed.

(** Files under other paths and documents already there are left alone;
    no file disappears. *)
Lemma upload_image_frame (file : Upload) (uuid4 utcnow : string) (st st' : Store) :
  st' = snd (snd (upload_image round2 file uuid4 utcnow st)) ->
  (forall p, p <> temp_path uuid4 -> files st' !! p = files st !! p) /\
  (forall p, is_Some (files st !! p) -> is_Some (files st' !! p)) /\
  (collection st' = collection st \/
   exists d, collection st' = collection st ++ [d] /\ info_image_id d = uuid4 /\
             info_temp_file_path d = temp_path uuid4 /\
             is_Some (files st' !! temp_path uuid4)).
Proof.
  intros ->.
  destruct (upload_image round2 file uuid4 utcnow st) as [t [resp st']] eqn:Hup. simpl.
  apply upload_image_store in Hup as [[-> _] | (r & _ & Hfiles & Hcol)].
  - split; [reflexivity|]. split; [auto | left; reflexivity].
  - assert (Hnew : is_Some (files st' !! temp_path uuid4)).
    { rewrite Hfiles, lookup_insert_eq. eauto. }
    split; [|split].
    + intros p Hp. rewrite Hfiles. apply lookup_insert_ne. congruence.
    + intros p Hp. destruct (decide (p = temp_path uuid4)) as [-> | Hne]; [exact Hnew|].
      rewrite Hfiles, lookup_insert_ne by congruence. exact Hp.
    + destruct Hcol as [[Hc _] | (d & b & _ & Hc & Hid & Hpath & _)]; [left; exact Hc|].
      right. exists d. auto.
Qed.

Lemma upload_image_paths_by_id (file : Upload) (uuid4 utcnow : string) (st : Store) :
  paths_by_id st -> paths_by_id (snd (snd (upload_image round2 file uuid4 utcnow st))).
Proof.
  intros Hinv.
  destruct (upload_image_frame file uuid4 utcnow st _ eq_refl) as (_ & _ & Hcol).
  unfold paths_by_id.
  destruct Hcol as [-> | (d & -> & Hid & Hpath & _)]; [exact Hinv|].
  intros d' Hin. apply in_app_or in Hin as [Hin | [<- | []]]; [auto|].
  rewrite Hpath, Hid. reflexivity.
Qed.

Lemma upload_image_files_present (file : Upload) (uuid4 utcnow : string) (st : Store) :
  files_present st -> files_present (snd (snd (upload_image round2 file uuid4 utcnow st))).
Proof.
  intros Hinv.
  destruct (upload_image_frame file uuid4 utcnow st _ eq_refl) as (_ & Hkeep & Hcol).
  unfold files_present.
  destruct Hcol as [-> | (d & -> & Hid & Hpath & Hnew)]; [auto|].
  intros d' Hin. apply in_app_or in Hin as [Hin | [<- | []]]; [auto|].
  rewrite Hpath. exact Hnew.
Qed.

(** A download of another id is not changed by an upload. *)
Lemma upload_image_keeps_download (file : Upload) (uuid4 utcnow image_id : string)
    (st : Store) :
  paths_by_id st -> uuid4 <> image_id ->
  get_compressed_image image_id (snd (snd (upload_image round2 file uuid4 utcnow st)))
  = get_compressed_image image_id st.
Proof.
  intros Hinv Hne.
  destruct (upload_image_frame file uuid4 utcnow st _ eq_refl) as (Hfiles & _ & Hcol).
  unfold get_compressed_image.
  assert (Hfind : find_one image_id
                    (collection (snd (snd (upload_image round2 file uuid4 utcnow st))))
                  = find_one image_id (collection st)).
  { destruct Hcol as [-> | (d & -> & Hid & _)]; [reflexivity|].
    rewrite find_one_app, Hid.
    apply String.eqb_neq in Hne. rewrite Hne.
    destruct (find_one image_id (collection st)); reflexivity. }
  rewrite Hfind.
  destruct (find_one image_id (collection st)) as [d|] eqn:Hd; [|reflexivity].
  apply find_some in Hd as [Hin Hid]. apply String.eqb_eq in Hid.
  rewrite Hfiles; [reflexivity|].
  rewrite (Hinv d Hin), Hid. intros Heq. apply temp_path_inj in Heq. congruence.
Qed.

Lemma uploads_paths_by_id (reqs : list Request) (st : Store) :
  paths_by_id st -> paths_by_id (uploads round2 reqs st).
Proof.
  revert st. induction reqs as [|r reqs IH]; intros st Hinv; simpl; [exact Hinv|].
  apply IH, upload_image_paths_by_id, Hinv.
Qed.

Lemma uploads_files_present (reqs : list Request) (st : Store) :
  files_present st -> files_present (uploads round2 reqs st).
Proof.
  revert st. induction reqs as [|r reqs IH]; intros st Hinv; simpl; [exact Hinv|].
  apply IH, upload_image_files_present, Hinv.
Qed.

(** X1.  404 [Image not found] is the answer exactly when no document of
    the collection has the requested id. *)
Theorem get_unknown_image_id (image_id : string) (st : Store) :
  get_compressed_image image_id st = Raised 404 "Image not found" <->
  (forall d, In d (collection st) -> info_image_id d <> image_id).
Proof.
  rewrite <- find_one_None. unfold get_compressed_image.
  destruct (find_one image_id (collection st)) as [d|]; [|tauto].
  split; [|discriminate].
  destruct (files st !! info_temp_file_path d); discriminate.
Qed.

(** X2.  Whatever is streamed is the content of the file that a document
    with the requested id points to, served as [image/jpeg] under a file
    name made of that document's dimensions. *)
Theorem get_streams_stored_file (image_id : string) (st : Store)
    (b : bytes) (mt cd : string) :
  get_compressed_image image_id st = StreamingResponse b mt cd ->
  mt = "image/jpeg" /\
  exists d, In d (collection st) /\ info_image_id d = image_id /\
            files st !! info_temp_file_path d = Some b /\
            cd = ("attachment; filename=compressed_image_"
                  ++ info_new_dimensions d ++ ".jpg")%string.
Proof.
  unfold get_compressed_image.
  destruct (find_one image_id (collection st)) as [d|] eqn:Hd; [|discriminate].
  apply find_some in Hd as [Hin Hid]. apply String.eqb_eq in Hid.
  destruct (files st !! info_temp_file_path d) as [b'|] eqn:Hf; [|discriminate].
  intros [= <- <- <-]. split; [reflexivity|]. exists d. auto.
Qed.

(** X3.  A successful upload under an id that no document has yet can be
    downloaded at once: the download streams the very bytes that the
    engine returned, under a file name made of the dimensions given in
    the answer of the upload. *)
Theorem upload_then_get (file : Upload) (uuid4 utcnow : string) (st st' : Store)
    (t : list Encode) (b : Body) :
  (forall d, In d (collection st) -> info_image_id d <> uuid4) ->
  upload_image round2 file uuid4 utcnow st = (t, (Success b, st')) ->
  exists r,
    compress_image (content file) (boundary_config file) [] = (t, Ok r) /\
    body_new_dimensions b = dimensions_label (new_dimensions r) /\
    get_compressed_image (body_image_id b) st'
    = StreamingResponse (compressed_image r) "image/jpeg"
        ("attachment; filename=compressed_image_" ++ body_new_dimensions b ++ ".jpg")%string.
Proof.
  intros Hfresh Hup.
  apply upload_image_store in Hup as [[_ Hno] | (r & Hrun & Hfiles & Hcol)];
    [exfalso; exact (Hno b eq_refl)|].
  destruct Hcol as [[_ Hno] | (d & b' & Hb & Hc & Hid & Hpath & Hdims & _ & Hbid & _ & Hbd)];
    [exfalso; exact (Hno b eq_refl)|].
  injection Hb as <-.
  exists r. split; [exact Hrun|]. split; [congruence|].
  unfold get_compressed_image. rewrite Hc, find_one_app.
  apply find_one_None in Hfresh. rewrite Hbid, Hfresh, Hid, String.eqb_refl.
  rewrite Hpath, Hfiles, lookup_insert_eq, Hbd. reflexivity.
Qed.

Lemma uploads_app (reqs1 reqs2 : list Request) (st : Store) :
  uploads round2 (reqs1 ++ reqs2) st = uploads round2 reqs2 (uploads round2 reqs1 st).
Proof.
  revert st. induction reqs1 as [|r reqs1 IH]; intros st; simpl; [reflexivity | apply IH].
Qed.

Lemma uploads_keep_download (reqs : list Request) (image_id : string) (st : Store) :
  paths_by_id st ->
  (forall r, In r reqs -> req_uuid4 r <> image_id) ->
  get_compressed_image image_id (uploads round2 reqs st) = get_compressed_image image_id st.
Proof.
  revert st. induction reqs as [|r reqs IH]; intros st Hinv Hids; simpl; [reflexivity|].
  rewrite IH.
  - apply upload_image_keeps_download; [exact Hinv|]. apply Hids. left. reflexivity.
  - apply upload_image_paths_by_id, Hinv.
  - intros r' Hin. apply Hids. right. exact Hin.
Qed.

(** X4.  Starting from the empty store, uploads made under other ids,
    whatever their answers, do not change what a download of [image_id]
    answers: an image that could be downloaded still can, with the same
    bytes and the same file name. *)
Theorem download_survives_later_uploads (before after : list Request) (image_id : string) :
  (forall r, In r after -> req_uuid4 r <> image_id) ->
  get_compressed_image image_id (uploads round2 (before ++ after) (mkStore ∅ []))
  = get_compressed_image image_id (uploads round2 before (mkStore ∅ [])).
Proof.
  intros Hids. rewrite uploads_app. apply uploads_keep_download; [|exact Hids].
  apply uploads_paths_by_id. intros d [].
Qed.

(** X5.  Starting from the empty store, after any sequence of uploads,
    whatever their answers, a download never finds a document whose file
    is missing: it answers 404 [Image not found] or streams a file. *)
Theorem uploads_never_lose_files (reqs : list Request) (image_id : string) :
  get_compressed_image image_id (uploads round2 reqs (mkStore ∅ []))
    = Raised 404 "Image not found" \/
  exists b cd,
    get_compressed_image image_id (uploads round2 reqs (mkStore ∅ []))
      = StreamingResponse b "image/jpeg" cd.
Proof.
  assert (Hinv : files_present (uploads round2 reqs (mkStore ∅ []))).
  { apply uploads_files_present. intros d []. }
  unfold get_compressed_image.
  destruct (find_one image_id _) as [d|] eqn:Hd; [|left; reflexivity].
  apply find_some in Hd as [Hin _].
  destruct (Hinv d Hin) as [b ->]. right. eauto.
Qed.

End ServiceFacts.

(** ** The answer of a successful upload *)

Section Answer.
Context {Pix : Type} `{Codec Pix}.
Variable round2 : PyFloat.float -> PyFloat.float.

(** X6.  A successful upload appends exactly one document, which carries
    what the answer says: the id, the file name of the form, the two
    sizes and the dimensions. The sizes reported are those of the
    uploaded bytes and of the file written under the path of the
    document. *)
Theorem upload_answer_matches_document (file : Upload) (uuid4 utcnow : string)
    (st st' : Store) (t : list Encode) (b : Body) :
  upload_image round2 file uuid4 utcnow st = (t, (Success b, st')) ->
  exists d stored,
    collection st' = collection st ++ [d] /\
    info_image_id d = body_image_id b /\
    info_filename d = filename file /\ body_filename b = filename file /\
    info_original_size_kb d = body_original_size_kb b /\
    info_compressed_size_kb d = body_compressed_size_kb b /\
    info_new_dimensions d = body_new_dimensions b /\
    info_timestamp d = utcnow /\
    info_temp_file_path d = temp_path (body_image_id b) /\
    files st' !! info_temp_file_path d = Some stored /\
    size_kb round2 (len (content file)) = Ok (body_original_size_kb b) /\
    size_kb round2 (len stored) = Ok (body_compressed_size_kb b).
Proof.
  unfold upload_image.
  destruct (negb (supported_format (filename file))); [discriminate|].
  destruct ((form_max_dimension file <=? 0) || (form_target_size_kb file <=? 0));
    [discriminate|].
  destruct (compress_image (content file) (boundary_config file) []) as [t1 [r|e]] eqn:Hrun;
    [|discriminate].
  apply compress_image_Ok in Hrun as (l & _ & ->). simpl.
  destruct (size_kb round2 (len (content file))) as [okb|e1] eqn:Ho; [|discriminate].
  destruct (size_kb round2 (len (output l))) as [ckb|e2] eqn:Hc; [|discriminate].
  intros [= <- <- <-]. simpl.
  eexists _, (output l). repeat split; simpl; try reflexivity.
  - apply lookup_insert_eq.
  - exact Hc.
Qed.

End Answer.

(** ** The check of the file name *)

Lemma append_cons (c : ascii) (a b : string) :
  (String c a ++ b)%string = String c (a ++ b)%string.
Proof. reflexivity. Qed.

Lemma substring_all (s : string) : substring 0 (String.length s) s = s.
Proof. induction s as [|c s IH]; simpl; [reflexivity | rewrite IH; reflexivity]. Qed.

Lemma substring_split (s : string) (n : nat) :
  (n <= String.length s)%nat ->
  s = (substring 0 n s ++ substring n (String.length s - n) s)%string.
Proof.
  revert n. induction s as [|c s IH]; intros [|n] Hn; simpl in Hn.
  - reflexivity.
  - lia.
  - change (substring 0 0 (String c s)) with EmptyString.
    rewrite Nat.sub_0_r, substring_all. reflexivity.
  - change (substring 0 (S n) (String c s)) with (String c (substring 0 n s)).
    change (substring (S n) (String.length (String c s) - S n) (String c s))
      with (substring n (String.length s - n) s).
    rewrite append_cons. f_equal. apply IH. lia.
Qed.

Lemma substring_suffix (p suffix : string) :
  substring (String.length p) (String.length suffix) (p ++ suffix)%string = suffix.
Proof.
  induction p as [|c p IH].
  - apply substring_all.
  - rewrite append_cons. exact IH.
Qed.

Lemma length_append (a b : string) :
  String.length (a ++ b)%string = (String.length a + String.length b)%nat.
Proof.
  induction a as [|c a IH]; [reflexivity|].
  rewrite append_cons. simpl. rewrite IH. reflexivity.
Qed.

(** [endswith] holds exactly of the strings that end with the suffix. *)
Lemma endswith_spec (s suffix : string) :
  endswith s suffix = true <-> exists stem, s = (stem ++ suffix)%string.
Proof.
  unfold endswith. rewrite andb_true_iff, Nat.leb_le, String.eqb_eq. split.
  - intros [Hle Hsub].
    exists (substring 0 (String.length s - String.length suffix) s).
    pose proof (substring_split s (String.length s - String.length suffix)) as Hsp.
    replace (String.length s - (String.length s - String.length suffix))%nat
      with (String.length suffix) in Hsp by lia.
    rewrite Hsub in Hsp. apply Hsp. lia.
  - intros (stem & ->). rewrite length_append. split; [lia|].
    replace (String.length stem + String.length suffix - String.length suffix)%nat
      with (String.length stem) by lia.
    apply substring_suffix.
Qed.

(** X7.  A file name is accepted exactly when, once its ASCII letters
    are lowered, it ends with [.png], [.jpg] or [.jpeg]. *)
Theorem supported_format_suffix (name : string) :
  supported_format name = true <->
  exists stem ext, lower name = (stem ++ ext)%string /\ In ext [".png"; ".jpg"; ".jpeg"]%string.
Proof.
  unfold supported_format. rewrite !orb_true_iff, !endswith_spec. split.
  - intros [[(stem & Hs) | (stem & Hs)] | (stem & Hs)]; eexists stem, _;
      (split; [exact Hs|]); simpl; auto.
  - intros (stem & ext & Hs & [<- | [<- | [<- | []]]]); eauto.
Qed.

Section Rejections.
Context {Pix : Type} `{Codec Pix}.
Variable round2 : PyFloat.float -> PyFloat.float.

(** X8.  [upload_image] answers with an [HTTPException] in two cases
    only, both with status 400, before the engine runs and without
    touching the store: an unsupported file name, whatever the
    parameters; otherwise a non-positive [max_dimension] or
    [target_size_kb]. *)
Theorem upload_rejections (file : Upload) (uuid4 utcnow : string) (st st' : Store)
    (t : list Encode) (code : Z) (detail : string) :
  upload_image round2 file uuid4 utcnow st = (t, (HTTPException code detail, st')) ->
  t = [] /\ st' = st /\ code = 400 /\
  ((supported_format (filename file) = false /\ detail = "Unsupported file format") \/
   (supported_format (filename file) = true /\
    (form_max_dimension file <= 0 \/ form_target_size_kb file <= 0) /\
    detail = "Invalid parameters")).
Proof.
  unfold upload_image.
  destruct (supported_format (filename file)); simpl.
  2:{ intros [= <- <- <- <-]. repeat split; auto. }
  destruct (Z.leb_spec (form_max_dimension file) 0);
    destruct (Z.leb_spec (form_target_size_kb file) 0); simpl;
    try (intros [= <- <- <- <-]; repeat split; auto).
  destruct (compress_image (content file) (boundary_config file) []) as [t1 [r|e]];
    [|discriminate].
  destruct (size_kb round2 (original_size r)); [|discriminate].
  destruct (size_kb round2 (compressed_size r)); discriminate.
Qed.

End Rejections.

(** ** More on the saves of [compress_image] *)

Lemma in_reduce_entries_step (sz : Z * Z) (q : Z) (n : nat) (e : Encode) :
  In e (reduce_entries sz q n) ->
  exists k : nat, (1 <= k <= n)%nat /\ e = mkEncode SaveReduce (q - 5 * Z.of_nat k) sz.
Proof.
  unfold reduce_entries. revert q. induction n as [|n IH]; intros q; simpl; [tauto|].
  intros [<- | Hin].
  - exists 1%nat. split; [lia|]. f_equal; lia.
  - apply IH in Hin as (k & Hk & ->). exists (S k). split; [lia|]. f_equal; lia.
Qed.

Section Steps.
Context {Pix : Type} `{Codec Pix}.

(** The trace of a run, completed or not, with the quality of the boost
    save: it is read from the number of turns of the loop. *)
Lemma compress_image_locals_steps (content : bytes) (cfg : Config)
    (t : list Encode) (o : outcome (Locals Pix)) :
  compress_image_locals content cfg [] = (t, o) ->
  t = [] \/
  exists (n : nat) (sz : Z * Z) (s b : list Encode),
    t = (mkEncode SaveInitial (max_quality cfg) sz
           :: reduce_entries sz (max_quality cfg) n) ++ s ++ b /\
    (n = O \/ min_quality cfg < max_quality cfg - 5 * (Z.of_nat n - 1)) /\
    (s = [] \/ exists sz', s = [mkEncode SaveShrink (min_quality cfg) sz']) /\
    (b = [] \/
     n <> O /\
     exists sz', b = [mkEncode SaveBoost
                        (Z.min (max_quality cfg - 5 * Z.of_nat n + 10) (max_quality cfg))
                        sz']).
Proof.
  unfold compress_image_locals, bind_eng, lift, ret, save. intros Hrun.
  destruct (image_open content) as [im0|]; simpl in Hrun;
    [|injection Hrun as <- _; left; reflexivity].
  destruct (to_rgb im0) as [im1|]; [|injection Hrun as <- _; left; reflexivity].
  destruct (size im1) as [width height].
  destruct (requested_box (max_dimension cfg) width height) as [box|];
    [|injection Hrun as <- _; left; reflexivity].
  destruct (thumbnail im1 box) as [im2|]; [|injection Hrun as <- _; left; reflexivity].
  right.
  destruct (save_jpeg im2 (max_quality cfg)) as [out0|]; simpl in Hrun.
  2:{ injection Hrun as <- _. exists O, (size im2), [], []. simpl. auto. }
  pose proof (reduce_quality_spec im2 (min_quality cfg) (max_quality cfg) out0
                [mkEncode SaveInitial (max_quality cfg) (size im2)]) as (n & Ht1 & Hmin & Hres).
  destruct (reduce_quality im2 (min_quality cfg) (max_quality cfg) out0
              [mkEncode SaveInitial (max_quality cfg) (size im2)]) as [t1 [[q1 out1]|e]];
    simpl in Ht1, Hres; subst t1.
  2:{ injection Hrun as <- _. exists n, (size im2), [], []. rewrite !app_nil_r. auto. }
  destruct Hres as (Hq1 & _).
  assert (Hboost : forall out, (len out <? target_size_kb cfg * 1024) && (q1 <? max_quality cfg) = true ->
            n <> O /\ Z.min (q1 + 10) (max_quality cfg)
                     = Z.min (max_quality cfg - 5 * Z.of_nat n + 10) (max_quality cfg)).
  { intros out Hg. apply andb_prop in Hg as [_ Hq]. split; [lia|]. rewrite Hq1. reflexivity. }
  destruct (len out1 >? 150 * 1024).
  - destruct (shrink_box box) as [new_dims|].
    2:{ injection Hrun as <- _. exists n, (size im2), [], []. rewrite !app_nil_r. auto. }
    destruct (thumbnail im2 new_dims) as [im3|].
    2:{ injection Hrun as <- _. exists n, (size im2), [], []. rewrite !app_nil_r. auto. }
    destruct (save_jpeg im3 (min_quality cfg)) as [out2|]; simpl in Hrun.
    2:{ injection Hrun as <- _.
        exists n, (size im2), [mkEncode SaveShrink (min_quality cfg) (size im3)], [].
        rewrite !app_nil_r.
        split; [reflexivity|]. split; [exact Hmin|].
        split; [right; eexists; reflexivity | left; reflexivity]. }
    destruct ((len out2 <? target_size_kb cfg * 1024) && (q1 <? max_quality cfg)) eqn:Hg.
    + destruct (Hboost out2 Hg) as [Hn Hq]. rewrite Hq in Hrun.
      assert (Ht : t = ((mkEncode SaveInitial (max_quality cfg) (size im2)
                           :: reduce_entries (size im2) (max_quality cfg) n)
                        ++ [mkEncode SaveShrink (min_quality cfg) (size im3)])
                       ++ [mkEncode SaveBoost
                             (Z.min (max_quality cfg - 5 * Z.of_nat n + 10) (max_quality cfg))
                             (size im3)]).
      { destruct (save_jpeg im3 _); simpl in Hrun; injection Hrun as <- _; reflexivity. }
      exists n, (size im2), [mkEncode SaveShrink (min_quality cfg) (size im3)],
        [mkEncode SaveBoost (Z.min (max_quality cfg - 5 * Z.of_nat n + 10) (max_quality cfg))
           (size im3)].
      rewrite Ht, <- app_assoc.
      split; [reflexivity|]. split; [exact Hmin|].
      split; [right; eexists; reflexivity | right; split; [exact Hn | eexists; reflexivity]].
    + injection Hrun as <- _.
      exists n, (size im2), [mkEncode SaveShrink (min_quality cfg) (size im3)], [].
      rewrite !app_nil_r.
        split; [reflexivity|]. split; [exact Hmin|].
        split; [right; eexists; reflexivity | left; reflexivity].
  - destruct ((len out1 <? target_size_kb cfg * 1024) && (q1 <? max_quality cfg)) eqn:Hg.
    + destruct (Hboost out1 Hg) as [Hn Hq]. rewrite Hq in Hrun.
      assert (Ht : t = (mkEncode SaveInitial (max_quality cfg) (size im2)
                          :: reduce_entries (size im2) (max_quality cfg) n)
                       ++ [mkEncode SaveBoost
                             (Z.min (max_quality cfg - 5 * Z.of_nat n + 10) (max_quality cfg))
                             (size im2)]).
      { destruct (save_jpeg im2 _); simpl in Hrun; injection Hrun as <- _; reflexivity. }
      exists n, (size im2), [],
        [mkEncode SaveBoost (Z.min (max_quality cfg - 5 * Z.of_nat n + 10) (max_quality cfg))
           (size im2)].
      rewrite Ht.
      split; [reflexivity|]. split; [exact Hmin|].
      split; [left; reflexivity | right; split; [exact Hn | eexists; reflexivity]].
    + injection Hrun as <- _. exists n, (size im2), [], []. rewrite !app_nil_r. auto.
Qed.

(** X9.  Whatever the outcome of a run, the quality of each save is
    fixed by the place where it is made: [max_quality] for the first
    one; for a save of the loop a value that is a multiple of 5 below
    [max_quality] and more than [min_quality - 5]; [min_quality] after
    the shrink; for the boost a value above [min_quality] and at most
    [max_quality]. *)
Theorem save_qualities_by_site (content : bytes) (cfg : Config)
    (t : list Encode) (o : outcome Compressed) (e : Encode) :
  compress_image content cfg [] = (t, o) -> In e t ->
  match site e with
  | SaveInitial => at_quality e = max_quality cfg
  | SaveReduce =>
      min_quality cfg - 5 < at_quality e <= max_quality cfg - 5 /\
      (max_quality cfg - at_quality e) mod 5 = 0
  | SaveShrink => at_quality e = min_quality cfg
  | SaveBoost =>
      min_quality cfg < at_quality e <= max_quality cfg /\
      (max_quality cfg - at_quality e) mod 5 = 0
  end.
Proof.
  intros Hrun Hin.
  pose proof (compress_image_trace content cfg []) as Ht. rewrite Hrun in Ht. simpl in Ht.
  destruct (compress_image_locals content cfg []) as [t' o'] eqn:Hloc. simpl in Ht. subst t'.
  apply compress_image_locals_steps in Hloc as [-> | (n & sz & s & b & -> & Hn & Hs & Hb)];
    [destruct Hin|].
  apply in_app_or in Hin as [[<- | Hin] | Hin]; [reflexivity | |].
  - apply in_reduce_entries_step in Hin as (k & Hk & ->). simpl.
    split; [destruct Hn as [-> | Hn]; lia|].
    replace (max_quality cfg - (max_quality cfg - 5 * Z.of_nat k)) with (Z.of_nat k * 5) by lia.
    apply Z.mod_mul. lia.
  - apply in_app_or in Hin as [Hin | Hin].
    + destruct Hs as [-> | (sz' & ->)]; [destruct Hin|].
      destruct Hin as [<- | []]. reflexivity.
    + destruct Hb as [-> | (Hn0 & sz' & ->)]; [destruct Hin|].
      destruct Hin as [<- | []]. simpl.
      destruct Hn as [-> | Hn]; [congruence|].
      split; [lia|].
      destruct (Z.min_spec (max_quality cfg - 5 * Z.of_nat n + 10) (max_quality cfg))
        as [[_ ->] | [_ ->]].
      * replace (max_quality cfg - (max_quality cfg - 5 * Z.of_nat n + 10))
          with ((Z.of_nat n - 2) * 5) by lia.
        apply Z.mod_mul. lia.
      * rewrite Z.sub_diag. reflexivity.
Qed.

(** The loop is left with the buffer of the last turn; before each turn
    the buffer held more than 150 KiB and the quality was above
    [min_q]. *)
Lemma reduce_quality_turns (im : Image Pix) (min_q q : Z) (out : bytes) (t : list Encode)
    (n : nat) (t' : list Encode) (q' : Z) (out' : bytes) :
  reduce_quality im min_q q out t = (t', Ok (q', out')) ->
  q' = q - 5 * Z.of_nat n ->
  forall k : nat, (k < n)%nat ->
    min_q < q - 5 * Z.of_nat k /\
    exists b, 150 * 1024 < len b /\
              (k = O -> b = out) /\
              (k <> O -> save_jpeg im (q - 5 * Z.of_nat k) = Some b).
Proof.
  revert n t' q' out'.
  funelim (reduce_quality im min_q q out t); intros n t2 q2 out2 Hrun Hq2 k Hk.
  - injection Hrun as _ -> _. lia.
  - pose proof (andb_prop _ _ Hguard) as [Hlen Hq].
    destruct k as [|k].
    + split; [lia|]. exists out. repeat split; [lia | congruence].
    + destruct n as [|n]; [lia|].
      assert (Hs : save_jpeg im (q - 5) = Some out').
      { match goal with
        | Hb : of_option EncodeError (save_jpeg im (q - 5)) = Ok out' |- _ =>
            destruct (save_jpeg im (q - 5)); simpl in Hb; [congruence | discriminate]
        end. }
      match goal with
      | IH : forall (n : nat) (t' : list Encode), _ |- _ =>
          destruct (IH n t2 q2 out2 Hrun ltac:(lia) k ltac:(lia)) as (Hmin & b & Hb & Hk0 & Hk1)
      end.
      split; [lia|]. exists b. split; [exact Hb|]. split; [discriminate|]. intros _.
      destruct k as [|k].
      * rewrite Hk0 by reflexivity. rewrite <- Hs. f_equal; lia.
      * rewrite <- Hk1 by discriminate. f_equal; lia.
  - discriminate.
Qed.

(** X10.  The loop is a linear search from [max_quality] downwards, in
    steps of 5, on the image left by the first thumbnail: it stops at
    the first quality whose encoding holds at most 150 KiB, or that is
    not above [min_quality]; every quality tried before was above
    [min_quality] and gave more than 150 KiB. *)
Theorem loop_stops_at_first_fit (content : bytes) (cfg : Config)
    (t : list Encode) (r : Compressed) :
  compress_image content cfg [] = (t, Ok r) ->
  exists (im0 im1 im2 : Image Pix) (box : Z * Z) (n : nat),
    image_open content = Some im0 /\
    to_rgb im0 = Ok im1 /\
    requested_box (max_dimension cfg) (fst (size im1)) (snd (size im1)) = Ok box /\
    thumbnail im1 box = Ok im2 /\
    count_site SaveReduce t = n /\
    (forall k : nat, (k < n)%nat ->
       min_quality cfg < max_quality cfg - 5 * Z.of_nat k /\
       exists b, save_jpeg im2 (max_quality cfg - 5 * Z.of_nat k) = Some b /\
                 150 * 1024 < len b) /\
    exists b, save_jpeg im2 (max_quality cfg - 5 * Z.of_nat n) = Some b /\
              (len b <= 150 * 1024 \/ max_quality cfg - 5 * Z.of_nat n <= min_quality cfg).
Proof.
  intros Hrun. apply compress_image_Ok in Hrun as (l & Hrun & _).
  unfold compress_image_locals, bind_eng, lift, ret, save in Hrun.
  destruct (image_open content) as [im0|] eqn:Hopen; simpl in Hrun; [|discriminate].
  destruct (to_rgb im0) as [im1|] eqn:Hrgb; [|discriminate].
  destruct (size im1) as [width height] eqn:Hsz.
  destruct (requested_box (max_dimension cfg) width height) as [box|] eqn:Hbox; [|discriminate].
  destruct (thumbnail im1 box) as [im2|] eqn:Hthumb; [|discriminate].
  destruct (save_jpeg im2 (max_quality cfg)) as [out0|] eqn:Hsave; simpl in Hrun; [|discriminate].
  pose proof (reduce_quality_spec im2 (min_quality cfg) (max_quality cfg) out0
                [mkEncode SaveInitial (max_quality cfg) (size im2)]) as (n & Ht1 & Hmin & Hres).
  pose proof (reduce_quality_turns im2 (min_quality cfg) (max_quality cfg) out0
                [mkEncode SaveInitial (max_quality cfg) (size im2)] n) as Hturns.
  destruct (reduce_quality im2 (min_quality cfg) (max_quality cfg) out0
              [mkEncode SaveInitial (max_quality cfg) (size im2)]) as [t1 [[q1 out1]|e]] eqn:Hloop;
    simpl in Ht1, Hres; [|discriminate].
  destruct Hres as (Hq1 & Hexit & Hn0 & Hn1).
  specialize (Hturns t1 q1 out1 eq_refl Hq1).
  exists im0, im1, im2, box, n. rewrite Hsz. simpl.
  do 4 (split; [first [reflexivity | assumption]|]).
  split; [|split].
  - (* the number of loop saves in the trace *)
    assert (Htail : exists u, t = t1 ++ u /\ count_site SaveReduce u = O).
    { destruct (len out1 >? 150 * 1024).
      - destruct (shrink_box box) as [nd|]; [|discriminate].
        destruct (thumbnail im2 nd) as [im3|]; [|discriminate].
        destruct (save_jpeg im3 (min_quality cfg)) as [out2|]; simpl in Hrun; [|discriminate].
        destruct ((len out2 <? target_size_kb cfg * 1024) && (q1 <? max_quality cfg)).
        + destruct (save_jpeg im3 (Z.min (q1 + 10) (max_quality cfg))); simpl in Hrun;
            [|discriminate].
          injection Hrun as <- _. rewrite <- app_assoc. eexists. split; [reflexivity|].
          reflexivity.
        + injection Hrun as <- _. eexists. split; [reflexivity|]. reflexivity.
      - destruct ((len out1 <? target_size_kb cfg * 1024) && (q1 <? max_quality cfg)).
        + destruct (save_jpeg im2 (Z.min (q1 + 10) (max_quality cfg))); simpl in Hrun;
            [|discriminate].
          injection Hrun as <- _. eexists. split; [reflexivity|]. reflexivity.
        + injection Hrun as <- _. exists []. rewrite app_nil_r. split; reflexivity. }
    destruct Htail as (u & -> & Hu). rewrite Ht1.
    change (mkEncode SaveInitial (max_quality cfg) (size im2)
              :: reduce_entries (size im2) (max_quality cfg) n)
      with ([mkEncode SaveInitial (max_quality cfg) (size im2)]
              ++ reduce_entries (size im2) (max_quality cfg) n).
    rewrite !count_site_app, Hu, count_site_reduce_entries.
    rewrite count_site_other by discriminate. simpl. lia.
  - intros k Hk. destruct (Hturns k Hk) as (Hq & b & Hb & H0 & H1).
    split; [exact Hq|]. exists b. split; [|exact Hb].
    destruct k as [|k].
    + rewrite H0 by reflexivity. rewrite <- Hsave. f_equal; lia.
    + apply H1. discriminate.
  - exists out1. rewrite <- Hq1. split.
    + destruct n as [|n].
      * rewrite Hn0 by reflexivity. rewrite Hq1, <- Hsave. f_equal. lia.
      * apply Hn1. discriminate.
    + apply andb_false_iff in Hexit as [Hl | Hq]; lia.
Qed.

(** X11.  When a successful call made no save after the loop, neither
    for the shrink nor for the boost, the returned buffer holds at most
    150 KiB; and it holds at least [target_size_kb * 1024] bytes unless
    the single save at [max_quality] was the only one. *)
Theorem size_window_without_shrink_and_boost (content : bytes) (cfg : Config)
    (t : list Encode) (r : Compressed) :
  compress_image content cfg [] = (t, Ok r) ->
  (forall e, In e t -> site e = SaveInitial \/ site e = SaveReduce) ->
  compressed_size r <= 150 * 1024 /\
  (target_size_kb cfg * 1024 <= compressed_size r \/
   t = [mkEncode SaveInitial (max_quality cfg) (new_dimensions r)]).
Proof.
  intros Hrun Hsites. apply compress_image_Ok in Hrun as (l & Hrun & ->). simpl.
  apply compress_image_locals_completes in Hrun
    as [i0 i1 i2 box out0 out1 out2 t1 t2 q1 Hopen Hrgb Hbox Hthumb Hsave Hloop Hshrink Hboost].
  destruct Hboost as [(Hg & _ & -> & ->) | (_ & _ & _ & ->)].
  2:{ exfalso. destruct (Hsites (mkEncode SaveBoost (quality l) (size (img l)))) as [Hs | Hs];
        [apply in_or_app; right; left; reflexivity | discriminate Hs | discriminate Hs]. }
  destruct Hshrink as [(Hle & -> & -> & ->) | (_ & nd & _ & _ & _ & ->)].
  2:{ exfalso. destruct (Hsites (mkEncode SaveShrink (min_quality cfg) (size (img l)))) as [Hs | Hs];
        [apply in_or_app; right; left; reflexivity | discriminate Hs | discriminate Hs]. }
  split; [exact Hle|].
  destruct Hloop as (n & -> & _ & Hq1 & _).
  apply andb_false_iff in Hg as [Hl | Hq]; [left; lia|].
  right. destruct n as [|n]; [reflexivity | lia].
Qed.

Lemma to_rgb_mode (im im' : Image Pix) : to_rgb im = Ok im' -> mode im' = "RGB".
Proof.
  unfold to_rgb. destruct (String.eqb (mode im) "RGB") eqn:Hm.
  - intros [= <-]. apply String.eqb_eq, Hm.
  - destruct (convert_rgb im); simpl; [|discriminate]. intros [= <-]. reflexivity.
Qed.

Lemma thumbnail_mode (im im' : Image Pix) (box : Z * Z) :
  thumbnail im box = Ok im' -> mode im' = mode im.
Proof.
  unfold thumbnail. intros Ht. apply bind_Ok in Ht as (p & _ & Ht).
  destruct p as [final_size|]; [|injection Ht as <-; reflexivity].
  destruct (decide (size im = final_size)); [injection Ht as <-; reflexivity|].
  apply bind_Ok in Ht as (px & _ & Ht). injection Ht as <-. reflexivity.
Qed.

(** X12.  The buffer returned by a successful call is the encoding of an
    image in mode RGB, whatever the mode of the input, and of the
    returned dimensions. *)
Theorem returned_buffer_encodes_rgb (content : bytes) (cfg : Config)
    (t : list Encode) (r : Compressed) :
  compress_image content cfg [] = (t, Ok r) ->
  exists (im : Image Pix) (q : Z),
    mode im = "RGB" /\ size im = new_dimensions r /\
    save_jpeg im q = Some (compressed_image r).
Proof.
  intros Hrun. apply compress_image_Ok in Hrun as (l & Hrun & ->). simpl.
  apply compress_image_locals_completes in Hrun
    as [i0 i1 i2 box out0 out1 out2 t1 t2 q1 Hopen Hrgb Hbox Hthumb Hsave Hloop Hshrink Hboost].
  assert (Hm2 : mode i2 = "RGB").
  { rewrite (thumbnail_mode _ _ _ Hthumb). eapply to_rgb_mode; eauto. }
  assert (Hs1 : exists q, save_jpeg i2 q = Some out1).
  { destruct Hloop as (n & _ & _ & _ & _ & Hn0 & Hn1). destruct n as [|n].
    - rewrite Hn0 by reflexivity. eauto.
    - exists q1. apply Hn1. discriminate. }
  assert (Hs2 : mode (img l) = "RGB" /\ exists q, save_jpeg (img l) q = Some out2).
  { destruct Hshrink as [(_ & -> & -> & _) | (_ & nd & _ & Hth & Hsv & _)]; [auto|].
    split; [|eauto]. rewrite (thumbnail_mode _ _ _ Hth). exact Hm2. }
  destruct Hs2 as (Hm & q2 & Hq2).
  destruct Hboost as [(_ & _ & -> & _) | (_ & _ & Hsv & _)].
  - exists (img l), q2. auto.
  - exists (img l), (quality l). auto.
Qed.

End Steps.

(** ** The float product [(m / d) * e] *)

Module ScaleEdge.
Import PyFloat PyFloatFacts ShrinkEdge.

(** Rounding a mantissa of at least [prec] digits: the digits beyond
    [prec] are cut, the result is the cut mantissa or its successor, and
    it is a finite float. *)
Lemma binary_round_aux_between (P E : Z) (l : location) :
  0 < P -> 0 <= Zdigits2 P - 53 -> -1000 <= E -> E + (Zdigits2 P - 53) < 900 ->
  exists (mz : positive) (dl : Z),
    binary_round_aux prec emax false P E l
      = S754_finite false mz (E + (Zdigits2 P - 53) + dl) /\
    0 <= dl <= 1 /\
    Zpos (digits2_pos mz) = 53 /\
    P / 2 ^ (Zdigits2 P - 53) <= Zpos mz * 2 ^ dl <= P / 2 ^ (Zdigits2 P - 53) + 1.
Proof.
  intros HP Hn HE Hup. destruct P as [|pp|pp]; try lia.
  set (n := Zdigits2 (Zpos pp) - 53) in *.
  pose proof (digits_bounds pp) as [Hlo Hhi].
  pose proof (pow2_pos n ltac:(lia)) as Pn.
  unfold binary_round_aux.
  destruct (shr_fexp_m (Zpos pp) E l ltac:(lia) ltac:(simpl in *; lia)) as [Hkeep Hcut].
  destruct (shr_fexp prec emax (Zpos pp) E l) as [mrs' e'] eqn:E1.
  simpl in Hkeep, Hcut. cbv [prec] in Hkeep, Hcut. fold n in Hkeep, Hcut.
  set (m1 := shr_m mrs') in *.
  assert (Hm1 : m1 = Zpos pp / 2 ^ n /\ e' = E + n).
  { destruct (Z.le_gt_cases n 0) as [Hz|Hz].
    - destruct (Hkeep Hz) as [-> ->]. assert (n = 0) by lia.
      replace n with 0 by lia. change (2 ^ 0) with 1. rewrite Z.div_1_r. split; lia.
    - destruct (Hcut Hz) as [-> ->]. auto. }
  destruct Hm1 as [Hm1 ->].
  assert (Hq : 2 ^ 52 <= m1 < 2 ^ 53).
  { rewrite Hm1. unfold n in *. simpl Zdigits2 in *. split.
    - apply Z.div_le_lower_bound; [lia|].
      rewrite <- Z.pow_add_r by lia.
      replace (Zpos (digits2_pos pp) - 53 + 52) with (Zpos (digits2_pos pp) - 1) by lia.
      exact Hlo.
    - apply Z.div_lt_upper_bound; [lia|].
      rewrite <- Z.pow_add_r by lia.
      replace (Zpos (digits2_pos pp) - 53 + 53) with (Zpos (digits2_pos pp)) by lia.
      exact Hhi. }
  rewrite <- Hm1.
  pose proof (round_nearest_even_bounds m1 (loc_of_shr_record mrs')) as Hr.
  set (m2 := round_nearest_even m1 (loc_of_shr_record mrs')) in *.
  assert (H52 : 0 < 2 ^ 52) by reflexivity.
  destruct m2 as [|p2|p2] eqn:Em2; try lia.
  pose proof (digits_bounds p2) as [Hlo2 Hhi2].
  assert (Hd2 : 53 <= Zpos (digits2_pos p2) <= 54).
  { split.
    - assert (Hlt : 2 ^ 52 < 2 ^ Zpos (digits2_pos p2)) by lia.
      apply Z.pow_lt_mono_r_iff in Hlt; lia.
    - assert (Hlt : 2 ^ (Zpos (digits2_pos p2) - 1) < 2 ^ 54).
      { eapply Z.le_lt_trans; [exact Hlo2|]. change (2 ^ 54) with (2 ^ 53 * 2). lia. }
      apply Z.pow_lt_mono_r_iff in Hlt; lia. }
  destruct (shr_fexp_m (Zpos p2) (E + n) loc_Exact ltac:(lia) ltac:(simpl; lia))
    as [Hkeep2 Hcut2].
  destruct (shr_fexp prec emax (Zpos p2) (E + n) loc_Exact) as [mrs'' e''] eqn:E2.
  simpl in Hkeep2, Hcut2. unfold prec in Hkeep2, Hcut2.
  destruct (Z.le_gt_cases (Zpos (digits2_pos p2) - 53) 0) as [Hk|Hk].
  - (* the rounded mantissa still has 53 digits *)
    destruct (Hkeep2 Hk) as [-> ->].
    destruct (Z.leb_spec (E + n) (emax - prec)); [|unfold emax, prec in *; lia].
    exists p2, 0. rewrite Z.add_0_r. change (2 ^ 0) with 1. rewrite Z.mul_1_r.
    repeat split; lia.
  - (* it reached 2^53 and is halved *)
    destruct (Hcut2 Hk) as [-> ->].
    assert (Hd54 : Zpos (digits2_pos p2) = 54) by lia.
    rewrite Hd54 in *. change (54 - 53) with 1 in *. change (54 - 1) with 53 in Hlo2.
    assert (Hp2 : Zpos p2 = 2 ^ 53) by lia.
    rewrite Hp2. change (2 ^ 53 / 2 ^ 1) with (Zpos 4503599627370496).
    destruct (Z.leb_spec (E + n + 1) (emax - prec)); [|unfold emax, prec in *; lia].
    exists 4503599627370496%positive, 1.
    split; [reflexivity|]. split; [lia|]. split; [reflexivity|].
    change (Zpos 4503599627370496 * 2 ^ 1) with (2 ^ 53). lia.
Qed.

Lemma digits_le (p : positive) (k : Z) : Zpos p < 2 ^ k -> 0 <= k -> Zpos (digits2_pos p) <= k.
Proof.
  intros Hp Hk. pose proof (digits_bounds p) as [Hlo _].
  assert (Hlt : 2 ^ (Zpos (digits2_pos p) - 1) < 2 ^ k) by lia.
  apply Z.pow_lt_mono_r_iff in Hlt; lia.
Qed.

Lemma digits_eq (p : positive) (k : Z) :
  2 ^ (k - 1) <= Zpos p < 2 ^ k -> 1 <= k -> Zpos (digits2_pos p) = k.
Proof.
  intros [Hlo Hhi] Hk. pose proof (digits_bounds p) as [Hlo' Hhi'].
  assert (H1 : 2 ^ (Zpos (digits2_pos p) - 1) < 2 ^ k) by lia.
  assert (H2 : 2 ^ (k - 1) < 2 ^ Zpos (digits2_pos p)) by lia.
  apply Z.pow_lt_mono_r_iff in H1; try lia.
  apply Z.pow_lt_mono_r_iff in H2; lia.
Qed.

Lemma quotient_range (n b q r d k : Z) :
  n = b * q + r -> 0 <= r < b -> k * d <= n < 2 * k * d -> b < d <= 2 * b -> 0 < k ->
  k <= q < 4 * k.
Proof.
  intros Hn Hr Hd Hb Hk. split.
  - destruct (Z.le_gt_cases k q) as [|Hlt]; [assumption|]. exfalso.
    assert (b * q <= b * (k - 1)) by (apply Z.mul_le_mono_nonneg_l; lia).
    assert (k * b < k * d) by (apply Z.mul_lt_mono_pos_l; lia).
    lia.
  - destruct (Z.lt_ge_cases q (4 * k)) as [|Hge]; [assumption|]. exfalso.
    assert (b * (4 * k) <= b * q) by (apply Z.mul_le_mono_nonneg_l; lia).
    assert (k * d <= k * (2 * b)) by (apply Z.mul_le_mono_nonneg_l; lia).
    lia.
Qed.

Lemma quotient_kept (n b q r x : Z) :
  n = b * q + r -> 0 <= r < b -> q <= x <= q + 1 ->
  n - b <= b * x <= n + b.
Proof.
  intros Hn Hr Hx.
  assert (b * q <= b * x) by (apply Z.mul_le_mono_nonneg_l; lia).
  assert (b * x <= b * (q + 1)) by (apply Z.mul_le_mono_nonneg_l; lia).
  lia.
Qed.

Lemma quotient_halved (n b q r x : Z) :
  2 * n = b * q + r -> 0 <= r < b -> q / 2 <= x <= q / 2 + 1 ->
  n - b <= b * x <= n + b.
Proof.
  intros Hn Hr Hx.
  pose proof (Z.div_mod q 2 ltac:(lia)) as Hdm.
  pose proof (Z.mod_pos_bound q 2 ltac:(lia)) as Hmb.
  set (h := q / 2) in *. set (p := q mod 2) in *.
  assert (b * h <= b * x) by (apply Z.mul_le_mono_nonneg_l; lia).
  assert (b * x <= b * (h + 1)) by (apply Z.mul_le_mono_nonneg_l; lia).
  assert (Hq : b * q = 2 * (b * h) + b * p) by (rewrite Hdm; ring).
  assert (0 <= b * p <= b) by (split; [apply Z.mul_nonneg_nonneg; lia|];
    replace b with (b * 1) at 2 by ring; apply Z.mul_le_mono_nonneg_l; lia).
  lia.
Qed.

(** [a / b] on two ints below [2^24]: a float [R / 2^T] whose numerator
    is within [b] of [a * 2^T / b] once multiplied by [b]. *)
Lemma int_truediv_between (a b : Z) :
  1 <= a < 2 ^ 24 -> 1 <= b < 2 ^ 24 ->
  exists (mr : positive) (T dl : Z),
    int_truediv a b = Ok (S754_finite false mr (dl - T)) /\
    0 <= dl <= 1 /\
    Zpos (digits2_pos mr) = 53 /\
    28 <= T <= 77 /\
    a * 2 ^ T - b <= b * (Zpos mr * 2 ^ dl) <= a * 2 ^ T + b /\
    2 ^ 51 * b < a * 2 ^ T.
Proof.
  intros Ha Hb. unfold int_truediv.
  destruct (Z.eqb_spec b 0) as [|_]; [lia|].
  destruct a as [|pa|pa]; try lia. destruct b as [|pb|pb]; try lia.
  simpl exact. unfold SFdiv.
  destruct (SFdiv_core_binary prec emax (Zpos pa) 0 (Zpos pb) 0) as [[q ez] lz] eqn:Ecore.
  unfold SFdiv_core_binary in Ecore.
  pose proof (digits_bounds pa) as [Hlo1 Hhi1].
  pose proof (digits_bounds pb) as [Hlo2 Hhi2].
  pose proof (digits_le pa 24 ltac:(lia) ltac:(lia)) as Hd1.
  pose proof (digits_le pb 24 ltac:(lia) ltac:(lia)) as Hd2.
  simpl Zdigits2 in Ecore. unfold fexp, emin, prec, emax in Ecore.
  set (d1 := Zpos (digits2_pos pa)) in *. set (d2 := Zpos (digits2_pos pb)) in *.
  assert (Hd1' : 1 <= d1) by (unfold d1; lia).
  assert (Hd2' : 1 <= d2) by (unfold d2; lia).
  set (e' := Z.min (Z.max (d1 + 0 - (d2 + 0) - 53) (3 - 1024 - 53)) (0 - 0)) in *.
  assert (He' : e' = d1 - d2 - 53) by (unfold e'; lia).
  replace (0 - 0 - e') with (- e') in Ecore by lia.
  destruct (- e') as [|s|s] eqn:Es; try lia.
  rewrite Z.shiftl_mul_pow2 in Ecore by lia.
  destruct (Z.div_eucl (Zpos pa * 2 ^ Zpos s) (Zpos pb)) as [q' rm] eqn:Ediv.
  injection Ecore as <- <- _.
  assert (Hs : Zpos s = 53 + d2 - d1) by lia.
  pose proof (pow2_pos (Zpos s) ltac:(lia)) as Ps.
  pose proof (Z.div_eucl_eq (Zpos pa * 2 ^ Zpos s) (Zpos pb) ltac:(lia)) as Heq.
  pose proof (Z.mod_pos_bound (Zpos pa * 2 ^ Zpos s) (Zpos pb) ltac:(lia)) as Hrm.
  unfold Z.modulo in Hrm. rewrite Ediv in Heq, Hrm.
  (* the quotient has 53 or 54 digits *)
  assert (Hnum : 2 ^ 52 * 2 ^ d2 <= Zpos pa * 2 ^ Zpos s < 2 ^ 53 * 2 ^ d2).
  { rewrite Hs. replace (53 + d2 - d1) with (53 - d1 + d2) by lia.
    rewrite (Z.pow_add_r 2 (53 - d1) d2) by lia.
    pose proof (pow2_pos d2 ltac:(lia)) as P2.
    pose proof (pow2_pos (53 - d1) ltac:(lia)) as P3.
    assert (H53 : 2 ^ 53 = 2 ^ d1 * 2 ^ (53 - d1)).
    { rewrite <- Z.pow_add_r by lia. f_equal. lia. }
    assert (H52 : 2 ^ 52 = 2 ^ (d1 - 1) * 2 ^ (53 - d1)).
    { rewrite <- Z.pow_add_r by lia. f_equal. lia. }
    rewrite H53, H52. split; nia. }
  assert (Hb2 : 2 * Zpos pb >= 2 ^ d2).
  { replace d2 with (d2 - 1 + 1) by lia. rewrite Z.pow_add_r by lia. change (2 ^ 1) with 2.
    lia. }
  assert (Hq : 2 ^ 52 <= q' < 2 ^ 54).
  { change (2 ^ 54) with (4 * 2 ^ 52).
    apply (quotient_range (Zpos pa * 2 ^ Zpos s) (Zpos pb) q' rm (2 ^ d2) (2 ^ 52)); lia. }
  destruct q' as [|pq|pq]; try lia.
  pose proof (digits_bounds pq) as [Hloq Hhiq].
  assert (Hdq : 53 <= Zpos (digits2_pos pq) <= 54).
  { split.
    - assert (Hlt : 2 ^ 52 < 2 ^ Zpos (digits2_pos pq)) by lia.
      apply Z.pow_lt_mono_r_iff in Hlt; lia.
    - apply digits_le; lia. }
  destruct (binary_round_aux_between (Zpos pq) e' lz ltac:(lia) ltac:(simpl; lia)
              ltac:(lia) ltac:(simpl; lia)) as (mz & dl & Hround & Hdl & Hdz & Hbetween).
  simpl xorb. fold prec emax. rewrite Hround. simpl is_finite. cbv iota.
  simpl Zdigits2 in Hround, Hbetween.
  set (nq := Zpos (digits2_pos pq) - 53) in *.
  exists mz, (Zpos s - nq), dl. simpl Zdigits2. fold nq.
  split; [do 2 f_equal; lia|]. split; [exact Hdl|]. split; [exact Hdz|].
  split; [lia|].
  set (R := Zpos mz * 2 ^ dl) in *.
  assert (Hcase : nq = 0 \/ nq = 1) by lia.
  assert (H51 : 2 ^ 52 * Zpos pb < Zpos pa * 2 ^ Zpos s).
  { assert (2 ^ 52 * Zpos pb < 2 ^ 52 * 2 ^ d2) by (apply Z.mul_lt_mono_pos_l; lia). lia. }
  destruct Hcase as [Hn | Hn]; rewrite Hn in *.
  - change (2 ^ 0) with 1 in Hbetween. rewrite Z.div_1_r in Hbetween.
    rewrite Z.sub_0_r. split.
    + apply (quotient_kept _ _ _ _ _ Heq Hrm Hbetween).
    + change (2 ^ 52) with (2 * 2 ^ 51) in H51. lia.
  - change (2 ^ 1) with 2 in Hbetween.
    assert (H2T : 2 ^ Zpos s = 2 * 2 ^ (Zpos s - 1)).
    { rewrite <- Z.pow_succ_r by lia. f_equal. lia. }
    rewrite H2T in Heq, H51. split.
    + apply (quotient_halved _ _ (Zpos pq) rm); [lia | exact Hrm | exact Hbetween].
    + change (2 ^ 52) with (2 * 2 ^ 51) in H51. lia.
Qed.

Lemma scaled_lower (a b c f F W X : Z) :
  0 < b -> 0 <= c <= W -> 0 <= f -> 0 < W ->
  a * c = b * F + f ->
  a * W - b <= b * X ->
  (F - 1) * W <= X * c.
Proof.
  intros Hb Hc Hf HW Hac HX.
  apply (Z.mul_le_mono_pos_l _ _ b Hb).
  assert (H1 : (a * W - b) * c <= b * X * c) by (apply Z.mul_le_mono_nonneg_r; lia).
  assert (H2 : (a * W - b) * c = (b * F + f) * W - b * c) by (rewrite <- Hac; ring).
  assert (H3 : b * c <= b * W) by (apply Z.mul_le_mono_nonneg_l; lia).
  assert (H4 : 0 <= f * W) by (apply Z.mul_nonneg_nonneg; lia).
  replace (b * (X * c)) with (b * X * c) by ring.
  replace (b * ((F - 1) * W)) with (b * F * W - b * W) by ring.
  replace ((b * F + f) * W) with (b * F * W + f * W) in H2 by ring.
  lia.
Qed.

Lemma scaled_exact (a b c f F W X : Z) :
  0 < b -> 0 <= c -> 1 <= f -> b * c <= W ->
  a * c = b * F + f ->
  a * W - b <= b * X ->
  F * W <= X * c.
Proof.
  intros Hb Hc Hf HW Hac HX.
  apply (Z.mul_le_mono_pos_l _ _ b Hb).
  assert (H1 : (a * W - b) * c <= b * X * c) by (apply Z.mul_le_mono_nonneg_r; lia).
  assert (H2 : (a * W - b) * c = (b * F + f) * W - b * c) by (rewrite <- Hac; ring).
  assert (H4 : 1 * W <= f * W) by (apply Z.mul_le_mono_nonneg_r; lia).
  replace (b * (X * c)) with (b * X * c) by ring.
  replace (b * (F * W)) with (b * F * W) by ring.
  replace ((b * F + f) * W) with (b * F * W + f * W) in H2 by ring.
  lia.
Qed.

Lemma scaled_upper (a b c f F W X K : Z) :
  0 < b -> 0 <= c -> 0 <= f < b -> 0 <= X ->
  2 * (b * c) <= W -> 0 < W -> 0 < K -> 2 * (b * (F + 1)) < K ->
  a * c = b * F + f ->
  b * X <= a * W + b ->
  X * c * (K + 1) < K * ((F + 1) * W).
Proof.
  intros Hb Hc Hf HX HW HW0 HK HF Hac HXu.
  assert (Hbc : 0 <= b * c) by (apply Z.mul_nonneg_nonneg; lia).
  apply (Z.mul_lt_mono_pos_l b); [exact Hb|].
  assert (H1 : b * X * c <= (a * W + b) * c) by (apply Z.mul_le_mono_nonneg_r; lia).
  assert (H2 : (a * W + b) * c = (b * F + f) * W + b * c) by (rewrite <- Hac; ring).
  assert (H3 : f * W <= (b - 1) * W) by (apply Z.mul_le_mono_nonneg_r; lia).
  (* b X c <= b (F + 1) W - (W - b c) *)
  assert (H5 : b * X * c <= b * (F + 1) * W - (W - b * c)).
  { rewrite H2 in H1. replace ((b * F + f) * W) with (b * F * W + f * W) in H1 by ring.
    replace (b * (F + 1) * W) with (b * F * W + b * W) by ring.
    replace ((b - 1) * W) with (b * W - W) in H3 by ring. lia. }
  assert (H6 : b * X * c * (K + 1) <= (b * (F + 1) * W - (W - b * c)) * (K + 1))
    by (apply Z.mul_le_mono_nonneg_r; lia).
  (* (W - b c) (K + 1) > b (F + 1) W *)
  assert (H7 : 2 * (b * (F + 1)) * W <= K * W) by (apply Z.mul_le_mono_nonneg_r; lia).
  assert (H8 : K * W <= K * (2 * (W - b * c))) by (apply Z.mul_le_mono_nonneg_l; lia).
  replace (b * (X * c * (K + 1))) with (b * X * c * (K + 1)) by ring.
  replace (b * (K * ((F + 1) * W))) with (b * (F + 1) * W * K) by ring.
  replace ((b * (F + 1) * W - (W - b * c)) * (K + 1))
    with (b * (F + 1) * W * K + b * (F + 1) * W - (W - b * c) * K - (W - b * c)) in H6 by ring.
  replace (2 * (b * (F + 1)) * W) with (2 * (b * (F + 1) * W)) in H7 by ring.
  replace (K * (2 * (W - b * c))) with (2 * ((W - b * c) * K)) in H8 by ring.
  assert (H9 : 0 < W - b * c) by lia.
  lia.
Qed.

(** [int((a / b) * c)] for three ints below [2^24]: the integer part of
    [a * c / b], or one less when [b] divides [a * c]. *)
Lemma scale_edge (a b c : Z) :
  1 <= a < 2 ^ 24 -> 1 <= b < 2 ^ 24 -> 1 <= c < 2 ^ 24 ->
  exists v,
    (let* r := int_truediv a b in
     let* f := of_int c in
     to_int (mul r f)) = Ok v /\
    0 <= v /\
    a * c / b - 1 <= v <= a * c / b /\
    ((a * c) mod b <> 0 -> v = a * c / b).
Proof.
  intros Ha Hb Hc.
  destruct (int_truediv_between a b Ha Hb) as (mr & T & dl & Hdiv & Hdl & Hdr & HT & HR & H51).
  destruct (of_int_exact c) as (mh & eh & Hof & Hdh & Heh & Hmh).
  { split; [lia|]. eapply Z.lt_trans; [apply Hc | reflexivity]. }
  rewrite Hdiv, Hof. simpl bind. unfold mul, SFmul. simpl xorb.
  pose proof (digits_bounds mr) as [Hlor Hhir]. rewrite Hdr in Hlor, Hhir.
  pose proof (digits_bounds mh) as [Hloh Hhih]. rewrite Hdh in Hloh, Hhih.
  change (53 - 1) with 52 in Hlor, Hloh.
  set (F := a * c / b).
  pose proof (Z.div_mod (a * c) b ltac:(lia)) as Hdm.
  pose proof (Z.mod_pos_bound (a * c) b ltac:(lia)) as Hmod.
  fold F in Hdm. set (f := (a * c) mod b) in *.
  (* the scales *)
  set (W := 2 ^ T) in *. set (k := 2 ^ dl) in *. set (X := Zpos mr * k) in *.
  set (u := - eh) in *. set (U := 2 ^ u) in *. set (Wd := 2 ^ (T - dl)).
  assert (PW : 0 < W) by (apply pow2_pos; lia).
  assert (Pk : 0 < k) by (apply pow2_pos; lia).
  assert (PU : 0 < U) by (apply pow2_pos; unfold u; lia).
  assert (PWd : 0 < Wd) by (apply pow2_pos; lia).
  assert (HW : W = Wd * k).
  { unfold W, Wd, k. rewrite <- Z.pow_add_r by lia. f_equal. lia. }
  assert (H28 : 2 ^ 28 <= W) by (apply Z.pow_le_mono_r; lia).
  assert (Hac : 0 <= a * c < 2 ^ 48).
  { split; [apply Z.mul_nonneg_nonneg; lia|].
    assert (a * c <= (2 ^ 24 - 1) * c) by (apply Z.mul_le_mono_nonneg_r; lia).
    assert ((2 ^ 24 - 1) * c <= (2 ^ 24 - 1) * (2 ^ 24 - 1))
      by (apply Z.mul_le_mono_nonneg_l; lia).
    change (2 ^ 48) with (2 ^ 24 * 2 ^ 24). lia. }
  assert (HbF : 0 <= b * F <= a * c) by (split; [|lia]; apply Z.mul_nonneg_nonneg;
    [lia | apply Z.div_pos; lia]).
  assert (HF0 : 0 <= F) by (apply Z.div_pos; lia).
  assert (HbW : 2 ^ 27 * b < W).
  { assert (a * W <= 2 ^ 24 * W) by (apply Z.mul_le_mono_nonneg_r; lia).
    change (2 ^ 51) with (2 ^ 24 * 2 ^ 27) in H51. lia. }
  assert (Hbc : b * c <= 2 ^ 24 * b).
  { replace (2 ^ 24 * b) with (b * 2 ^ 24) by ring. apply Z.mul_le_mono_nonneg_l; lia. }
  (* the three inequalities at scale [W] *)
  assert (G1 : (F - 1) * W <= X * c).
  { apply (scaled_lower a b c f F W X); lia. }
  assert (G2 : f <> 0 -> F * W <= X * c).
  { intros Hf. apply (scaled_exact a b c f F W X); lia. }
  assert (G3 : X * c * (2 ^ 52 + 1) < 2 ^ 52 * ((F + 1) * W)).
  { apply (scaled_upper a b c f F W X (2 ^ 52)); lia. }
  (* the same at the scale of the mantissa *)
  assert (D1 : (F - 1) * Wd <= Zpos mr * c).
  { apply (Z.mul_le_mono_pos_r _ _ k Pk).
    replace ((F - 1) * Wd * k) with ((F - 1) * W) by (rewrite HW; ring).
    replace (Zpos mr * c * k) with (X * c) by (unfold X; ring). exact G1. }
  assert (D2 : f <> 0 -> F * Wd <= Zpos mr * c).
  { intros Hf. apply (Z.mul_le_mono_pos_r _ _ k Pk).
    replace (F * Wd * k) with (F * W) by (rewrite HW; ring).
    replace (Zpos mr * c * k) with (X * c) by (unfold X; ring). exact (G2 Hf). }
  assert (D3 : Zpos mr * c * (2 ^ 52 + 1) < 2 ^ 52 * ((F + 1) * Wd)).
  { apply (Z.mul_lt_mono_pos_r k _ _ Pk).
    replace (Zpos mr * c * (2 ^ 52 + 1) * k) with (X * c * (2 ^ 52 + 1)) by (unfold X; ring).
    replace (2 ^ 52 * ((F + 1) * Wd) * k) with (2 ^ 52 * ((F + 1) * W)) by (rewrite HW; ring).
    exact G3. }
  clearbody W k X. clear G1 G2 G3 HR H51 HbW H28.
  (* the product of the mantissas *)
  set (P := Zpos (mr * mh)). set (E := dl - T + eh).
  assert (HP : P = Zpos mr * c * U).
  { unfold P. rewrite Pos2Z.inj_mul, Hmh. fold u U. ring. }
  assert (HE : 2 ^ (- E) = Wd * U).
  { unfold Wd, U, E, u. rewrite <- Z.pow_add_r by lia. f_equal. lia. }
  assert (HPlo : 2 ^ 104 <= P).
  { unfold P. rewrite Pos2Z.inj_mul. change (2 ^ 104) with (2 ^ 52 * 2 ^ 52).
    apply Z.mul_le_mono_nonneg; lia. }
  assert (HPhi : P < 2 ^ 106).
  { unfold P. rewrite Pos2Z.inj_mul. change (2 ^ 106) with (2 ^ 53 * 2 ^ 53).
    apply Z.mul_lt_mono_nonneg; lia. }
  pose proof (digits_bounds (mr * mh)) as [HloP HhiP]. fold P in HloP, HhiP.
  set (n := Zdigits2 P - 53).
  assert (Hn : 52 <= n <= 53).
  { unfold n, P. simpl Zdigits2. fold P. split.
    - assert (Hlt : 2 ^ 104 < 2 ^ Zpos (digits2_pos (mr * mh))) by lia.
      apply Z.pow_lt_mono_r_iff in Hlt; lia.
    - assert (Hlt : 2 ^ (Zpos (digits2_pos (mr * mh)) - 1) < 2 ^ 106) by lia.
      apply Z.pow_lt_mono_r_iff in Hlt; lia. }
  assert (HnP : 2 ^ 52 * 2 ^ n <= P).
  { rewrite <- Z.pow_add_r by lia. unfold n, P. simpl Zdigits2. fold P.
    replace (52 + (Zpos (digits2_pos (mr * mh)) - 53))
      with (Zpos (digits2_pos (mr * mh)) - 1) by lia.
    exact HloP. }
  assert (HFle : F + 1 <= 2 ^ 48).
  { assert (1 * F <= b * F) by (apply Z.mul_le_mono_nonneg_r; lia). lia. }
  assert (Hmc : Zpos mr * c < (F + 1) * Wd).
  { assert (H0 : 0 <= Zpos mr * c) by (apply Z.mul_nonneg_nonneg; lia).
    replace (Zpos mr * c * (2 ^ 52 + 1)) with (2 ^ 52 * (Zpos mr * c) + Zpos mr * c) in D3
      by ring.
    apply (Z.mul_lt_mono_pos_l (2 ^ 52)); lia. }
  assert (HEn : E + n < 0).
  { assert (H1 : (F + 1) * Wd <= 2 ^ 48 * Wd) by (apply Z.mul_le_mono_nonneg_r; lia).
    assert (H2 : P < 2 ^ 48 * (Wd * U)).
    { rewrite HP. replace (2 ^ 48 * (Wd * U)) with (2 ^ 48 * Wd * U) by ring.
      apply Z.mul_lt_mono_pos_r; lia. }
    rewrite <- HE, <- Z.pow_add_r in H2 by (unfold E; lia).
    rewrite <- Z.pow_add_r in HnP by lia.
    assert (Hlt : 2 ^ (52 + n) < 2 ^ (48 + - E)) by lia.
    apply Z.pow_lt_mono_r_iff in Hlt; unfold E in *; lia. }
  destruct (to_int_binary_round_aux P E loc_Exact) as (v & Hv & Hvlo & Hvhi);
    [unfold P; lia | fold n; lia | fold n; exact HEn | unfold E; lia |].
  fold n in Hvlo, Hvhi. exists v. split; [exact Hv|].
  set (s := - (E + n)) in *.
  assert (Ps : 0 < 2 ^ s) by (apply pow2_pos; unfold s; lia).
  assert (Pn : 0 < 2 ^ n) by (apply pow2_pos; lia).
  assert (Hns : 2 ^ n * 2 ^ s = Wd * U).
  { rewrite <- HE, <- Z.pow_add_r by (unfold s; lia). f_equal. unfold s. lia. }
  assert (Hlow : P / 2 ^ n / 2 ^ s = Zpos mr * c / Wd).
  { rewrite Z.div_div by lia. rewrite Hns, HP. apply Z.div_mul_cancel_r; lia. }
  rewrite Hlow in Hvlo.
  assert (Hup : (P / 2 ^ n + 1) / 2 ^ s <= F).
  { apply Z.lt_succ_r. apply Z.div_lt_upper_bound; [exact Ps|].
    apply (Z.mul_lt_mono_pos_l (2 ^ n)); [exact Pn|].
    pose proof (Z.mul_div_le P (2 ^ n) Pn) as Hml.
    replace (2 ^ n * (2 ^ s * Z.succ F)) with (Wd * U * (F + 1))
      by (rewrite <- Hns; unfold Z.succ; ring).
    apply (Z.mul_lt_mono_pos_l (2 ^ 52)); [lia|].
    assert (H3 : Zpos mr * c * (2 ^ 52 + 1) * U < 2 ^ 52 * ((F + 1) * Wd) * U)
      by (apply Z.mul_lt_mono_pos_r; [exact PU | exact D3]).
    replace (Zpos mr * c * (2 ^ 52 + 1) * U) with (2 ^ 52 * P + P) in H3 by (rewrite HP; ring).
    replace (2 ^ 52 * ((F + 1) * Wd) * U) with (2 ^ 52 * (Wd * U * (F + 1))) in H3 by ring.
    replace (2 ^ 52 * (2 ^ n * (P / 2 ^ n + 1)))
      with (2 ^ 52 * (2 ^ n * (P / 2 ^ n)) + 2 ^ 52 * 2 ^ n) by ring.
    lia. }
  split; [|split; [split|]].
  - eapply Z.le_trans; [|exact Hvlo].
    apply Z.div_pos; [apply Z.mul_nonneg_nonneg; lia | exact PWd].
  - eapply Z.le_trans; [|exact Hvlo].
    apply Z.div_le_lower_bound; [exact PWd|].
    replace (Wd * (F - 1)) with ((F - 1) * Wd) by ring. exact D1.
  - lia.
  - intros Hf. apply Z.le_antisymm; [lia|].
    eapply Z.le_trans; [|exact Hvlo].
    apply Z.div_le_lower_bound; [exact PWd|].
    replace (Wd * F) with (F * Wd) by ring. exact (D2 Hf).
Qed.

End ScaleEdge.

(** X13.  The requested box of Step 2 on binary64 floats, for a
    [max_dimension] and edges from 1 to below [2^24]: the call does not
    raise, the edge on the longer axis is [max_dimension], and the other
    edge [int((max_dimension / long) * short)] is the integer part of
    [max_dimension * short / long], or one less when [long] divides
    [max_dimension * short]; it is never negative and never above
    [max_dimension]. *)
Theorem requested_box_edges (m w h : Z) :
  1 <= m < 2 ^ 24 -> 1 <= w < 2 ^ 24 -> 1 <= h < 2 ^ 24 ->
  exists v,
    requested_box m w h = Ok (if w >=? h then (m, v) else (v, m)) /\
    0 <= v <= m /\
    m * Z.min w h / Z.max w h - 1 <= v <= m * Z.min w h / Z.max w h /\
    ((m * Z.min w h) mod Z.max w h <> 0 -> v = m * Z.min w h / Z.max w h).
Proof.
  intros Hm Hw Hh. unfold requested_box.
  assert (Hle : forall long short, 1 <= short <= long -> m * short / long <= m).
  { intros long short Hls. apply Z.div_le_upper_bound; [lia|].
    rewrite (Z.mul_comm long m). apply Z.mul_le_mono_nonneg_l; lia. }
  destruct (Z.geb_spec w h) as [Hge | Hlt].
  - destruct (ScaleEdge.scale_edge m w h Hm Hw Hh) as (v & Hv & Hv0 & Hb & Hex).
    exists v. rewrite Z.min_r, Z.max_l by lia.
    pose proof (Hle w h ltac:(lia)) as Hvm.
    split; [|split; [lia | split; assumption]].
    destruct (PyFloat.int_truediv m w) as [r|]; simpl in Hv; [|discriminate]. simpl bind.
    destruct (PyFloat.of_int h) as [fh|]; simpl in Hv; [|discriminate]. simpl bind.
    rewrite Hv. reflexivity.
  - destruct (ScaleEdge.scale_edge m h w Hm Hh Hw) as (v & Hv & Hv0 & Hb & Hex).
    exists v. rewrite Z.min_l, Z.max_r by lia.
    pose proof (Hle h w ltac:(lia)) as Hvm.
    split; [|split; [lia | split; assumption]].
    destruct (PyFloat.int_truediv m h) as [r|]; simpl in Hv; [|discriminate]. simpl bind.
    destruct (PyFloat.of_int w) as [fw|]; simpl in Hv; [|discriminate]. simpl bind.
    rewrite Hv. reflexivity.
Qed.

(** The lower value is reached: [(1 / 49) * 49] is below 1 in binary64. *)
Lemma requested_box_one_less : requested_box 1 49 49 = Ok (1, 0).
Proof. vm_compute. reflexivity. Qed.

Section FlatImage.
Context {Pix : Type} `{Codec Pix}.

(** X14.  A decoded picture so flat that [max_dimension * height <
    width] (edges and [max_dimension] from 1 to below [2^24]) gets the
    requested box [(max_dimension, 0)]; [Image.thumbnail] then divides
    by the zero height, and [compress_image] raises [ZeroDivisionError]
    before any save. *)
Theorem flat_image_raises (content : bytes) (cfg : Config) (im0 im1 : Image Pix) :
  image_open content = Some im0 ->
  to_rgb im0 = Ok im1 ->
  1 <= max_dimension cfg < 2 ^ 24 ->
  1 <= snd (size im1) -> fst (size im1) < 2 ^ 24 ->
  max_dimension cfg * snd (size im1) < fst (size im1) ->
  compress_image content cfg [] = ([], Raise ZeroDivisionError).
Proof.
  intros Hopen Hrgb Hm Hh Hw Hflat.
  destruct (size im1) as [w h] eqn:Hsz. simpl in Hh, Hw, Hflat.
  assert (Hhw : h < w).
  { assert (1 * h <= max_dimension cfg * h) by (apply Z.mul_le_mono_nonneg_r; lia). lia. }
  destruct (requested_box_edges (max_dimension cfg) w h Hm ltac:(lia) ltac:(lia))
    as (v & Hbox & _ & _ & Hex).
  destruct (Z.geb_spec w h) as [_ | Hlt]; [|lia].
  rewrite Z.min_r, Z.max_l in Hex by lia.
  assert (Hpos : 0 < max_dimension cfg * h) by (apply Z.mul_pos_pos; lia).
  rewrite Z.mod_small, Z.div_small in Hex by lia.
  rewrite Hex in Hbox by lia.
  destruct (ScaleEdge.int_truediv_between w h ltac:(lia) ltac:(lia))
    as (ma & T & dl & Haspect & _).
  assert (Hth : thumbnail im1 (max_dimension cfg, 0) = Raise ZeroDivisionError).
  { unfold thumbnail, preserve_aspect_ratio. rewrite Hsz. simpl fst. simpl snd.
    destruct (Z.geb_spec 0 h) as [Hge | _]; [lia|].
    rewrite andb_false_r, Haspect. reflexivity. }
  unfold compress_image, compress_image_locals, bind_eng, lift.
  rewrite Hopen. simpl. rewrite Hrgb, Hsz, Hbox, Hth. reflexivity.
Qed.

End FlatImage.

Section Requests.
Context {Pix : Type} `{Codec Pix}.
Variable round2 : PyFloat.float -> PyFloat.float.

(** X15.  An upload request costs at most six saves, whatever its
    answer, and each is made at quality 90, 85, 80 or 75. *)
Theorem upload_saves_at_most_six (file : Upload) (uuid4 utcnow : string) (st : Store) :
  (List.length (fst (upload_image round2 file uuid4 utcnow st)) <= 6)%nat /\
  forall e, In e (fst (upload_image round2 file uuid4 utcnow st)) ->
            In (at_quality e) [90; 85; 80; 75].
Proof.
  assert (Hfst : fst (upload_image round2 file uuid4 utcnow st) = []
                 \/ fst (upload_image round2 file uuid4 utcnow st)
                    = fst (compress_image_locals (content file) (boundary_config file) [])).
  { unfold upload_image.
    destruct (negb (supported_format (filename file))); [left; reflexivity|].
    destruct ((form_max_dimension file <=? 0) || (form_target_size_kb file <=? 0));
      [left; reflexivity|].
    right. rewrite <- compress_image_trace.
    destruct (compress_image (content file) (boundary_config file) []) as [t [r|e]];
      [|reflexivity].
    destruct (size_kb round2 (original_size r)); [|reflexivity].
    destruct (size_kb round2 (compressed_size r)); reflexivity. }
  destruct Hfst as [-> | ->]; [split; [simpl; lia | intros e []]|].
  destruct (compress_image_locals (content file) (boundary_config file) []) as [t o] eqn:Hrun.
  simpl.
  apply compress_image_locals_steps in Hrun as [-> | (n & sz & s & b & -> & Hn & Hs & Hb)];
    [split; [simpl; lia | intros e []]|].
  simpl max_quality in *. simpl min_quality in *.
  assert (Hn3 : (n <= 3)%nat) by (destruct Hn as [-> | Hn]; lia).
  split.
  - rewrite !length_app. simpl. unfold reduce_entries. rewrite length_map.
    assert (Hd : forall q k, List.length (descend q k) = k).
    { intros q k. revert q. induction k as [|k IH]; intros q; simpl; [reflexivity|].
      rewrite IH. reflexivity. }
    rewrite Hd.
    destruct Hs as [-> | (sz' & ->)]; destruct Hb as [-> | (_ & sz'' & ->)]; simpl; lia.
  - intros e Hin.
    apply in_app_or in Hin as [[<- | Hin] | Hin]; [simpl; auto | |].
    + apply in_reduce_entries_step in Hin as (k & Hk & ->). simpl at_quality.
      assert (Hk3 : k = 1%nat \/ k = 2%nat \/ k = 3%nat) by lia.
      destruct Hk3 as [-> | [-> | ->]]; simpl; auto.
    + apply in_app_or in Hin as [Hin | Hin].
      * destruct Hs as [-> | (sz' & ->)]; [destruct Hin|].
        destruct Hin as [<- | []]. simpl. auto.
      * destruct Hb as [-> | (Hn0 & sz' & ->)]; [destruct Hin|].
        destruct Hin as [<- | []]. simpl at_quality.
        assert (Hk3 : n = 1%nat \/ n = 2%nat \/ n = 3%nat) by lia.
        destruct Hk3 as [-> | [-> | ->]]; simpl; auto.
Qed.

End Requests.

(** ** The role of [target_size_kb] *)

Section Target.
Context {Pix : Type} `{Codec Pix}.

(** A run up to the boost does not read [target_size_kb]; the boost is
    its last step. *)
Lemma compress_image_locals_boost_step (content : bytes) (m min_q max_q : Z) :
  exists (t0 : list Encode) (pre : outcome (Image Pix * Z * bytes)),
    (forall e, In e t0 -> site e <> SaveBoost) /\
    forall target,
      compress_image_locals content (mkConfig m target min_q max_q) [] =
      match pre with
      | Raise e => (t0, Raise e)
      | Ok (im, q1, out) =>
          if (len out <? target * 1024) && (q1 <? max_q) then
            (t0 ++ [mkEncode SaveBoost (Z.min (q1 + 10) max_q) (size im)],
             match save_jpeg im (Z.min (q1 + 10) max_q) with
             | Some b => Ok (mkLocals im b (Z.min (q1 + 10) max_q))
             | None => Raise EncodeError
             end)
          else (t0, Ok (mkLocals im out q1))
      end.
Proof.
  unfold compress_image_locals, bind_eng, lift, ret, save. simpl.
  destruct (image_open content) as [im0|]; simpl.
  2:{ exists [], (Raise DecodeError). split; [intros e [] | reflexivity]. }
  destruct (to_rgb im0) as [im1|e].
  2:{ exists [], (Raise e). split; [intros e' [] | reflexivity]. }
  destruct (size im1) as [width height].
  destruct (requested_box m width height) as [box|e].
  2:{ exists [], (Raise e). split; [intros e' [] | reflexivity]. }
  destruct (thumbnail im1 box) as [im2|e].
  2:{ exists [], (Raise e). split; [intros e' [] | reflexivity]. }
  destruct (save_jpeg im2 max_q) as [out0|]; simpl.
  2:{ exists [mkEncode SaveInitial max_q (size im2)], (Raise EncodeError).
      split; [intros e' [<- | []]; discriminate | reflexivity]. }
  pose proof (reduce_quality_spec im2 min_q max_q out0
                [mkEncode SaveInitial max_q (size im2)]) as (n & Ht1 & _).
  destruct (reduce_quality im2 min_q max_q out0 [mkEncode SaveInitial max_q (size im2)])
    as [t1 [[q1 out1]|e]]; simpl in Ht1.
  2:{ exists t1, (Raise e). split; [|reflexivity]. subst t1.
      intros e' [<- | Hin]; [discriminate|].
      apply in_reduce_entries in Hin as (Hs & _). congruence. }
  assert (Hno1 : forall e, In e t1 -> site e <> SaveBoost).
  { subst t1. intros e' [<- | Hin]; [discriminate|].
    apply in_reduce_entries in Hin as (Hs & _). congruence. }
  destruct (len out1 >? 150 * 1024).
  - destruct (shrink_box box) as [nd|e].
    2:{ exists t1, (Raise e). split; [exact Hno1 | reflexivity]. }
    destruct (thumbnail im2 nd) as [im3|e].
    2:{ exists t1, (Raise e). split; [exact Hno1 | reflexivity]. }
    assert (Hno2 : forall e, In e (t1 ++ [mkEncode SaveShrink min_q (size im3)]) ->
                             site e <> SaveBoost).
    { intros e Hin. apply in_app_or in Hin as [Hin | [<- | []]]; [auto | discriminate]. }
    destruct (save_jpeg im3 min_q) as [out2|]; simpl.
    2:{ exists (t1 ++ [mkEncode SaveShrink min_q (size im3)]), (Raise EncodeError).
        split; [exact Hno2 | reflexivity]. }
    exists (t1 ++ [mkEncode SaveShrink min_q (size im3)]), (Ok (im3, q1, out2)).
    split; [exact Hno2|]. intros target.
    destruct ((len out2 <? target * 1024) && (q1 <? max_q)); [|reflexivity].
    destruct (save_jpeg im3 (Z.min (q1 + 10) max_q)); reflexivity.
  - exists t1, (Ok (im2, q1, out1)). split; [exact Hno1|]. intros target.
    destruct ((len out1 <? target * 1024) && (q1 <? max_q)); [|reflexivity].
    destruct (save_jpeg im2 (Z.min (q1 + 10) max_q)); reflexivity.
Qed.

(** X16.  [target_size_kb] is read by the boost only: two calls that
    differ in nothing else make the same saves before the boost, and
    when both return they return the same dimensions. *)
Theorem target_size_only_read_by_boost (content : bytes)
    (m target1 target2 min_q max_q : Z) :
  filter (fun e => site e <> SaveBoost)
    (fst (compress_image content (mkConfig m target1 min_q max_q) []))
  = filter (fun e => site e <> SaveBoost)
      (fst (compress_image content (mkConfig m target2 min_q max_q) [])) /\
  forall r1 r2,
    snd (compress_image content (mkConfig m target1 min_q max_q) []) = Ok r1 ->
    snd (compress_image content (mkConfig m target2 min_q max_q) []) = Ok r2 ->
    new_dimensions r1 = new_dimensions r2 /\ original_size r1 = original_size r2.
Proof.
  assert (Hsnoc : forall (u : list Encode) q sz,
            (forall e, In e u -> site e <> SaveBoost) ->
            filter (fun e => site e <> SaveBoost) (u ++ [mkEncode SaveBoost q sz]) = u /\
            filter (fun e => site e <> SaveBoost) u = u).
  { intros u q sz Hu.
    assert (Hid : filter (fun e => site e <> SaveBoost) u = u).
    { induction u as [|a u IH]; [reflexivity|].
      rewrite filter_cons_True by (apply Hu; left; reflexivity).
      rewrite IH; [reflexivity|]. intros e He. apply Hu. right. exact He. }
    split; [|exact Hid].
    rewrite filter_app, Hid, filter_cons_False by (simpl; tauto).
    rewrite filter_nil, app_nil_r. reflexivity. }
  destruct (compress_image_locals_boost_step content m min_q max_q) as (t0 & pre & Hno & Hrun).
  unfold compress_image, bind_eng, ret. rewrite (Hrun target1), (Hrun target2).
  destruct pre as [[[im q1] out]|e]; [|split; [reflexivity | discriminate]].
  split.
  - destruct ((len out <? target1 * 1024) && (q1 <? max_q));
      destruct ((len out <? target2 * 1024) && (q1 <? max_q));
      repeat match goal with
             | |- context [save_jpeg ?i ?q] => destruct (save_jpeg i q)
             end;
      simpl; destruct (Hsnoc t0 (Z.min (q1 + 10) max_q) (size im) Hno) as [Ha Hb];
      rewrite ?Ha, ?Hb; reflexivity.
  - intros r1 r2.
    destruct ((len out <? target1 * 1024) && (q1 <? max_q));
      destruct ((len out <? target2 * 1024) && (q1 <? max_q));
      repeat match goal with
             | |- context [save_jpeg ?i ?q] => destruct (save_jpeg i q)
             end;
      simpl; intros H1 H2; try discriminate;
      injection H1 as <-; injection H2 as <-; split; reflexivity.
Qed.

End Target.

(** ** The label of the dimensions *)

Lemma uint_no_x (d : Decimal.uint) :
  ~ In "x"%char (list_ascii_of_string (NilEmpty.string_of_uint d)).
Proof.
  induction d as [|d IH|d IH|d IH|d IH|d IH|d IH|d IH|d IH|d IH|d IH]; simpl;
    [tauto | intros [Hc | Hin]; [discriminate Hc | exact (IH Hin)] ..].
Qed.

Lemma str_no_x (n : Z) : ~ In "x"%char (list_ascii_of_string (str n)).
Proof.
  assert (Hu : forall d, ~ In "x"%char (list_ascii_of_string (NilZero.string_of_uint d))).
  { intros d. unfold NilZero.string_of_uint. destruct d; try apply uint_no_x.
    simpl. intros [Hc | []]. discriminate Hc. }
  unfold str, NilZero.string_of_int.
  destruct (Z.to_int n) as [d|d]; [apply Hu|].
  simpl. intros [Hc | Hin]; [discriminate Hc | exact (Hu d Hin)].
Qed.

Lemma split_at_x (a a' b b' : string) :
  ~ In "x"%char (list_ascii_of_string a) ->
  ~ In "x"%char (list_ascii_of_string a') ->
  (a ++ String "x" b)%string = (a' ++ String "x" b')%string ->
  a = a' /\ b = b'.
Proof.
  revert a'. induction a as [|c a IH]; intros [|c' a'] Ha Ha' Heq;
    rewrite ?append_cons in Heq;
    change (("" ++ String "x" b)%string) with (String "x" b) in Heq;
    change (("" ++ String "x" b')%string) with (String "x" b') in Heq.
  - injection Heq as Heq. auto.
  - exfalso. injection Heq as Hc _. apply Ha'. left. symmetry. exact Hc.
  - exfalso. injection Heq as Hc _. apply Ha. left. exact Hc.
  - injection Heq as Hc Heq. subst c'.
    destruct (IH a') as [Ea Eb]; [| |exact Heq|].
    + intros Hin. apply Ha. right. exact Hin.
    + intros Hin. apply Ha'. right. exact Hin.
    + subst. auto.
Qed.

Lemma str_inj (a b : Z) : str a = str b -> a = b.
Proof.
  unfold str. intros Heq.
  apply DecimalZ.to_int_inj.
  assert (Hnn : forall n, Z.to_int n <> Decimal.Pos Decimal.Nil /\
                          Z.to_int n <> Decimal.Neg Decimal.Nil).
  { intros [|p|p]; simpl; split; try discriminate;
      intros [= Hp]; exact (DecimalPos.Unsigned.to_uint_nonnil p Hp). }
  destruct (Hnn a) as [Ha1 Ha2]. destruct (Hnn b) as [Hb1 Hb2].
  pose proof (NilZero.isi _ Ha1 Ha2) as Ia. pose proof (NilZero.isi _ Hb1 Hb2) as Ib.
  rewrite Heq in Ia. congruence.
Qed.

(** X17.  The string [<width>x<height>] given in the answer of an
    upload, kept in the document and used in the file name of a
    download, determines the two dimensions. *)
Theorem dimensions_label_inj (d1 d2 : Z * Z) :
  dimensions_label d1 = dimensions_label d2 <-> d1 = d2.
Proof.
  split; [|intros ->; reflexivity].
  unfold dimensions_label. destruct d1 as [w1 h1], d2 as [w2 h2]. simpl fst. simpl snd.
  intros Heq.
  change ((str w1 ++ String "x" (str h1))%string = (str w2 ++ String "x" (str h2))%string)
    in Heq.
  apply split_at_x in Heq as [Hw Hh]; try apply str_no_x.
  apply str_inj in Hw, Hh. congruence.
Qed.

(** ** Concrete requests *)

Section ServiceExamples.

Lemma get_streams_stored_file_witness :
  exists d,
    In d [mkImageInfo "id" "a.png" PyFloat.zero PyFloat.zero "1x1" "temp_images/id.jpg" "now"]
    /\ info_image_id d = "id".
Proof.
  assert (Hget : get_compressed_image "id"
                   (mkStore (<["temp_images/id.jpg" := [x2a]]> ∅)
                      [mkImageInfo "id" "a.png" PyFloat.zero PyFloat.zero "1x1"
                         "temp_images/id.jpg" "now"])
                 = StreamingResponse [x2a] "image/jpeg"
                     "attachment; filename=compressed_image_1x1.jpg")
    by (vm_compute; reflexivity).
  destruct (get_streams_stored_file _ _ _ _ _ Hget) as (_ & d & Hin & Hid & _).
  exists d. split; [exact Hin | exact Hid].
Defined.

Lemma upload_then_get_witness :
  exists st' r,
    compress_image (Toy.picture 40 20) (mkConfig 20 100 75 90) []
      = ([mkEncode SaveInitial 90 (20, 10)], Ok r) /\
    get_compressed_image "id" st'
      = StreamingResponse (compressed_image r) "image/jpeg"
          "attachment; filename=compressed_image_20x10.jpg".
Proof.
  destruct (upload_image Toy.toy_round2 (mkUpload "a.PNG" (Toy.picture 40 20) 20 100)
              "id" "now" (mkStore ∅ [])) as [t [resp st']] eqn:Hup.
  assert (Hresp : exists b, t = [mkEncode SaveInitial 90 (20, 10)] /\ resp = Success b /\
                            body_image_id b = "id" /\ body_new_dimensions b = "20x10").
  { vm_compute in Hup. injection Hup as <- <- _. eexists. repeat split. }
  destruct Hresp as (b & -> & -> & Hid & Hdims).
  assert (Hfresh : forall d, In d (collection (mkStore ∅ [])) -> info_image_id d <> "id")
    by (intros d []).
  destruct (upload_then_get Toy.toy_round2 _ _ _ _ _ _ _ Hfresh Hup) as (r & Hrun & _ & Hget).
  rewrite Hid, Hdims in Hget.
  exists st', r. split; [exact Hrun | exact Hget].
Defined.

Lemma download_survives_later_uploads_witness :
  get_compressed_image "a"
    (uploads Toy.toy_round2
       ([mkRequest (mkUpload "a.png" (Toy.picture 40 20) 20 100) "a" "t0"]
        ++ [mkRequest (mkUpload "b.jpg" (Toy.picture 30 30) 10 100) "b" "t1"])
       (mkStore ∅ []))
  = get_compressed_image "a"
      (uploads Toy.toy_round2
         [mkRequest (mkUpload "a.png" (Toy.picture 40 20) 20 100) "a" "t0"]
         (mkStore ∅ [])).
Proof.
  apply (download_survives_later_uploads Toy.toy_round2).
  intros r [<- | []]. discriminate.
Defined.

Lemma save_qualities_by_site_witness :
  min_quality (mkConfig 5000 100 75 90) - 5 < 85 <= max_quality (mkConfig 5000 100 75 90) - 5
  /\ (max_quality (mkConfig 5000 100 75 90) - 85) mod 5 = 0.
Proof.
  destruct (observe_Ok _ _ _ _ _ run_20000x10000) as (r & Hrun & _).
  apply (save_qualities_by_site _ _ _ _ (mkEncode SaveReduce 85 (5000, 2500)) Hrun).
  simpl. auto.
Defined.

Lemma loop_stops_at_first_fit_witness :
  exists (im2 : Image unit) (b : bytes),
    save_jpeg im2 (90 - 5 * Z.of_nat 3) = Some b /\
    (len b <= 150 * 1024 \/ 90 - 5 * Z.of_nat 3 <= 75).
Proof.
  destruct (observe_Ok _ _ _ _ _ run_20000x10000) as (r & Hrun & _).
  destruct (loop_stops_at_first_fit _ _ _ _ Hrun)
    as (im0 & im1 & im2 & box & n & _ & _ & _ & _ & Hn & _ & b & Hb & Hstop).
  assert (Hn3 : n = 3%nat) by (rewrite <- Hn; reflexivity).
  subst n. exists im2, b. split; [exact Hb | exact Hstop].
Defined.

Lemma size_window_without_shrink_and_boost_witness :
  exists r,
    compress_image (Toy.picture 3000 2000) Toy.default_config []
      = ([mkEncode SaveInitial 90 (499, 333)], Ok r) /\
    compressed_size r <= 150 * 1024.
Proof.
  destruct (observe_Ok _ _ _ _ _ run_3000x2000) as (r & Hrun & _).
  exists r. split; [exact Hrun|].
  apply (size_window_without_shrink_and_boost _ _ _ _ Hrun).
  intros e [<- | []]. left. reflexivity.
Defined.

Lemma returned_buffer_encodes_rgb_witness :
  exists (im : Image unit) (q : Z), mode im = "RGB" /\ size im = (499, 333).
Proof.
  destruct (observe_Ok _ _ _ _ _ run_3000x2000) as (r & Hrun & Hd & _).
  destruct (returned_buffer_encodes_rgb _ _ _ _ Hrun) as (im & q & Hm & Hs & _).
  exists im, q. split; [exact Hm|]. rewrite Hs. exact Hd.
Defined.

Lemma upload_rejections_witness :
  exists t code detail st',
    upload_image Toy.toy_round2 (mkUpload "notes.txt" (Toy.picture 40 20) 0 100)
      "id" "now" (mkStore ∅ [])
    = (t, (HTTPException code detail, st')) /\
    t = [] /\ st' = mkStore ∅ [] /\ code = 400.
Proof.
  assert (Hup : upload_image Toy.toy_round2 (mkUpload "notes.txt" (Toy.picture 40 20) 0 100)
                  "id" "now" (mkStore ∅ [])
                = ([], (HTTPException 400 "Unsupported file format", mkStore ∅ [])))
    by reflexivity.
  destruct (upload_rejections _ _ _ _ _ _ _ _ _ Hup) as (Ht & Hst & Hc & _).
  exists [], 400, "Unsupported file format"%string, (mkStore ∅ []).
  split; [exact Hup|]. split; [exact Ht|]. split; [exact Hst | exact Hc].
Defined.

Lemma upload_answer_matches_document_witness :
  exists st' d,
    collection st' = [d] /\ info_image_id d = "id" /\ info_new_dimensions d = "20x10" /\
    is_Some (files st' !! info_temp_file_path d).
Proof.
  destruct (upload_image Toy.toy_round2 (mkUpload "a.PNG" (Toy.picture 40 20) 20 100)
              "id" "now" (mkStore ∅ [])) as [t [resp st']] eqn:Hup.
  assert (Hresp : exists b, resp = Success b /\
                            body_image_id b = "id" /\ body_new_dimensions b = "20x10").
  { vm_compute in Hup. injection Hup as _ <- _. eexists. repeat split. }
  destruct Hresp as (b & -> & Hid & Hdims).
  destruct (upload_answer_matches_document Toy.toy_round2 _ _ _ _ _ _ _ Hup)
    as (d & stored & Hcol & Hdid & _ & _ & _ & _ & Hdd & _ & _ & Hfile & _).
  exists st', d. split; [exact Hcol|]. split; [congruence|]. split; [congruence|].
  rewrite Hfile. eauto.
Defined.

Lemma requested_box_edges_witness : requested_box 500 3000 2000 = Ok (500, 333).
Proof.
  destruct (requested_box_edges 500 3000 2000) as (v & Hbox & _ & _ & Hex);
    try (split; [discriminate | reflexivity]).
  rewrite Hbox. simpl. f_equal. f_equal. apply Hex. discriminate.
Defined.

Lemma flat_image_raises_witness :
  compress_image (Toy.picture 2000 1) Toy.default_config [] = ([], Raise ZeroDivisionError).
Proof.
  apply (flat_image_raises (Toy.picture 2000 1) Toy.default_config
           (mkImage "RGB" (2000, 1) tt) (mkImage "RGB" (2000, 1) tt));
    try reflexivity; simpl; lia.
Defined.

End ServiceExamples.
